(** * SceneBatchCollector: a shallow embedding of
      Source/Urho3D/Graphics/SceneBatchCollector.cpp

    The development follows the order of the C++ file: the octree queries
    for lit geometries, the pipeline state cache, the pass data with its
    validity predicate, technique selection, pass initialisation, the
    collection of source batches, the processing of visible lights and the
    assembly of scene batches.

    Conventions.
    - [unsigned] values are [Z]; the only arithmetic the file performs on
      them is bitwise ([Z.land], [Z.lor]) and comparison with
      [M_MAX_UNSIGNED].  Those that only index a [vector] or number a thread
      are [nat].
    - [float] values are IEEE-754 values, [spec_float]; the file only
      compares them, and the comparisons are the IEEE ones ([SFltb],
      [SFleb]): every comparison with a NaN is false.
    - A nullable pointer is an [option].  Objects whose identity matters
      (they key a hash map) are addresses, and what is read through them is
      read from an explicit environment.
    - Indexing a [vector] out of its range and dereferencing a null pointer
      are undefined behaviour in C++: the operations that do so return a
      [Fault] there, and the functions that use them propagate it. *)

From Stdlib Require Import ZArith List Bool Lia String.
From Stdlib Require Import Floats.SpecFloat.
From stdpp Require Import base option list gmap strings.

Open Scope Z_scope.

(* ===================================================================== *)
(** ** Floating point comparisons *)
(* ===================================================================== *)

Module Float.

Definition float := spec_float.

(** The literal [0.0f]. *)
Definition zero : float := S754_zero false.

(** [a > b] and [a >= b] of C++, on IEEE values. *)
Definition gt (a b : float) : bool := SFltb b a.
Definition ge (a b : float) : bool := SFleb b a.

(** [a <= b], for statements. *)
Definition le (a b : float) : bool := SFleb a b.

(** A float built from an integer mantissa, for examples: [of_Z n] is the
    value [n] (as [n * 2^0]; comparisons do not need it normalised as long
    as every exponent is 0). *)
Definition of_Z (n : Z) : float :=
  match n with
  | Z0 => S754_zero false
  | Zpos p => S754_finite false p 0
  | Zneg p => S754_finite true p 0
  end.

(** The position of a value in the IEEE order: a class (-2 for -inf, -1 for
    negative finite, 0 for both zeros, 1 for positive finite, 2 for +inf)
    and, inside a finite class, exponent then mantissa (negated for
    negative values).  A NaN has no position. *)
Definition rank (a : float) : option (Z * Z * Z) :=
  match a with
  | S754_nan => None
  | S754_infinity true => Some (-2, 0, 0)
  | S754_infinity false => Some (2, 0, 0)
  | S754_zero _ => Some (0, 0, 0)
  | S754_finite true m e => Some (-1, - e, - Zpos m)
  | S754_finite false m e => Some (1, e, Zpos m)
  end.

(** The lexicographic order of positions. *)
Definition lex (x y : Z * Z * Z) : Prop :=
  let '(a1, a2, a3) := x in
  let '(b1, b2, b3) := y in
  a1 < b1 \/ (a1 = b1 /\ (a2 < b2 \/ (a2 = b2 /\ a3 < b3))).

End Float.

Import Float.

(* ===================================================================== *)
(** ** Outcomes of operations that can leave defined behaviour *)
(* ===================================================================== *)

(** What stops a call: an index outside a [vector], a null pointer that is
    dereferenced, or [assert(0)] in a build that keeps assertions. *)
Inductive fault := OutOfRange | NullDereference | AssertionFailed.

Inductive Outcome (A : Type) : Type :=
| Ok (a : A)
| Fault (f : fault).
Arguments Ok {A} a.
Arguments Fault {A} f.

Definition bind {A B : Type} (m : Outcome A) (k : A -> Outcome B) : Outcome B :=
  match m with
  | Ok a => k a
  | Fault f => Fault f
  end.

Notation "'do' x <- m ; k" := (bind m (fun x => k))
  (at level 10, x name, m at level 100, k at level 200).
Notation "'do' ' p <- m ; k" := (bind m (fun x => let 'p := x in k))
  (at level 10, p pattern, m at level 100, k at level 200).

(** [v[i]] of a [vector]. *)
Definition at_index {A : Type} (v : list A) (i : nat) : Outcome A :=
  match v !! i with
  | Some a => Ok a
  | None => Fault OutOfRange
  end.

(** [v[i] = f(v[i])] of a [vector]. *)
Definition update_index {A : Type} (v : list A) (i : nat) (f : A -> A) : Outcome (list A) :=
  match v !! i with
  | Some a => Ok (<[i := f a]> v)
  | None => Fault OutOfRange
  end.

(** [v.resize(n)] of a [vector]: the first [n] elements are kept, missing
    ones are value-initialised. *)
Definition vector_resize {A : Type} (n : nat) (dflt : A) (v : list A) : list A :=
  take n v ++ replicate (n - length v) dflt.

(* ===================================================================== *)
(** ** Constants and types of the headers *)
(* ===================================================================== *)

(** Modelled from the spec: [M_MAX_UNSIGNED], the largest [unsigned], marks
    a sub-pass slot that is not present. *)
Definition M_MAX_UNSIGNED : Z := 4294967295.

(** Modelled from the spec: the float [M_LARGE_VALUE], the "effectively
    infinite" threshold. *)
Definition M_LARGE_VALUE : float := Float.of_Z 100000000.

(** Modelled from the spec: the drawable type flags that the collector
    tests. *)
Definition DRAWABLE_GEOMETRY : Z := 1.
Definition DRAWABLE_LIGHT : Z := 2.

(** Modelled from the spec: the trait bitset of the transient drawable
    index (updated-this-frame, visible-geometry, forward-lit). *)
Module TransientDrawableIndex.
Definition DrawableUpdated : Z := 1.
Definition DrawableVisibleGeometry : Z := 2.
Definition ForwardLit : Z := 4.
End TransientDrawableIndex.

(** A C++ integer used as a condition. *)
Definition truthy (x : Z) : bool := negb (x =? 0).

(** A C++ pointer used as a condition. *)
Definition non_null {A : Type} (p : option A) : bool :=
  match p with Some _ => true | None => false end.

(** Addresses of objects that are only compared and hashed. *)
Definition Geometry := N.
Definition Pass := N.
Definition PipelineState := N.
Definition Camera := N.

(** The light types that [CollectLitGeometries] switches on. *)
Inductive LightType := LIGHT_DIRECTIONAL | LIGHT_SPOT | LIGHT_POINT.

(** The pass types that [PassData::IsValid] switches on. *)
Inductive ScenePassType := Unlit | ForwardLitBase | ForwardUnlitBase.

Definition ScenePassType_eqb (a b : ScenePassType) : bool :=
  match a, b with
  | Unlit, Unlit | ForwardLitBase, ForwardLitBase
  | ForwardUnlitBase, ForwardUnlitBase => true
  | _, _ => false
  end.

(** A pass description: its type and the names of its three sub-passes. *)
Record ScenePassDescription := {
  type_ : ScenePassType;
  unlitBasePassName_ : string;
  litBasePassName_ : string;
  additionalLightPassName_ : string;
}.

(** Modelled from the spec: a technique, a named set of passes.  It says
    whether the device supports it and has its passes by pass index;
    [Technique::GetPass] returns null for an index it has no pass for,
    [M_MAX_UNSIGNED] included. *)
Record Technique := {
  IsSupported : bool;
  technique_passes : gmap Z Pass;
}.

Definition GetPass (t : Technique) (passIndex : Z) : option Pass :=
  technique_passes t !! passIndex.

(** A technique entry of a material, with the fields that [FindTechnique]
    reads. *)
Record TechniqueEntry := {
  technique_ : option Technique;
  qualityLevel_ : Z;
  lodDistance_ : float;
}.

(** A material: its address (the pipeline state key holds the pointer) and
    its technique entries in declared order. *)
Record Material := {
  material_address : N;
  GetTechniques : list TechniqueEntry;
}.

(** A source batch of a drawable: a geometry and a material, either of
    which can be null. *)
Module SourceBatch.
Record t := mk {
  geometry_ : option Geometry;
  material_ : option Material;
}.
End SourceBatch.

(** A drawable as the collector reads it.  [Light] derives from [Drawable];
    the last four fields are those of the derived class. *)
Record Drawable := {
  GetDrawableIndex : nat;
  GetDrawableFlags : Z;
  GetDrawDistance : float;
  GetDistance : float;
  GetLodDistance : float;
  GetLightMask : Z;
  GetBatches : list SourceBatch.t;
  GetPipelineStateHash : Z;
  GetLightType : LightType;
  EffectiveColorIsBlack : bool;
  GetLightMaskEffective : Z;
  GetIntensityDivisor : float;
}.

Definition Light := Drawable.

(** The range of view space depth of a drawable, [None] when
    [DrawableZRange::IsValid] is false. *)
Definition DrawableZRange := option (float * float).

(** The pipeline state hashes that geometries, materials and passes report
    at the moment of a call, by address. *)
Record LiveHashes := {
  geometry_hash : Geometry -> Z;
  material_hash : N -> Z;
  pass_hash : Pass -> Z;
}.

(** Modelled from the spec: a thread-partitioned append-only buffer, one
    growable bucket per worker, read in bucket order. *)
Module ThreadedVector.
Definition t (T : Type) := list (list T).

Definition Clear {T : Type} (numThreads : nat) (v : t T) : t T :=
  replicate numThreads [].

Definition Insert {T : Type} (threadIndex : nat) (x : T) (v : t T) : Outcome (t T) :=
  update_index v threadIndex (fun bucket => bucket ++ [x]).

Definition elements {T : Type} (v : t T) : list T := concat v.

Definition Size {T : Type} (v : t T) : nat := length (elements v).
End ThreadedVector.

(* ===================================================================== *)
(** ** Batches and pipeline state cache entries *)
(* ===================================================================== *)

Module IntermediateSceneBatch.
Record t := mk {
  geometry_ : option Drawable;
  sourceBatchIndex_ : nat;
  basePass_ : option Pass;
  additionalPass_ : option Pass;
}.
(** The value-initialised batch, [return {}]. *)
Definition empty : t := mk None 0%nat None None.
End IntermediateSceneBatch.

Module SceneBatch.
Record t := mk {
  drawable_ : option Drawable;
  drawableIndex_ : nat;
  sourceBatchIndex_ : nat;
  geometry_ : option Geometry;
  material_ : option Material;
  pass_ : option Pass;
  pipelineState_ : option PipelineState;
}.
Definition with_pipelineState_ (ps : option PipelineState) (b : t) : t :=
  mk (drawable_ b) (drawableIndex_ b) (sourceBatchIndex_ b) (geometry_ b)
     (material_ b) (pass_ b) ps.
End SceneBatch.

Module SubPassPipelineStateKey.
Record t := mk {
  drawableHash_ : Z;
  geometry_ : option Geometry;
  material_ : option N;
  pass_ : option Pass;
}.

#[global] Instance eq_dec : EqDecision t.
Proof. solve_decision. Defined.

#[global] Instance countable : Countable t :=
  inj_countable'
    (fun k => (drawableHash_ k, geometry_ k, material_ k, pass_ k))
    (fun '(d, g, m, p) => mk d g m p)
    (fun k => match k with mk _ _ _ _ => eq_refl end).

(** [SubPassPipelineStateKey(const SceneBatch&)]: the drawable is
    dereferenced for its hash, the other pointers are copied. *)
Definition of_batch (sceneBatch : SceneBatch.t) : Outcome t :=
  match SceneBatch.drawable_ sceneBatch with
  | None => Fault NullDereference
  | Some drawable =>
      Ok (mk (GetPipelineStateHash drawable)
             (SceneBatch.geometry_ sceneBatch)
             (material_address <$> SceneBatch.material_ sceneBatch)
             (SceneBatch.pass_ sceneBatch))
  end.
End SubPassPipelineStateKey.

Module SubPassPipelineStateEntry.
Record t := mk {
  geometryHash_ : Z;
  materialHash_ : Z;
  passHash_ : Z;
  pipelineState_ : option PipelineState;
  invalidated_ : bool;
}.
(** The value-initialised entry that [cache_[key]] inserts for a new key. *)
Definition empty : t := mk 0 0 0 None false.
Definition with_invalidated_ (b : bool) (e : t) : t :=
  mk (geometryHash_ e) (materialHash_ e) (passHash_ e) (pipelineState_ e) b.
Definition with_pipelineState_ (ps : option PipelineState) (e : t) : t :=
  mk (geometryHash_ e) (materialHash_ e) (passHash_ e) ps (invalidated_ e).
End SubPassPipelineStateEntry.

(** The arguments of one call of the pipeline state factory. *)
Record FactoryCall := {
  call_camera : Camera;
  call_drawable : option Drawable;
  call_geometry : option Geometry;
  call_material : option N;
  call_pass : option Pass;
}.

(** The pipeline state factory: the state it returns for a call, which may
    depend on the calls made before. *)
Definition ScenePipelineStateFactory :=
  list FactoryCall -> FactoryCall -> option PipelineState.

Module SubPassPipelineStateContext.
Record t := mk {
  camera_ : Camera;
  light_ : option Light;
}.
End SubPassPipelineStateContext.

(** [p->GetPipelineStateHash()] for a nullable pointer [p]. *)
Definition hash_through {A : Type} (hash : A -> Z) (p : option A) : Outcome Z :=
  match p with
  | Some a => Ok (hash a)
  | None => Fault NullDereference
  end.

Module SubPassPipelineStateCache.

Definition t := gmap SubPassPipelineStateKey.t SubPassPipelineStateEntry.t.

(** The comparison of the three live hashes with the entry's, with the
    short circuit of [||]: a pointer is dereferenced only when the hashes
    before it matched. *)
Definition hashes_differ (live : LiveHashes) (key : SubPassPipelineStateKey.t)
    (entry : SubPassPipelineStateEntry.t) : Outcome bool :=
  do g <- hash_through (geometry_hash live) (SubPassPipelineStateKey.geometry_ key);
  if negb (g =? SubPassPipelineStateEntry.geometryHash_ entry) then Ok true else
  do m <- hash_through (material_hash live) (SubPassPipelineStateKey.material_ key);
  if negb (m =? SubPassPipelineStateEntry.materialHash_ entry) then Ok true else
  do p <- hash_through (pass_hash live) (SubPassPipelineStateKey.pass_ key);
  Ok (negb (p =? SubPassPipelineStateEntry.passHash_ entry)).

(** [GetPipelineState]: the state found, or null; the cache changes only
    by the [invalidated_] flag of the entry of [key]. *)
Definition GetPipelineState (live : LiveHashes) (key : SubPassPipelineStateKey.t)
    (cache_ : gmap SubPassPipelineStateKey.t SubPassPipelineStateEntry.t)
  : Outcome (option PipelineState
             * gmap SubPassPipelineStateKey.t SubPassPipelineStateEntry.t) :=
  match cache_ !! key with
  | None => Ok (None, cache_)
  | Some entry =>
      if SubPassPipelineStateEntry.invalidated_ entry then Ok (None, cache_)
      else
        do differ <- hashes_differ live key entry;
        if differ
        then Ok (None, <[key := SubPassPipelineStateEntry.with_invalidated_ true entry]> cache_)
        else Ok (SubPassPipelineStateEntry.pipelineState_ entry, cache_)
  end.

(** [GetOrCreatePipelineState].  [cache_[key]] inserts a value-initialised
    entry for a new key.  The factory is called when the entry has no state,
    is flagged, or a live hash differs from the entry's; the call stores
    the new state and clears the flag. *)
Definition GetOrCreatePipelineState (drawable : option Drawable)
    (key : SubPassPipelineStateKey.t) (factoryContext : SubPassPipelineStateContext.t)
    (factory : ScenePipelineStateFactory) (live : LiveHashes)
    (calls : list FactoryCall)
    (cache_ : gmap SubPassPipelineStateKey.t SubPassPipelineStateEntry.t)
  : Outcome (option PipelineState
             * gmap SubPassPipelineStateKey.t SubPassPipelineStateEntry.t
             * list FactoryCall) :=
  let entry := default SubPassPipelineStateEntry.empty (cache_ !! key) in
  do create <-
    (if negb (non_null (SubPassPipelineStateEntry.pipelineState_ entry))
     then Ok true
     else if SubPassPipelineStateEntry.invalidated_ entry then Ok true
     else hashes_differ live key entry);
  if create
  then
    let call := {| call_camera := SubPassPipelineStateContext.camera_ factoryContext;
                   call_drawable := drawable;
                   call_geometry := SubPassPipelineStateKey.geometry_ key;
                   call_material := SubPassPipelineStateKey.material_ key;
                   call_pass := SubPassPipelineStateKey.pass_ key |} in
    let created := factory calls call in
    let entry' := SubPassPipelineStateEntry.with_invalidated_ false
                    (SubPassPipelineStateEntry.with_pipelineState_ created entry) in
    Ok (created, <[key := entry']> cache_, calls ++ [call])
  else
    Ok (SubPassPipelineStateEntry.pipelineState_ entry, <[key := entry]> cache_, calls).

End SubPassPipelineStateCache.

(* ===================================================================== *)
(** ** Pass data *)
(* ===================================================================== *)

Module PassData.
Record t := mk {
  desc_ : ScenePassDescription;
  unlitBasePassIndex_ : Z;
  litBasePassIndex_ : Z;
  additionalLightPassIndex_ : Z;
  unlitBatches_ : ThreadedVector.t IntermediateSceneBatch.t;
  litBatches_ : ThreadedVector.t IntermediateSceneBatch.t;
  unlitBaseSceneBatches_ : list SceneBatch.t;
  litBaseSceneBatches_ : list SceneBatch.t;
  unlitPipelineStateCache_ : gmap SubPassPipelineStateKey.t SubPassPipelineStateEntry.t;
  litPipelineStateCache_ : gmap SubPassPipelineStateKey.t SubPassPipelineStateEntry.t;
}.

(** The value-initialised pass data that [passes_.resize] appends. *)
Definition empty : t :=
  mk {| type_ := Unlit; unlitBasePassName_ := EmptyString;
        litBasePassName_ := EmptyString; additionalLightPassName_ := EmptyString |}
     0 0 0 [] [] [] [] ∅ ∅.

Definition with_desc (desc : ScenePassDescription) (ub lb al : Z) (p : t) : t :=
  mk desc ub lb al (unlitBatches_ p) (litBatches_ p)
     (unlitBaseSceneBatches_ p) (litBaseSceneBatches_ p)
     (unlitPipelineStateCache_ p) (litPipelineStateCache_ p).

Definition with_unlitBatches_ (v : ThreadedVector.t IntermediateSceneBatch.t) (p : t) : t :=
  mk (desc_ p) (unlitBasePassIndex_ p) (litBasePassIndex_ p) (additionalLightPassIndex_ p)
     v (litBatches_ p) (unlitBaseSceneBatches_ p) (litBaseSceneBatches_ p)
     (unlitPipelineStateCache_ p) (litPipelineStateCache_ p).

Definition with_litBatches_ (v : ThreadedVector.t IntermediateSceneBatch.t) (p : t) : t :=
  mk (desc_ p) (unlitBasePassIndex_ p) (litBasePassIndex_ p) (additionalLightPassIndex_ p)
     (unlitBatches_ p) v (unlitBaseSceneBatches_ p) (litBaseSceneBatches_ p)
     (unlitPipelineStateCache_ p) (litPipelineStateCache_ p).

Definition with_unlit_result (b : list SceneBatch.t)
    (c : gmap SubPassPipelineStateKey.t SubPassPipelineStateEntry.t) (p : t) : t :=
  mk (desc_ p) (unlitBasePassIndex_ p) (litBasePassIndex_ p) (additionalLightPassIndex_ p)
     (unlitBatches_ p) (litBatches_ p) b (litBaseSceneBatches_ p)
     c (litPipelineStateCache_ p).

Definition with_lit_result (b : list SceneBatch.t)
    (c : gmap SubPassPipelineStateKey.t SubPassPipelineStateEntry.t) (p : t) : t :=
  mk (desc_ p) (unlitBasePassIndex_ p) (litBasePassIndex_ p) (additionalLightPassIndex_ p)
     (unlitBatches_ p) (litBatches_ p) (unlitBaseSceneBatches_ p) b
     (unlitPipelineStateCache_ p) c.

(** [CheckSubPasses]: whether the sub-passes present are exactly the given
    ones. *)
Definition CheckSubPasses (p : t) (hasBase hasFirstLight hasAdditionalLight : bool) : bool :=
  eqb (negb (unlitBasePassIndex_ p =? M_MAX_UNSIGNED)) hasBase
  && eqb (negb (litBasePassIndex_ p =? M_MAX_UNSIGNED)) hasFirstLight
  && eqb (negb (additionalLightPassIndex_ p =? M_MAX_UNSIGNED)) hasAdditionalLight.

(** [IsValid].  The [default] branch of the switch is for values outside
    the enumeration, which [ScenePassType] does not have. *)
Definition IsValid (p : t) : bool :=
  match type_ (desc_ p) with
  | Unlit => CheckSubPasses p true false false
  | ForwardLitBase => CheckSubPasses p false true true || CheckSubPasses p true true true
  | ForwardUnlitBase => CheckSubPasses p true false true
  end.

(** [CreateIntermediateSceneBatch]. *)
Definition CreateIntermediateSceneBatch (p : t) (geometry : Drawable) (sourceBatchIndex : nat)
    (unlitBasePass litBasePass additionalLightPass : option Pass) : IntermediateSceneBatch.t :=
  let type := type_ (desc_ p) in
  if ScenePassType_eqb type Unlit || negb (non_null additionalLightPass)
  then IntermediateSceneBatch.mk (Some geometry) sourceBatchIndex unlitBasePass None
  else if ScenePassType_eqb type ForwardUnlitBase
          && non_null unlitBasePass && non_null additionalLightPass
  then IntermediateSceneBatch.mk (Some geometry) sourceBatchIndex unlitBasePass additionalLightPass
  else if ScenePassType_eqb type ForwardLitBase
          && non_null litBasePass && non_null additionalLightPass
  then IntermediateSceneBatch.mk (Some geometry) sourceBatchIndex litBasePass additionalLightPass
  else IntermediateSceneBatch.empty.

(** [Clear]. *)
Definition Clear (numThreads : nat) (p : t) : t :=
  with_litBatches_ (ThreadedVector.Clear numThreads (litBatches_ p))
    (with_unlitBatches_ (ThreadedVector.Clear numThreads (unlitBatches_ p)) p).

End PassData.

Module LightData.
Record t := mk { litGeometries_ : list Drawable }.
Definition Clear (d : t) : t := mk [].
End LightData.

(* ===================================================================== *)
(** ** The collector *)
(* ===================================================================== *)

(** The light accumulator of a drawable: the lights accumulated so far, by
    index in [visibleLights_], with their penalties. *)
Definition DrawableLightAccumulator := list (nat * float).

(** What the collector reads, during a frame, from the frame info, the work
    queue, the renderer and the camera. *)
Record FrameInfo := {
  frame_numWorkerThreads : nat;
  frame_materialQuality : Z;
  frame_lowMaterialQuality : bool;
  frame_numDrawables : nat;
  frame_camera : Camera;
  frame_defaultMaterial : Material;
}.

(** Modelled from the spec: the lowest material quality, which a camera
    with the low-material-quality override asks for. *)
Definition QUALITY_LOW : Z := 0.

Record SceneBatchCollector := {
  numThreads_ : nat;
  materialQuality_ : Z;
  camera_ : Camera;
  defaultMaterial_ : Material;
  numDrawables_ : nat;
  passes_ : list PassData.t;
  (** The vector a pass name leads to: the index of the pass in [passes_],
      and whether it is its lit list. *)
  baseBatchesLookup_ : gmap Z (nat * bool);
  traits_ : list Z;
  zRange_ : list DrawableZRange;
  sceneZRange_ : ThreadedVector.t (float * float);
  visibleGeometries_ : ThreadedVector.t Drawable;
  visibleLightsTemp_ : ThreadedVector.t Light;
  visibleLights_ : list Light;
  drawableLighting_ : list DrawableLightAccumulator;
  mainLight_ : option Light;
  visibleLightsData_ : list LightData.t;
  sceneBatchesWithoutPipelineStates_ : ThreadedVector.t nat;
  (** The calls made to the pipeline state factory so far. *)
  factoryCalls_ : list FactoryCall;
}.

Definition with_passes_ (v : list PassData.t) (s : SceneBatchCollector) :=
  {| numThreads_ := numThreads_ s; materialQuality_ := materialQuality_ s;
     camera_ := camera_ s; defaultMaterial_ := defaultMaterial_ s;
     numDrawables_ := numDrawables_ s; passes_ := v;
     baseBatchesLookup_ := baseBatchesLookup_ s; traits_ := traits_ s;
     zRange_ := zRange_ s; sceneZRange_ := sceneZRange_ s;
     visibleGeometries_ := visibleGeometries_ s;
     visibleLightsTemp_ := visibleLightsTemp_ s; visibleLights_ := visibleLights_ s;
     drawableLighting_ := drawableLighting_ s; mainLight_ := mainLight_ s;
     visibleLightsData_ := visibleLightsData_ s;
     sceneBatchesWithoutPipelineStates_ := sceneBatchesWithoutPipelineStates_ s;
     factoryCalls_ := factoryCalls_ s |}.

Definition with_baseBatchesLookup_ (v : gmap Z (nat * bool)) (s : SceneBatchCollector) :=
  {| numThreads_ := numThreads_ s; materialQuality_ := materialQuality_ s;
     camera_ := camera_ s; defaultMaterial_ := defaultMaterial_ s;
     numDrawables_ := numDrawables_ s; passes_ := passes_ s;
     baseBatchesLookup_ := v; traits_ := traits_ s;
     zRange_ := zRange_ s; sceneZRange_ := sceneZRange_ s;
     visibleGeometries_ := visibleGeometries_ s;
     visibleLightsTemp_ := visibleLightsTemp_ s; visibleLights_ := visibleLights_ s;
     drawableLighting_ := drawableLighting_ s; mainLight_ := mainLight_ s;
     visibleLightsData_ := visibleLightsData_ s;
     sceneBatchesWithoutPipelineStates_ := sceneBatchesWithoutPipelineStates_ s;
     factoryCalls_ := factoryCalls_ s |}.

Definition with_traits_ (v : list Z) (s : SceneBatchCollector) :=
  {| numThreads_ := numThreads_ s; materialQuality_ := materialQuality_ s;
     camera_ := camera_ s; defaultMaterial_ := defaultMaterial_ s;
     numDrawables_ := numDrawables_ s; passes_ := passes_ s;
     baseBatchesLookup_ := baseBatchesLookup_ s; traits_ := v;
     zRange_ := zRange_ s; sceneZRange_ := sceneZRange_ s;
     visibleGeometries_ := visibleGeometries_ s;
     visibleLightsTemp_ := visibleLightsTemp_ s; visibleLights_ := visibleLights_ s;
     drawableLighting_ := drawableLighting_ s; mainLight_ := mainLight_ s;
     visibleLightsData_ := visibleLightsData_ s;
     sceneBatchesWithoutPipelineStates_ := sceneBatchesWithoutPipelineStates_ s;
     factoryCalls_ := factoryCalls_ s |}.

Definition with_zRange_ (v : list DrawableZRange) (z : ThreadedVector.t (float * float))
    (s : SceneBatchCollector) :=
  {| numThreads_ := numThreads_ s; materialQuality_ := materialQuality_ s;
     camera_ := camera_ s; defaultMaterial_ := defaultMaterial_ s;
     numDrawables_ := numDrawables_ s; passes_ := passes_ s;
     baseBatchesLookup_ := baseBatchesLookup_ s; traits_ := traits_ s;
     zRange_ := v; sceneZRange_ := z;
     visibleGeometries_ := visibleGeometries_ s;
     visibleLightsTemp_ := visibleLightsTemp_ s; visibleLights_ := visibleLights_ s;
     drawableLighting_ := drawableLighting_ s; mainLight_ := mainLight_ s;
     visibleLightsData_ := visibleLightsData_ s;
     sceneBatchesWithoutPipelineStates_ := sceneBatchesWithoutPipelineStates_ s;
     factoryCalls_ := factoryCalls_ s |}.

Definition with_visibleGeometries_ (v : ThreadedVector.t Drawable) (s : SceneBatchCollector) :=
  {| numThreads_ := numThreads_ s; materialQuality_ := materialQuality_ s;
     camera_ := camera_ s; defaultMaterial_ := defaultMaterial_ s;
     numDrawables_ := numDrawables_ s; passes_ := passes_ s;
     baseBatchesLookup_ := baseBatchesLookup_ s; traits_ := traits_ s;
     zRange_ := zRange_ s; sceneZRange_ := sceneZRange_ s;
     visibleGeometries_ := v;
     visibleLightsTemp_ := visibleLightsTemp_ s; visibleLights_ := visibleLights_ s;
     drawableLighting_ := drawableLighting_ s; mainLight_ := mainLight_ s;
     visibleLightsData_ := visibleLightsData_ s;
     sceneBatchesWithoutPipelineStates_ := sceneBatchesWithoutPipelineStates_ s;
     factoryCalls_ := factoryCalls_ s |}.

Definition with_visibleLightsTemp_ (v : ThreadedVector.t Light) (s : SceneBatchCollector) :=
  {| numThreads_ := numThreads_ s; materialQuality_ := materialQuality_ s;
     camera_ := camera_ s; defaultMaterial_ := defaultMaterial_ s;
     numDrawables_ := numDrawables_ s; passes_ := passes_ s;
     baseBatchesLookup_ := baseBatchesLookup_ s; traits_ := traits_ s;
     zRange_ := zRange_ s; sceneZRange_ := sceneZRange_ s;
     visibleGeometries_ := visibleGeometries_ s;
     visibleLightsTemp_ := v; visibleLights_ := visibleLights_ s;
     drawableLighting_ := drawableLighting_ s; mainLight_ := mainLight_ s;
     visibleLightsData_ := visibleLightsData_ s;
     sceneBatchesWithoutPipelineStates_ := sceneBatchesWithoutPipelineStates_ s;
     factoryCalls_ := factoryCalls_ s |}.

Definition with_visibleLights_ (v : list Light) (s : SceneBatchCollector) :=
  {| numThreads_ := numThreads_ s; materialQuality_ := materialQuality_ s;
     camera_ := camera_ s; defaultMaterial_ := defaultMaterial_ s;
     numDrawables_ := numDrawables_ s; passes_ := passes_ s;
     baseBatchesLookup_ := baseBatchesLookup_ s; traits_ := traits_ s;
     zRange_ := zRange_ s; sceneZRange_ := sceneZRange_ s;
     visibleGeometries_ := visibleGeometries_ s;
     visibleLightsTemp_ := visibleLightsTemp_ s; visibleLights_ := v;
     drawableLighting_ := drawableLighting_ s; mainLight_ := mainLight_ s;
     visibleLightsData_ := visibleLightsData_ s;
     sceneBatchesWithoutPipelineStates_ := sceneBatchesWithoutPipelineStates_ s;
     factoryCalls_ := factoryCalls_ s |}.

Definition with_drawableLighting_ (v : list DrawableLightAccumulator) (s : SceneBatchCollector) :=
  {| numThreads_ := numThreads_ s; materialQuality_ := materialQuality_ s;
     camera_ := camera_ s; defaultMaterial_ := defaultMaterial_ s;
     numDrawables_ := numDrawables_ s; passes_ := passes_ s;
     baseBatchesLookup_ := baseBatchesLookup_ s; traits_ := traits_ s;
     zRange_ := zRange_ s; sceneZRange_ := sceneZRange_ s;
     visibleGeometries_ := visibleGeometries_ s;
     visibleLightsTemp_ := visibleLightsTemp_ s; visibleLights_ := visibleLights_ s;
     drawableLighting_ := v; mainLight_ := mainLight_ s;
     visibleLightsData_ := visibleLightsData_ s;
     sceneBatchesWithoutPipelineStates_ := sceneBatchesWithoutPipelineStates_ s;
     factoryCalls_ := factoryCalls_ s |}.

Definition with_lights_ (m : option Light) (v : list LightData.t) (s : SceneBatchCollector) :=
  {| numThreads_ := numThreads_ s; materialQuality_ := materialQuality_ s;
     camera_ := camera_ s; defaultMaterial_ := defaultMaterial_ s;
     numDrawables_ := numDrawables_ s; passes_ := passes_ s;
     baseBatchesLookup_ := baseBatchesLookup_ s; traits_ := traits_ s;
     zRange_ := zRange_ s; sceneZRange_ := sceneZRange_ s;
     visibleGeometries_ := visibleGeometries_ s;
     visibleLightsTemp_ := visibleLightsTemp_ s; visibleLights_ := visibleLights_ s;
     drawableLighting_ := drawableLighting_ s; mainLight_ := m;
     visibleLightsData_ := v;
     sceneBatchesWithoutPipelineStates_ := sceneBatchesWithoutPipelineStates_ s;
     factoryCalls_ := factoryCalls_ s |}.

Definition with_pipeline_work_ (q : ThreadedVector.t nat) (c : list FactoryCall)
    (s : SceneBatchCollector) :=
  {| numThreads_ := numThreads_ s; materialQuality_ := materialQuality_ s;
     camera_ := camera_ s; defaultMaterial_ := defaultMaterial_ s;
     numDrawables_ := numDrawables_ s; passes_ := passes_ s;
     baseBatchesLookup_ := baseBatchesLookup_ s; traits_ := traits_ s;
     zRange_ := zRange_ s; sceneZRange_ := sceneZRange_ s;
     visibleGeometries_ := visibleGeometries_ s;
     visibleLightsTemp_ := visibleLightsTemp_ s; visibleLights_ := visibleLights_ s;
     drawableLighting_ := drawableLighting_ s; mainLight_ := mainLight_ s;
     visibleLightsData_ := visibleLightsData_ s;
     sceneBatchesWithoutPipelineStates_ := q;
     factoryCalls_ := c |}.

(* ===================================================================== *)
(** ** The statements of the specification *)
(* ===================================================================== *)

Module Spec.

(** Whether a sub-pass slot is present. *)
Definition present (passIndex : Z) : bool := negb (passIndex =? M_MAX_UNSIGNED).

(** The validity rule in the words of the specification: an Unlit pass has
    only the base sub-pass; a ForwardUnlitBase pass has base and
    additional-light but not lit-base; a ForwardLitBase pass has
    additional-light, and either lit-base only or both base and lit-base. *)
Definition pass_valid (type : ScenePassType) (hasBase hasLitBase hasAdditionalLight : bool)
  : bool :=
  match type with
  | Unlit => hasBase && negb hasLitBase && negb hasAdditionalLight
  | ForwardUnlitBase => hasBase && hasAdditionalLight && negb hasLitBase
  | ForwardLitBase =>
      hasAdditionalLight
      && ((hasLitBase && negb hasBase) || (hasBase && hasLitBase))
  end.

(** A technique entry that the scan accepts, in the words of the
    specification: present, supported, its quality level does not exceed
    the material quality, its LOD distance is at or below that of the
    drawable. *)
Definition qualifies (materialQuality : Z) (lodDistance : float) (entry : TechniqueEntry)
  : bool :=
  match technique_ entry with
  | None => false
  | Some tech =>
      IsSupported tech
      && (qualityLevel_ entry <=? materialQuality)
      && Float.le (lodDistance_ entry) lodDistance
  end.

(** Technique resolution in the words of the specification: the sole
    technique; otherwise the first entry that qualifies; otherwise the last
    entry. *)
Definition resolve_technique (materialQuality : Z) (lodDistance : float)
    (techniques : list TechniqueEntry) : option Technique :=
  match techniques with
  | [entry] => technique_ entry
  | _ =>
      match List.find (qualifies materialQuality lodDistance) techniques with
      | Some entry => technique_ entry
      | None =>
          match last techniques with
          | Some entry => technique_ entry
          | None => None
          end
      end
  end.

(** Whether a light is directional. *)
Definition directional (light : Light) : bool :=
  match GetLightType light with LIGHT_DIRECTIONAL => true | _ => false end.

(** A directional light of a score above [m] that no directional light of
    [lights] exceeds. *)
Definition candidate_above (m : float) (lights : list Light) (light : Light) : bool :=
  directional light
  && Float.gt (GetIntensityDivisor light) m
  && forallb (fun other =>
                negb (directional other
                      && Float.gt (GetIntensityDivisor other) (GetIntensityDivisor light)))
       lights.

(** A candidate for the main light among [lights]: a directional light with
    a score above zero that no directional light of [lights] exceeds. *)
Definition top_light (lights : list Light) (light : Light) : bool :=
  candidate_above Float.zero lights light.

(** Main light selection in the words of the specification, with the score
    above zero that the code asks for: the first candidate in the order of
    the visible lights. *)
Definition main_light (lights : list Light) : option Light :=
  List.find (top_light lights) lights.

(** Whether a drawable has the visible geometry trait in [traits]. *)
Definition visible_geometry (traits : list Z) (drawable : Drawable) : bool :=
  match traits !! GetDrawableIndex drawable with
  | Some t => truthy (Z.land t TransientDrawableIndex.DrawableVisibleGeometry)
  | None => false
  end.

(** What a containment query keeps of a range of drawables, in the words of
    the specification: the drawables with the visible geometry trait whose
    light mask meets the mask of the query and that the volume contains
    (their octant is inside it, or their bounding box is). *)
Definition lit_by_volume (contains : Drawable -> bool) (traits : list Z) (lightMask : Z)
    (inside : bool) (drawable : Drawable) : bool :=
  visible_geometry traits drawable
  && truthy (Z.land (GetLightMask drawable) lightMask)
  && (inside || contains drawable).

(** The drawables that a containment query keeps of the ranges it is shown. *)
Definition volume_query (contains : Drawable -> bool) (traits : list Z) (lightMask : Z)
    (visits : list (list Drawable * bool)) : list Drawable :=
  flat_map (fun visit => List.filter (lit_by_volume contains traits lightMask (snd visit))
                           (fst visit))
    visits.

(** The indices of the drawables that a query is shown are inside the trait
    table. *)
Definition visits_in_range (traits : list Z) (visits : list (list Drawable * bool)) : Prop :=
  forall range inside drawable,
    In (range, inside) visits -> In drawable range ->
    (GetDrawableIndex drawable < length traits)%nat.

(** Whether the slot [i] of [traits] has the visible geometry trait. *)
Definition visible_bit (traits : list Z) (i : nat) : bool :=
  match traits !! i with
  | Some t => truthy (Z.land t TransientDrawableIndex.DrawableVisibleGeometry)
  | None => false
  end.

(** The list of visible geometries and the visible geometry trait say the
    same: every drawable of the list has the trait, and every slot with the
    trait is that of a drawable of the list. *)
Definition visible_in_sync (traits : list Z) (visible : list Drawable) : Prop :=
  (forall drawable, In drawable visible -> visible_geometry traits drawable = true)
  /\ (forall i, visible_bit traits i = true ->
        exists drawable, In drawable visible /\ GetDrawableIndex drawable = i).

(** Whether the three hashes that an entry holds are the live hashes of the
    geometry, material and pass of a key. *)
Definition hashes_match (live : LiveHashes) (key : SubPassPipelineStateKey.t)
    (entry : SubPassPipelineStateEntry.t) : Prop :=
  geometry_hash live <$> SubPassPipelineStateKey.geometry_ key
    = Some (SubPassPipelineStateEntry.geometryHash_ entry)
  /\ material_hash live <$> SubPassPipelineStateKey.material_ key
    = Some (SubPassPipelineStateEntry.materialHash_ entry)
  /\ pass_hash live <$> SubPassPipelineStateKey.pass_ key
    = Some (SubPassPipelineStateEntry.passHash_ entry).

(** The call of the factory that [GetOrCreatePipelineState] makes for a
    key: the camera of the context, the drawable and the pointers of the
    key. *)
Definition factory_call (factoryContext : SubPassPipelineStateContext.t)
    (drawable : option Drawable) (key : SubPassPipelineStateKey.t) : FactoryCall :=
  {| call_camera := SubPassPipelineStateContext.camera_ factoryContext;
     call_drawable := drawable;
     call_geometry := SubPassPipelineStateKey.geometry_ key;
     call_material := SubPassPipelineStateKey.material_ key;
     call_pass := SubPassPipelineStateKey.pass_ key |}.


(** Whether a pass description is valid, for the pass indices that
    [getPassIndex] gives to its three names. *)
Definition description_valid (getPassIndex : string -> Z) (desc : ScenePassDescription)
  : bool :=
  pass_valid (type_ desc)
    (present (getPassIndex (unlitBasePassName_ desc)))
    (present (getPassIndex (litBasePassName_ desc)))
    (present (getPassIndex (additionalLightPassName_ desc))).

(** Whether a pass has [passIndex] as the index of its unlit base sub-pass,
    or of its lit base sub-pass. *)
Definition names_base_pass (passIndex : Z) (lit : bool) (passData : PassData.t) : Prop :=
  passIndex <> M_MAX_UNSIGNED
  /\ (if lit then PassData.litBasePassIndex_ passData
      else PassData.unlitBasePassIndex_ passData) = passIndex.


(** The tables of a collector have the sizes that [InitializeFrame] and
    [InitializePasses] give them: one slot for each drawable and one bucket
    for each thread, in the lists of every pass too. *)
Definition frame_sized (s : SceneBatchCollector) : Prop :=
  length (traits_ s) = numDrawables_ s
  /\ length (zRange_ s) = numDrawables_ s
  /\ length (drawableLighting_ s) = numDrawables_ s
  /\ length (sceneZRange_ s) = numThreads_ s
  /\ length (visibleGeometries_ s) = numThreads_ s
  /\ length (visibleLightsTemp_ s) = numThreads_ s
  /\ Forall (fun passData =>
               length (PassData.unlitBatches_ passData) = numThreads_ s
               /\ length (PassData.litBatches_ passData) = numThreads_ s)
       (passes_ s).


(** The distance test of the collection: the drawable declares a draw
    distance above zero and is further from the camera than it. *)
Definition too_far (drawable : Drawable) : bool :=
  Float.gt (GetDrawDistance drawable) Float.zero
  && Float.gt (GetDistance drawable) (GetDrawDistance drawable).

Definition is_geometry (drawable : Drawable) : bool :=
  truthy (Z.land (GetDrawableFlags drawable) DRAWABLE_GEOMETRY).

Definition is_light (drawable : Drawable) : bool :=
  truthy (Z.land (GetDrawableFlags drawable) DRAWABLE_LIGHT).

(** An intermediate batch of a source batch of [drawable] as the unlit list
    of a pass holds it, and as the lit list does. *)
Definition unlit_batch (drawable : Drawable) (batch : IntermediateSceneBatch.t) : Prop :=
  IntermediateSceneBatch.geometry_ batch = Some drawable
  /\ (IntermediateSceneBatch.sourceBatchIndex_ batch < length (GetBatches drawable))%nat
  /\ non_null (IntermediateSceneBatch.basePass_ batch) = true
  /\ IntermediateSceneBatch.additionalPass_ batch = None.

Definition lit_batch (drawable : Drawable) (batch : IntermediateSceneBatch.t) : Prop :=
  IntermediateSceneBatch.geometry_ batch = Some drawable
  /\ (IntermediateSceneBatch.sourceBatchIndex_ batch < length (GetBatches drawable))%nat
  /\ non_null (IntermediateSceneBatch.basePass_ batch) = true
  /\ non_null (IntermediateSceneBatch.additionalPass_ batch) = true.

(** What the collection of source batches does to a pass, for the
    drawables [collected]: it keeps the description, the indices, the scene
    batches and the caches; it removes no intermediate batch; a batch that
    it adds to the unlit list is an unlit batch of a collected drawable, and
    one that it adds to the lit list is a lit batch of a collected drawable
    in a pass that is not Unlit. *)
Definition pass_collected (collected : Drawable -> Prop) (before after : PassData.t) : Prop :=
  PassData.desc_ after = PassData.desc_ before
  /\ PassData.unlitBasePassIndex_ after = PassData.unlitBasePassIndex_ before
  /\ PassData.litBasePassIndex_ after = PassData.litBasePassIndex_ before
  /\ PassData.additionalLightPassIndex_ after = PassData.additionalLightPassIndex_ before
  /\ PassData.unlitBaseSceneBatches_ after = PassData.unlitBaseSceneBatches_ before
  /\ PassData.litBaseSceneBatches_ after = PassData.litBaseSceneBatches_ before
  /\ PassData.unlitPipelineStateCache_ after = PassData.unlitPipelineStateCache_ before
  /\ PassData.litPipelineStateCache_ after = PassData.litPipelineStateCache_ before
  /\ (forall batch,
        In batch (ThreadedVector.elements (PassData.unlitBatches_ before)) ->
        In batch (ThreadedVector.elements (PassData.unlitBatches_ after)))
  /\ (forall batch,
        In batch (ThreadedVector.elements (PassData.litBatches_ before)) ->
        In batch (ThreadedVector.elements (PassData.litBatches_ after)))
  /\ (forall batch,
        In batch (ThreadedVector.elements (PassData.unlitBatches_ after)) ->
        In batch (ThreadedVector.elements (PassData.unlitBatches_ before))
        \/ exists drawable, collected drawable /\ unlit_batch drawable batch)
  /\ (forall batch,
        In batch (ThreadedVector.elements (PassData.litBatches_ after)) ->
        In batch (ThreadedVector.elements (PassData.litBatches_ before))
        \/ (type_ (PassData.desc_ before) <> Unlit
            /\ exists drawable, collected drawable /\ lit_batch drawable batch)).


(** What the collection of source batches does not write. *)
Definition collector_kept (s s' : SceneBatchCollector) : Prop :=
  numThreads_ s' = numThreads_ s
  /\ materialQuality_ s' = materialQuality_ s
  /\ camera_ s' = camera_ s
  /\ defaultMaterial_ s' = defaultMaterial_ s
  /\ numDrawables_ s' = numDrawables_ s
  /\ baseBatchesLookup_ s' = baseBatchesLookup_ s
  /\ visibleLights_ s' = visibleLights_ s
  /\ mainLight_ s' = mainLight_ s
  /\ visibleLightsData_ s' = visibleLightsData_ s
  /\ sceneBatchesWithoutPipelineStates_ s' = sceneBatchesWithoutPipelineStates_ s
  /\ factoryCalls_ s' = factoryCalls_ s.

(** The drawables of a range that the collection can take as geometries:
    after their update they are flagged as geometry and pass the distance
    test. *)
Definition collected_geometry (updateBatches : Drawable -> Drawable)
    (range : list Drawable) (drawable : Drawable) : Prop :=
  exists given,
    In given range /\ drawable = updateBatches given
    /\ is_geometry drawable = true /\ too_far drawable = false.

(** The drawables of a range that the collection can take as lights: after
    their update they pass the distance test, are flagged as light and not
    as geometry, and have a colour that is not black and an effective light
    mask that is not zero. *)
Definition collected_light (updateBatches : Drawable -> Drawable)
    (range : list Drawable) (light : Light) : Prop :=
  exists given,
    In given range /\ light = updateBatches given
    /\ too_far light = false /\ is_geometry light = false /\ is_light light = true
    /\ EffectiveColorIsBlack light = false /\ GetLightMaskEffective light <> 0.

(** How the trait table changes when the slots [written] are written: its
    length is kept, the other slots are as before, and no bit of a slot is
    cleared. *)
Definition traits_grown (written : nat -> Prop) (traits traits' : list Z) : Prop :=
  length traits' = length traits
  /\ (forall i, ~ written i -> traits' !! i = traits !! i)
  /\ (forall i t, traits !! i = Some t ->
        exists t', traits' !! i = Some t' /\ Z.land t' t = t).


(** The scene batch that the assembly makes of an intermediate batch, apart
    from its pipeline state: the drawable and its index, the source batch
    index, the geometry of the source batch, its material or the default
    material, and the base pass. *)
Definition scene_batch_of (defaultMaterial : Material)
    (intermediateBatch : IntermediateSceneBatch.t) (sceneBatch : SceneBatch.t) : Prop :=
  exists drawable sourceBatch,
    IntermediateSceneBatch.geometry_ intermediateBatch = Some drawable
    /\ GetBatches drawable !! IntermediateSceneBatch.sourceBatchIndex_ intermediateBatch
       = Some sourceBatch
    /\ SceneBatch.drawable_ sceneBatch = Some drawable
    /\ SceneBatch.drawableIndex_ sceneBatch = GetDrawableIndex drawable
    /\ SceneBatch.sourceBatchIndex_ sceneBatch
       = IntermediateSceneBatch.sourceBatchIndex_ intermediateBatch
    /\ SceneBatch.geometry_ sceneBatch = SourceBatch.geometry_ sourceBatch
    /\ SceneBatch.material_ sceneBatch
       = Some (default defaultMaterial (SourceBatch.material_ sourceBatch))
    /\ SceneBatch.pass_ sceneBatch = IntermediateSceneBatch.basePass_ intermediateBatch.

(** Two scene batches that differ in their pipeline state at most. *)
Definition same_but_state (a b : SceneBatch.t) : Prop :=
  exists state, b = SceneBatch.with_pipelineState_ state a.

(** An intermediate batch that the assembly can make a scene batch of: its
    geometry is not null, its source batch index is inside the batches of
    the geometry, and neither the geometry of that source batch nor the
    base pass is null. *)
Definition batch_ready (intermediateBatch : IntermediateSceneBatch.t) : Prop :=
  exists drawable sourceBatch,
    IntermediateSceneBatch.geometry_ intermediateBatch = Some drawable
    /\ GetBatches drawable !! IntermediateSceneBatch.sourceBatchIndex_ intermediateBatch
       = Some sourceBatch
    /\ non_null (SourceBatch.geometry_ sourceBatch) = true
    /\ non_null (IntermediateSceneBatch.basePass_ intermediateBatch) = true.

(** A scene batch whose pointers can all be dereferenced. *)
Definition scene_batch_complete (sceneBatch : SceneBatch.t) : Prop :=
  non_null (SceneBatch.drawable_ sceneBatch) = true
  /\ non_null (SceneBatch.geometry_ sceneBatch) = true
  /\ non_null (SceneBatch.material_ sceneBatch) = true
  /\ non_null (SceneBatch.pass_ sceneBatch) = true.


(** What the assembly does to a pass: it keeps the description, the three
    indices and both lists of intermediate batches, and leaves in each list
    of scene batches one scene batch for each intermediate batch of the
    list beside it, in their order. *)
Definition pass_assembled (defaultMaterial : Material) (before after : PassData.t) : Prop :=
  PassData.desc_ after = PassData.desc_ before
  /\ PassData.unlitBasePassIndex_ after = PassData.unlitBasePassIndex_ before
  /\ PassData.litBasePassIndex_ after = PassData.litBasePassIndex_ before
  /\ PassData.additionalLightPassIndex_ after = PassData.additionalLightPassIndex_ before
  /\ PassData.unlitBatches_ after = PassData.unlitBatches_ before
  /\ PassData.litBatches_ after = PassData.litBatches_ before
  /\ Forall2 (scene_batch_of defaultMaterial)
       (ThreadedVector.elements (PassData.unlitBatches_ before))
       (PassData.unlitBaseSceneBatches_ after)
  /\ Forall2 (scene_batch_of defaultMaterial)
       (ThreadedVector.elements (PassData.litBatches_ before))
       (PassData.litBaseSceneBatches_ after).

(** The number of intermediate batches of a list of passes, both lists of
    every pass counted. *)
Definition intermediate_batches (passes : list PassData.t) : nat :=
  list_sum (map (fun passData =>
                   (ThreadedVector.Size (PassData.unlitBatches_ passData)
                    + ThreadedVector.Size (PassData.litBatches_ passData))%nat)
              passes).

(** The mask that [CollectLitGeometries] tests the light masks of the
    drawables against: the light mask of a directional light, the effective
    light mask of a spot or point light. *)
Definition lit_mask (light : Light) : Z :=
  match GetLightType light with
  | LIGHT_DIRECTIONAL => GetLightMask light
  | _ => GetLightMaskEffective light
  end.


End Spec.

(* ===================================================================== *)
(** ** Concrete scenes *)
(* ===================================================================== *)

Module Scene.

(** Pass indices as [Technique::GetPassIndex] gives them for the built-in
    names; an empty name is no pass. *)
Definition passIndex (name : string) : Z :=
  if String.eqb name "" then M_MAX_UNSIGNED
  else if String.eqb name "base" then 0
  else if String.eqb name "light" then 4
  else if String.eqb name "litbase" then 5
  else 8.

(** A technique with a base pass only, and a material of that technique. *)
Definition baseTechnique : Technique :=
  {| IsSupported := true; technique_passes := {[ 0 := 100%N ]} |}.

Definition baseMaterial : Material :=
  {| material_address := 7%N;
     GetTechniques :=
       [ {| technique_ := Some baseTechnique; qualityLevel_ := 0;
            lodDistance_ := Float.zero |} ] |}.

(** A material whose only entry has no technique. *)
Definition vacantMaterial : Material :=
  {| material_address := 8%N;
     GetTechniques :=
       [ {| technique_ := None; qualityLevel_ := 0; lodDistance_ := Float.zero |} ] |}.

(** A geometry with one source batch of [baseMaterial], at the given index,
    draw distance and distance from the camera. *)
Definition geometry (index : nat) (drawDistance distance : Z) : Drawable :=
  {| GetDrawableIndex := index;
     GetDrawableFlags := DRAWABLE_GEOMETRY;
     GetDrawDistance := Float.of_Z drawDistance;
     GetDistance := Float.of_Z distance;
     GetLodDistance := Float.zero;
     GetLightMask := 255;
     GetBatches := [ SourceBatch.mk (Some 11%N) (Some baseMaterial) ];
     GetPipelineStateHash := 5;
     GetLightType := LIGHT_DIRECTIONAL;
     EffectiveColorIsBlack := true;
     GetLightMaskEffective := 0;
     GetIntensityDivisor := Float.zero |}.

(** A light of the given type and score, at the given index. *)
Definition light (index : nat) (type : LightType) (score : Z) : Light :=
  {| GetDrawableIndex := index;
     GetDrawableFlags := DRAWABLE_LIGHT;
     GetDrawDistance := Float.zero;
     GetDistance := Float.zero;
     GetLodDistance := Float.zero;
     GetLightMask := 255;
     GetBatches := [];
     GetPipelineStateHash := 0;
     GetLightType := type;
     EffectiveColorIsBlack := false;
     GetLightMaskEffective := 255;
     GetIntensityDivisor := Float.of_Z score |}.

(** A frame of two drawables on a work queue without worker threads. *)
Definition frame : FrameInfo :=
  {| frame_numWorkerThreads := 0;
     frame_materialQuality := 2;
     frame_lowMaterialQuality := false;
     frame_numDrawables := 2;
     frame_camera := 1%N;
     frame_defaultMaterial := baseMaterial |}.

(** The collector as constructed. *)
Definition constructed : SceneBatchCollector :=
  {| numThreads_ := 0; materialQuality_ := 0; camera_ := 0%N;
     defaultMaterial_ := baseMaterial; numDrawables_ := 0;
     passes_ := []; baseBatchesLookup_ := ∅; traits_ := []; zRange_ := [];
     sceneZRange_ := []; visibleGeometries_ := []; visibleLightsTemp_ := [];
     visibleLights_ := []; drawableLighting_ := []; mainLight_ := None;
     visibleLightsData_ := []; sceneBatchesWithoutPipelineStates_ := [];
     factoryCalls_ := [] |}.

(** A valid Unlit pass, and an Unlit pass that names an additional-light
    sub-pass, which the validity rule rejects. *)
Definition unlitPass : ScenePassDescription :=
  {| type_ := Unlit; unlitBasePassName_ := "base";
     litBasePassName_ := ""; additionalLightPassName_ := "" |}.

Definition invalidPass : ScenePassDescription :=
  {| type_ := Unlit; unlitBasePassName_ := "base";
     litBasePassName_ := ""; additionalLightPassName_ := "light" |}.

(** A factory that returns a new state at every call. *)
Definition freshFactory : ScenePipelineStateFactory :=
  fun calls _ => Some (1000 + N.of_nat (length calls))%N.

(** Live hashes: the geometry hash is [g], the others are 0. *)
Definition hashes (g : Z) : LiveHashes :=
  {| geometry_hash := fun _ => g; material_hash := fun _ => 0; pass_hash := fun _ => 0 |}.

(** Every drawable has the same range of depth. *)
Definition zRange (drawable : Drawable) : DrawableZRange :=
  Some (Float.of_Z 1, Float.of_Z 2).

(** A drawable beyond its draw distance, and one without a draw distance. *)
Definition farGeometry : Drawable := geometry 0 10 50.
Definition nearGeometry : Drawable := geometry 1 0 5.

(** The key of the scene batch of [nearGeometry] in a base pass. *)
Definition nearKey : SubPassPipelineStateKey.t :=
  SubPassPipelineStateKey.mk 5 (Some 11%N) (Some 7%N) (Some 100%N).

(** A cache that holds a state for [nearKey], created when the geometry
    hash was 3. *)
Definition nearCache : gmap SubPassPipelineStateKey.t SubPassPipelineStateEntry.t :=
  {[ nearKey := SubPassPipelineStateEntry.mk 3 0 0 (Some 1000%N) false ]}.

(** Visible lights: a point light, then three directional lights of which
    the last two share the greatest score; and the same lights with the
    point light moved. *)
Definition sun (index : nat) (score : Z) : Light := light index LIGHT_DIRECTIONAL score.

Definition lights : list Light :=
  [light 0 LIGHT_POINT 9; sun 1 3; sun 2 7; sun 3 7].

Definition lightsReordered : list Light :=
  [sun 1 3; sun 2 7; light 0 LIGHT_POINT 9; sun 3 7].

(** Visible lights without a directional light of a score above zero. *)
Definition dimLights : list Light :=
  [sun 0 0; light 1 LIGHT_POINT 5; sun 2 (-3)].

(** A collector after the collection of two visible geometries, of which
    the first has a light mask that meets no light; a third drawable was
    updated and is not visible. *)
Definition maskedGeometry : Drawable :=
  {| GetDrawableIndex := 0; GetDrawableFlags := DRAWABLE_GEOMETRY;
     GetDrawDistance := Float.zero; GetDistance := Float.of_Z 5;
     GetLodDistance := Float.zero; GetLightMask := 256;
     GetBatches := []; GetPipelineStateHash := 5;
     GetLightType := LIGHT_DIRECTIONAL; EffectiveColorIsBlack := true;
     GetLightMaskEffective := 0; GetIntensityDivisor := Float.zero |}.

Definition hiddenGeometry : Drawable := geometry 2 0 5.

Definition collected : SceneBatchCollector :=
  {| numThreads_ := 1; materialQuality_ := 2; camera_ := 1%N;
     defaultMaterial_ := baseMaterial; numDrawables_ := 3;
     passes_ := []; baseBatchesLookup_ := ∅; traits_ := [3; 3; 1];
     zRange_ := [None; None; None];
     sceneZRange_ := [[]]; visibleGeometries_ := [[maskedGeometry; nearGeometry]];
     visibleLightsTemp_ := [[]];
     visibleLights_ := []; drawableLighting_ := [[]; []; []]; mainLight_ := None;
     visibleLightsData_ := []; sceneBatchesWithoutPipelineStates_ := [];
     factoryCalls_ := [] |}.

(** An octree that shows every query the three drawables, in an octant that
    is not inside the volume; and a volume that contains the drawables of
    index 1 and 2. *)
Definition octree (light : Light) : list (list Drawable * bool) :=
  [([maskedGeometry; nearGeometry; hiddenGeometry], false)].

Definition contains (light : Light) (drawable : Drawable) : bool :=
  (1 <=? GetDrawableIndex drawable)%nat.

(** The entry of [nearCache], the same cache with the entry flagged, and a
    context of the factory without light. *)
Definition nearEntry : SubPassPipelineStateEntry.t :=
  SubPassPipelineStateEntry.mk 3 0 0 (Some 1000%N) false.

Definition flaggedCache : gmap SubPassPipelineStateKey.t SubPassPipelineStateEntry.t :=
  {[ nearKey := SubPassPipelineStateEntry.mk 3 0 0 (Some 1000%N) true ]}.

Definition unlitContext : SubPassPipelineStateContext.t :=
  SubPassPipelineStateContext.mk 1%N None.

(** A collector in the middle of a frame of two drawables: one Unlit pass
    with its lists cleared for one thread, which holds the cache
    [nearCache] from an earlier frame. *)
Definition cachedPass : PassData.t :=
  PassData.mk unlitPass 0 M_MAX_UNSIGNED M_MAX_UNSIGNED [[]] [[]] [] [] nearCache ∅.

Definition cached : SceneBatchCollector :=
  {| numThreads_ := 1; materialQuality_ := 2; camera_ := 1%N;
     defaultMaterial_ := baseMaterial; numDrawables_ := 2;
     passes_ := [cachedPass]; baseBatchesLookup_ := {[ 0 := (0%nat, false) ]};
     traits_ := [0; 0]; zRange_ := [None; None];
     sceneZRange_ := [[]]; visibleGeometries_ := [[]]; visibleLightsTemp_ := [[]];
     visibleLights_ := []; drawableLighting_ := [[]; []]; mainLight_ := None;
     visibleLightsData_ := []; sceneBatchesWithoutPipelineStates_ := [];
     factoryCalls_ := [] |}.

(** The intermediate batch of [nearGeometry] in the base pass, and the
    collector [cached] with that batch in the unlit list of its pass. *)
Definition nearBatch : IntermediateSceneBatch.t :=
  IntermediateSceneBatch.mk (Some nearGeometry) 0 (Some 100%N) None.

Definition batched : SceneBatchCollector :=
  with_passes_ [PassData.with_unlitBatches_ [[nearBatch]] cachedPass] cached.

(** A frame of three drawables, for the drawables that [octree] shows. *)
Definition wideFrame : FrameInfo :=
  {| frame_numWorkerThreads := 0;
     frame_materialQuality := 2;
     frame_lowMaterialQuality := false;
     frame_numDrawables := 3;
     frame_camera := 1%N;
     frame_defaultMaterial := baseMaterial |}.


End Scene.

Section Collector.

(** What the file calls and does not define. *)

(** [Technique::GetPassIndex]: the index of a pass name. *)
Variable GetPassIndex : string -> Z.
(** Whether the build drops [assert]. *)
Variable NDEBUG : bool.
(** [Drawable::UpdateBatches] for the frame: the drawable after it. *)
Variable UpdateBatches : Drawable -> Drawable.
(** [DrawableZRangeEvaluator::Evaluate] for the frame's camera. *)
Variable Evaluate : Drawable -> DrawableZRange.
(** [*pipelineStateFactory_]. *)
Variable pipelineStateFactory_ : ScenePipelineStateFactory.
(** [Octree::GetDrawables] for the sphere query and for the frustum query of
    a light: the calls of [TestDrawables] it makes, each with a range of
    drawables and the [inside] flag of their octant. *)
Variable SphereOctreeQuery_GetDrawables : Light -> list (list Drawable * bool).
Variable FrustumOctreeQuery_GetDrawables : Light -> list (list Drawable * bool).
(** [sphere_.IsInsideFast] and [frustum_.IsInsideFast] on the world bounding
    box of a drawable, for the sphere and the frustum of a light. *)
Variable Sphere_IsInsideFast : Light -> Drawable -> bool.
Variable Frustum_IsInsideFast : Light -> Drawable -> bool.

(** *** Queries for lit geometries *)

(** The body of both [TestDrawables]: the drawables of the range that have
    the visible geometry trait, whose light mask meets [lightMask_] and that
    are inside the volume are appended to [result_]. *)
Fixpoint TestDrawables_range (isInsideFast : Drawable -> bool) (traits : list Z)
    (lightMask_ : Z) (range : list Drawable) (inside : bool) (result_ : list Drawable)
  : Outcome (list Drawable) :=
  match range with
  | [] => Ok result_
  | drawable :: rest =>
      let drawableIndex := GetDrawableIndex drawable in
      do traits_d <- at_index traits drawableIndex;
      let result_ :=
        if truthy (Z.land traits_d TransientDrawableIndex.DrawableVisibleGeometry)
        then if truthy (Z.land (GetLightMask drawable) lightMask_)
             then if inside || isInsideFast drawable
                  then result_ ++ [drawable]
                  else result_
             else result_
        else result_ in
      TestDrawables_range isInsideFast traits lightMask_ rest inside result_
  end.

Definition PointLightLitGeometriesQuery_TestDrawables (traits : list Z) (light : Light)
    (range : list Drawable) (inside : bool) (result_ : list Drawable) :=
  TestDrawables_range (Sphere_IsInsideFast light) traits
    (GetLightMaskEffective light) range inside result_.

Definition SpotLightLitGeometriesQuery_TestDrawables (traits : list Z) (light : Light)
    (range : list Drawable) (inside : bool) (result_ : list Drawable) :=
  TestDrawables_range (Frustum_IsInsideFast light) traits
    (GetLightMaskEffective light) range inside result_.

(** [octree_->GetDrawables(query)]: the octree calls [TestDrawables] of the
    query on one range after the other. *)
Fixpoint Octree_GetDrawables
    (testDrawables : list Drawable -> bool -> list Drawable -> Outcome (list Drawable))
    (visits : list (list Drawable * bool)) (result_ : list Drawable)
  : Outcome (list Drawable) :=
  match visits with
  | [] => Ok result_
  | (range, inside) :: rest =>
      do result_ <- testDrawables range inside result_;
      Octree_GetDrawables testDrawables rest result_
  end.

(** *** FindTechnique *)

(** The loop of [FindTechnique]: the technique it returns, or [None] when
    it runs to its end. *)
Fixpoint FindTechnique_loop (materialQuality : Z) (lodDistance : float)
    (techniques : list TechniqueEntry) : option Technique :=
  match techniques with
  | [] => None
  | entry :: rest =>
      match technique_ entry with
      | None => FindTechnique_loop materialQuality lodDistance rest
      | Some tech =>
          if negb (IsSupported tech) || (materialQuality <? qualityLevel_ entry)
          then FindTechnique_loop materialQuality lodDistance rest
          else if Float.ge lodDistance (lodDistance_ entry)
          then Some tech
          else FindTechnique_loop materialQuality lodDistance rest
      end
  end.

Definition FindTechnique (materialQuality : Z) (drawable : Drawable) (material : Material)
  : option Technique :=
  let techniques := GetTechniques material in
  match techniques with
  | [entry] => technique_ entry
  | _ =>
      let lodDistance := GetLodDistance drawable in
      match FindTechnique_loop materialQuality lodDistance techniques with
      | Some tech => Some tech
      | None =>
          match last techniques with
          | Some entry => technique_ entry
          | None => None
          end
      end
  end.

(** *** InitializeFrame *)

(** [transient_.Reset] leaves every slot without trait and with an invalid
    range. *)

Definition InitializeFrame (frameInfo : FrameInfo) (s : SceneBatchCollector)
  : SceneBatchCollector :=
  let numThreads := (frame_numWorkerThreads frameInfo + 1)%nat in
  let numDrawables := frame_numDrawables frameInfo in
  {| numThreads_ := numThreads;
     materialQuality_ :=
       if frame_lowMaterialQuality frameInfo then QUALITY_LOW
       else frame_materialQuality frameInfo;
     camera_ := frame_camera frameInfo;
     defaultMaterial_ := frame_defaultMaterial frameInfo;
     numDrawables_ := numDrawables;
     passes_ := passes_ s;
     baseBatchesLookup_ := baseBatchesLookup_ s;
     traits_ := replicate numDrawables 0;
     zRange_ := replicate numDrawables None;
     sceneZRange_ := ThreadedVector.Clear numThreads (sceneZRange_ s);
     visibleGeometries_ := ThreadedVector.Clear numThreads (visibleGeometries_ s);
     visibleLightsTemp_ := ThreadedVector.Clear numThreads (visibleLightsTemp_ s);
     visibleLights_ := visibleLights_ s;
     drawableLighting_ := vector_resize numDrawables [] (drawableLighting_ s);
     mainLight_ := mainLight_ s;
     visibleLightsData_ := visibleLightsData_ s;
     sceneBatchesWithoutPipelineStates_ := sceneBatchesWithoutPipelineStates_ s;
     factoryCalls_ := factoryCalls_ s |}.

(** *** InitializePasses *)

(** The body of the first loop for one pass.  An invalid pass reaches
    [assert(0)]; where assertions are dropped, [continue] skips
    [passData.Clear]. *)
Definition InitializePasses_pass (numThreads : nat) (desc : ScenePassDescription)
    (passData : PassData.t) : Outcome PassData.t :=
  let passData :=
    PassData.with_desc desc
      (GetPassIndex (unlitBasePassName_ desc))
      (GetPassIndex (litBasePassName_ desc))
      (GetPassIndex (additionalLightPassName_ desc)) passData in
  if negb (PassData.IsValid passData)
  then if NDEBUG then Ok passData else Fault AssertionFailed
  else Ok (PassData.Clear numThreads passData).

Fixpoint InitializePasses_loop (numThreads : nat) (passes : list ScenePassDescription)
    (passes_ : list PassData.t) : Outcome (list PassData.t) :=
  match passes, passes_ with
  | desc :: passes, passData :: passes_ =>
      do passData <- InitializePasses_pass numThreads desc passData;
      do passes_ <- InitializePasses_loop numThreads passes passes_;
      Ok (passData :: passes_)
  | _, _ => Ok passes_
  end.

(** The second loop: every pass of [passes_] registers its lists under the
    indices of its base sub-passes. *)
Fixpoint InitializePasses_lookup (i : nat) (passes_ : list PassData.t)
    (lookup : gmap Z (nat * bool)) : gmap Z (nat * bool) :=
  match passes_ with
  | [] => lookup
  | passData :: rest =>
      let lookup :=
        if negb (PassData.unlitBasePassIndex_ passData =? M_MAX_UNSIGNED)
        then <[PassData.unlitBasePassIndex_ passData := (i, false)]> lookup
        else lookup in
      let lookup :=
        if negb (PassData.litBasePassIndex_ passData =? M_MAX_UNSIGNED)
        then <[PassData.litBasePassIndex_ passData := (i, true)]> lookup
        else lookup in
      InitializePasses_lookup (S i) rest lookup
  end.

Definition InitializePasses (passes : list ScenePassDescription) (s : SceneBatchCollector)
  : Outcome SceneBatchCollector :=
  let numPasses := length passes in
  let resized := vector_resize numPasses PassData.empty (passes_ s) in
  do passes_ <- InitializePasses_loop (numThreads_ s) passes resized;
  Ok (with_baseBatchesLookup_ (InitializePasses_lookup 0 passes_ ∅)
        (with_passes_ passes_ s)).

(** *** UpdateAndCollectSourceBatches *)

(** The loop over [passes_] for one source batch of one geometry: each pass
    builds its intermediate batch and takes it into its lit or unlit list. *)
Fixpoint CollectSourceBatches_passes (threadIndex drawableIndex : nat) (drawable : Drawable)
    (i : nat) (technique : Technique) (passes : list PassData.t) (traits : list Z)
  : Outcome (list PassData.t * list Z) :=
  match passes with
  | [] => Ok ([], traits)
  | pass :: rest =>
      let unlitBasePass := GetPass technique (PassData.unlitBasePassIndex_ pass) in
      let litBasePass := GetPass technique (PassData.litBasePassIndex_ pass) in
      let additionalLightPass := GetPass technique (PassData.additionalLightPassIndex_ pass) in
      let sceneBatch :=
        PassData.CreateIntermediateSceneBatch pass drawable i
          unlitBasePass litBasePass additionalLightPass in
      do '(pass, traits) <-
        (if non_null (IntermediateSceneBatch.additionalPass_ sceneBatch)
         then
           do traits <- update_index traits drawableIndex
                          (fun t => Z.lor t TransientDrawableIndex.ForwardLit);
           do lit <- ThreadedVector.Insert threadIndex sceneBatch (PassData.litBatches_ pass);
           Ok (PassData.with_litBatches_ lit pass, traits)
         else if non_null (IntermediateSceneBatch.basePass_ sceneBatch)
         then
           do unlit <- ThreadedVector.Insert threadIndex sceneBatch (PassData.unlitBatches_ pass);
           Ok (PassData.with_unlitBatches_ unlit pass, traits)
         else Ok (pass, traits));
      do '(rest, traits) <-
        CollectSourceBatches_passes threadIndex drawableIndex drawable i technique rest traits;
      Ok (pass :: rest, traits)
  end.

(** The loop over the source batches of one geometry, from index [i]. *)
Fixpoint CollectSourceBatches_batches (threadIndex drawableIndex : nat) (drawable : Drawable)
    (materialQuality : Z) (defaultMaterial : Material)
    (i : nat) (sourceBatches : list SourceBatch.t) (passes : list PassData.t) (traits : list Z)
  : Outcome (list PassData.t * list Z) :=
  match sourceBatches with
  | [] => Ok (passes, traits)
  | sourceBatch :: rest =>
      let material := default defaultMaterial (SourceBatch.material_ sourceBatch) in
      do '(passes, traits) <-
        match FindTechnique materialQuality drawable material with
        | None => Ok (passes, traits)
        | Some technique =>
            CollectSourceBatches_passes threadIndex drawableIndex drawable i technique
              passes traits
        end;
      CollectSourceBatches_batches threadIndex drawableIndex drawable materialQuality
        defaultMaterial (S i) rest passes traits
  end.

(** The branch of a geometry. *)
Definition CollectSourceBatches_geometry (threadIndex drawableIndex : nat)
    (drawable : Drawable) (s : SceneBatchCollector) : Outcome SceneBatchCollector :=
  let zRange := Evaluate drawable in
  do s <-
    match zRange with
    | None =>
        do z <- update_index (zRange_ s) drawableIndex
                  (fun _ => Some (M_LARGE_VALUE, M_LARGE_VALUE));
        Ok (with_zRange_ z (sceneZRange_ s) s)
    | Some range =>
        do z <- update_index (zRange_ s) drawableIndex (fun _ => zRange);
        do scene <- ThreadedVector.Insert threadIndex range (sceneZRange_ s);
        Ok (with_zRange_ z scene s)
    end;
  do visible <- ThreadedVector.Insert threadIndex drawable (visibleGeometries_ s);
  let s := with_visibleGeometries_ visible s in
  do traits <- update_index (traits_ s) drawableIndex
                 (fun t => Z.lor t TransientDrawableIndex.DrawableVisibleGeometry);
  do '(passes, traits) <-
    CollectSourceBatches_batches threadIndex drawableIndex drawable
      (materialQuality_ s) (defaultMaterial_ s) 0 (GetBatches drawable) (passes_ s) traits;
  let s := with_passes_ passes (with_traits_ traits s) in
  do lighting <- update_index (drawableLighting_ s) drawableIndex (fun _ => []);
  Ok (with_drawableLighting_ lighting s).

(** The branch of a light. *)
Definition CollectSourceBatches_light (threadIndex : nat) (light : Light)
    (s : SceneBatchCollector) : Outcome SceneBatchCollector :=
  if negb (EffectiveColorIsBlack light) && negb (GetLightMaskEffective light =? 0)
  then
    do lights <- ThreadedVector.Insert threadIndex light (visibleLightsTemp_ s);
    Ok (with_visibleLightsTemp_ lights s)
  else Ok s.

(** [UpdateAndCollectSourceBatchesForThread].  The [return] of the distance
    test leaves the function, and with it the loop. *)
Fixpoint UpdateAndCollectSourceBatchesForThread (threadIndex : nat)
    (drawables : list Drawable) (s : SceneBatchCollector) : Outcome SceneBatchCollector :=
  match drawables with
  | [] => Ok s
  | drawable :: rest =>
      let drawableIndex := GetDrawableIndex drawable in
      let drawable := UpdateBatches drawable in
      do traits <- update_index (traits_ s) drawableIndex
                     (fun t => Z.lor t TransientDrawableIndex.DrawableUpdated);
      let s := with_traits_ traits s in
      let maxDistance := GetDrawDistance drawable in
      if Float.gt maxDistance Float.zero && Float.gt (GetDistance drawable) maxDistance
      then Ok s
      else
        do s <-
          (if truthy (Z.land (GetDrawableFlags drawable) DRAWABLE_GEOMETRY)
           then CollectSourceBatches_geometry threadIndex drawableIndex drawable s
           else if truthy (Z.land (GetDrawableFlags drawable) DRAWABLE_LIGHT)
           then CollectSourceBatches_light threadIndex drawable s
           else Ok s);
        UpdateAndCollectSourceBatchesForThread threadIndex rest s
  end.

(** [ForEachParallel] hands ranges of the collection to threads; the ranges
    are run here one after the other, each with its thread index. *)
Fixpoint ForEachParallel {T S : Type} (callback : nat -> list T -> S -> Outcome S)
    (ranges : list (nat * list T)) (s : S) : Outcome S :=
  match ranges with
  | [] => Ok s
  | (threadIndex, range) :: rest =>
      do s <- callback threadIndex range s;
      ForEachParallel callback rest s
  end.

(** [UpdateAndCollectSourceBatches], for the ranges that [ForEachParallel]
    makes of [drawables]; a collection under the work threshold is one range
    on thread 0. *)
Definition UpdateAndCollectSourceBatches (ranges : list (nat * list Drawable))
    (s : SceneBatchCollector) : Outcome SceneBatchCollector :=
  do s <- ForEachParallel UpdateAndCollectSourceBatchesForThread ranges s;
  Ok (with_visibleLights_ (ThreadedVector.elements (visibleLightsTemp_ s)) s).

(** *** ProcessVisibleLights *)

(** One step of the search of the main light, on [(mainLightScore,
    mainLight_)]. *)
Definition FindMainLight_step (acc : float * option Light) (light : Light)
  : float * option Light :=
  match GetLightType light with
  | LIGHT_DIRECTIONAL =>
      let score := GetIntensityDivisor light in
      if Float.gt score (fst acc) then (score, Some light) else acc
  | _ => acc
  end.

(** The first loop of [ProcessVisibleLights]. *)
Definition FindMainLight (visibleLights : list Light) : option Light :=
  snd (fold_left FindMainLight_step visibleLights (Float.zero, None)).

(** [CollectLitGeometries]. *)
Definition CollectLitGeometries (s : SceneBatchCollector) (light : Light)
    (lightData : LightData.t) : Outcome LightData.t :=
  match GetLightType light with
  | LIGHT_SPOT =>
      do result <- Octree_GetDrawables
                     (SpotLightLitGeometriesQuery_TestDrawables (traits_ s) light)
                     (FrustumOctreeQuery_GetDrawables light)
                     (LightData.litGeometries_ lightData);
      Ok (LightData.mk result)
  | LIGHT_POINT =>
      do result <- Octree_GetDrawables
                     (PointLightLitGeometriesQuery_TestDrawables (traits_ s) light)
                     (SphereOctreeQuery_GetDrawables light)
                     (LightData.litGeometries_ lightData);
      Ok (LightData.mk result)
  | LIGHT_DIRECTIONAL =>
      let lightMask := GetLightMask light in
      Ok (LightData.mk
            (LightData.litGeometries_ lightData
             ++ List.filter (fun drawable => truthy (Z.land (GetLightMask drawable) lightMask))
                  (ThreadedVector.elements (visibleGeometries_ s))))
  end.

(** The lit geometries of every visible light, each into a cleared record
    (the record cached for the light is cleared before it is used). *)
Fixpoint ProcessLights (s : SceneBatchCollector) (lights : list Light)
  : Outcome (list LightData.t) :=
  match lights with
  | [] => Ok []
  | light :: rest =>
      do lightData <- CollectLitGeometries s light (LightData.mk []);
      do restData <- ProcessLights s rest;
      Ok (lightData :: restData)
  end.

(** [ProcessVisibleLights], up to the accumulation of forward lighting,
    which only writes the light accumulators of the drawables. *)
Definition ProcessVisibleLights (s : SceneBatchCollector) : Outcome SceneBatchCollector :=
  let mainLight := FindMainLight (visibleLights_ s) in
  do lightsData <- ProcessLights s (visibleLights_ s);
  Ok (with_lights_ mainLight lightsData s).

(** *** CollectSceneBatches *)

(** The first phase of [CollectSceneBaseBatches] on one range: the scene
    batch of every intermediate batch, with the pipeline state that
    [GetPipelineState] finds; the slots of the batches without one are
    queued. *)
Fixpoint CollectSceneBaseBatches_range (live : LiveHashes) (defaultMaterial : Material)
    (threadIndex offset i : nat) (batches : list IntermediateSceneBatch.t)
    (subPassCache : gmap SubPassPipelineStateKey.t SubPassPipelineStateEntry.t)
    (queue : ThreadedVector.t nat)
  : Outcome (list SceneBatch.t
             * gmap SubPassPipelineStateKey.t SubPassPipelineStateEntry.t
             * ThreadedVector.t nat) :=
  match batches with
  | [] => Ok ([], subPassCache, queue)
  | intermediateBatch :: rest =>
      do drawable <-
        match IntermediateSceneBatch.geometry_ intermediateBatch with
        | Some drawable => Ok drawable
        | None => Fault NullDereference
        end;
      do sourceBatch <-
        at_index (GetBatches drawable)
          (IntermediateSceneBatch.sourceBatchIndex_ intermediateBatch);
      let sceneBatch :=
        SceneBatch.mk (Some drawable) (GetDrawableIndex drawable)
          (IntermediateSceneBatch.sourceBatchIndex_ intermediateBatch)
          (SourceBatch.geometry_ sourceBatch)
          (Some (default defaultMaterial (SourceBatch.material_ sourceBatch)))
          (IntermediateSceneBatch.basePass_ intermediateBatch)
          None in
      do key <- SubPassPipelineStateKey.of_batch sceneBatch;
      do '(pipelineState, subPassCache) <-
        SubPassPipelineStateCache.GetPipelineState live key subPassCache;
      let sceneBatch := SceneBatch.with_pipelineState_ pipelineState sceneBatch in
      do queue <-
        (if negb (non_null pipelineState)
         then ThreadedVector.Insert threadIndex (i + offset)%nat queue
         else Ok queue);
      do '(sceneBatches, subPassCache, queue) <-
        CollectSceneBaseBatches_range live defaultMaterial threadIndex offset (S i) rest
          subPassCache queue;
      Ok (sceneBatch :: sceneBatches, subPassCache, queue)
  end.

(** The second phase: every queued slot gets the state of
    [GetOrCreatePipelineState]. *)
Fixpoint CollectSceneBaseBatches_create (live : LiveHashes)
    (subPassContext : SubPassPipelineStateContext.t) (queued : list nat)
    (sceneBatches : list SceneBatch.t)
    (subPassCache : gmap SubPassPipelineStateKey.t SubPassPipelineStateEntry.t)
    (calls : list FactoryCall)
  : Outcome (list SceneBatch.t
             * gmap SubPassPipelineStateKey.t SubPassPipelineStateEntry.t
             * list FactoryCall) :=
  match queued with
  | [] => Ok (sceneBatches, subPassCache, calls)
  | slot :: rest =>
      do sceneBatch <- at_index sceneBatches slot;
      do key <- SubPassPipelineStateKey.of_batch sceneBatch;
      do '(pipelineState, subPassCache, calls) <-
        SubPassPipelineStateCache.GetOrCreatePipelineState
          (SceneBatch.drawable_ sceneBatch) key subPassContext pipelineStateFactory_
          live calls subPassCache;
      let sceneBatches :=
        <[slot := SceneBatch.with_pipelineState_ pipelineState sceneBatch]> sceneBatches in
      CollectSceneBaseBatches_create live subPassContext rest sceneBatches subPassCache calls
  end.

(** [CollectSceneBaseBatches], with the intermediate batches in one range
    on thread 0 (a collection under the work threshold). *)
Definition CollectSceneBaseBatches (live : LiveHashes)
    (subPassCache : gmap SubPassPipelineStateKey.t SubPassPipelineStateEntry.t)
    (isLit : bool) (intermediateBatches : ThreadedVector.t IntermediateSceneBatch.t)
    (s : SceneBatchCollector)
  : Outcome (list SceneBatch.t
             * gmap SubPassPipelineStateKey.t SubPassPipelineStateEntry.t
             * SceneBatchCollector) :=
  let queue := ThreadedVector.Clear (numThreads_ s) (sceneBatchesWithoutPipelineStates_ s) in
  do '(sceneBatches, subPassCache, queue) <-
    CollectSceneBaseBatches_range live (defaultMaterial_ s) 0 0 0
      (ThreadedVector.elements intermediateBatches) subPassCache queue;
  let subPassContext :=
    SubPassPipelineStateContext.mk (camera_ s) (if isLit then mainLight_ s else None) in
  do '(sceneBatches, subPassCache, calls) <-
    CollectSceneBaseBatches_create live subPassContext (ThreadedVector.elements queue)
      sceneBatches subPassCache (factoryCalls_ s);
  Ok (sceneBatches, subPassCache, with_pipeline_work_ queue calls s).

(** The loop of [CollectSceneBatches] over [passes_]. *)
Fixpoint CollectSceneBatches_passes (live : LiveHashes) (passes : list PassData.t)
    (s : SceneBatchCollector) : Outcome (list PassData.t * SceneBatchCollector) :=
  match passes with
  | [] => Ok ([], s)
  | passData :: rest =>
      do '(unlit, unlitCache, s) <-
        CollectSceneBaseBatches live (PassData.unlitPipelineStateCache_ passData) false
          (PassData.unlitBatches_ passData) s;
      let passData := PassData.with_unlit_result unlit unlitCache passData in
      do '(lit, litCache, s) <-
        CollectSceneBaseBatches live (PassData.litPipelineStateCache_ passData) true
          (PassData.litBatches_ passData) s;
      let passData := PassData.with_lit_result lit litCache passData in
      do '(rest, s) <- CollectSceneBatches_passes live rest s;
      Ok (passData :: rest, s)
  end.

Definition CollectSceneBatches (live : LiveHashes) (s : SceneBatchCollector)
  : Outcome SceneBatchCollector :=
  do '(passes, s) <- CollectSceneBatches_passes live (passes_ s) s;
  Ok (with_passes_ passes s).

(** [GetBaseBatches]. *)
Definition GetBaseBatches (pass : string) (s : SceneBatchCollector) : list SceneBatch.t :=
  let passIndex := GetPassIndex pass in
  match (baseBatchesLookup_ s !! passIndex : option (nat * bool)) with
  | None => []
  | Some (i, isLit) =>
      match passes_ s !! i with
      | Some passData =>
          if isLit then PassData.litBaseSceneBatches_ passData
          else PassData.unlitBaseSceneBatches_ passData
      | None => []
      end
  end.

(** *** A frame *)

(** The first calls of a frame, in the order of the interface:
    [InitializeFrame], [InitializePasses], then the collection of the source
    batches of [drawables] in one range on thread 0. *)
Definition CollectFrame (frameInfo : FrameInfo) (passes : list ScenePassDescription)
    (drawables : list Drawable) (s : SceneBatchCollector) : Outcome SceneBatchCollector :=
  do s <- InitializePasses passes (InitializeFrame frameInfo s);
  UpdateAndCollectSourceBatches [(0%nat, drawables)] s.

(** The number of unlit and of lit intermediate batches of every pass. *)
Definition intermediate_batch_counts (s : SceneBatchCollector) : list (nat * nat) :=
  map (fun passData =>
         (ThreadedVector.Size (PassData.unlitBatches_ passData),
          ThreadedVector.Size (PassData.litBatches_ passData)))
    (passes_ s).

(* ===================================================================== *)
(** ** Properties *)
(* ===================================================================== *)

(** *** Facts on the comparison of floats *)

Lemma SFltb_rank (a b : float) :
  SFltb a b = true <->
  exists x y, Float.rank a = Some x /\ Float.rank b = Some y /\ Float.lex x y.
Proof.
  unfold SFltb.
  destruct a as [sa|sa| |sa ma ea], b as [sb|sb| |sb mb eb]; simpl;
    try destruct sa; try destruct sb; simpl;
    try (split; [discriminate | intros (x & y & Hx & Hy & Hl); try discriminate;
                                inversion Hx; inversion Hy; subst; simpl in Hl; lia]);
    try (split; [intros _; eexists _, _; repeat split; simpl; lia | reflexivity]).
  - destruct (Z.compare_spec ea eb) as [He|He|He]; simpl.
    + rewrite Pos.compare_cont_spec; simpl.
      destruct (Pos.compare_spec ma mb) as [Hm|Hm|Hm]; simpl;
        (split; [try discriminate; intros _; eexists _, _; repeat split; simpl; lia
                | try reflexivity; intros (x & y & Hx & Hy & Hl);
                  inversion Hx; inversion Hy; subst; simpl in Hl; lia]).
    + split; [discriminate|]. intros (x & y & Hx & Hy & Hl).
      inversion Hx; inversion Hy; subst; simpl in Hl; lia.
    + split; [|reflexivity]. intros _; eexists _, _; repeat split; simpl; lia.
  - destruct (Z.compare_spec ea eb) as [He|He|He]; simpl.
    + rewrite Pos.compare_cont_spec; simpl.
      destruct (Pos.compare_spec ma mb) as [Hm|Hm|Hm]; simpl;
        (split; [try discriminate; intros _; eexists _, _; repeat split; simpl; lia
                | try reflexivity; intros (x & y & Hx & Hy & Hl);
                  inversion Hx; inversion Hy; subst; simpl in Hl; lia]).
    + split; [|reflexivity]. intros _; eexists _, _; repeat split; simpl; lia.
    + split; [discriminate|]. intros (x & y & Hx & Hy & Hl).
      inversion Hx; inversion Hy; subst; simpl in Hl; lia.
Qed.

Lemma SFleb_rank (a b : float) :
  SFleb a b = true <->
  exists x y, Float.rank a = Some x /\ Float.rank b = Some y /\ (Float.lex x y \/ x = y).
Proof.
  unfold SFleb.
  destruct a as [sa|sa| |sa ma ea], b as [sb|sb| |sb mb eb]; simpl;
    try destruct sa; try destruct sb; simpl;
    try (split; [discriminate | intros (x & y & Hx & Hy & Hl); discriminate]);
    try (split; [discriminate | intros (x & y & Hx & Hy & Hl);
                                inversion Hx; inversion Hy; subst; simpl in Hl;
                                destruct Hl as [Hl|Hl]; [lia | discriminate]]);
    try (split; [intros _; eexists _, _; repeat split; simpl;
                 first [left; lia | right; reflexivity] | reflexivity]).
  - destruct (Z.compare_spec ea eb) as [He|He|He]; simpl.
    + rewrite Pos.compare_cont_spec; simpl.
      destruct (Pos.compare_spec ma mb) as [Hm|Hm|Hm]; simpl; subst.
      * split; [|reflexivity]. intros _; eexists _, _; repeat split; right; reflexivity.
      * split; [discriminate|]. intros (x & y & Hx & Hy & Hl).
        inversion Hx; inversion Hy; subst; simpl in Hl.
        destruct Hl as [Hl|Hl]; [lia | inversion Hl; lia].
      * split; [|reflexivity]. intros _; eexists _, _; repeat split; left; simpl; lia.
    + split; [discriminate|]. intros (x & y & Hx & Hy & Hl).
      inversion Hx; inversion Hy; subst; simpl in Hl.
      destruct Hl as [Hl|Hl]; [lia | inversion Hl; lia].
    + split; [|reflexivity]. intros _; eexists _, _; repeat split; left; simpl; lia.
  - destruct (Z.compare_spec ea eb) as [He|He|He]; simpl.
    + rewrite Pos.compare_cont_spec; simpl.
      destruct (Pos.compare_spec ma mb) as [Hm|Hm|Hm]; simpl; subst.
      * split; [|reflexivity]. intros _; eexists _, _; repeat split; right; reflexivity.
      * split; [|reflexivity]. intros _; eexists _, _; repeat split; left; simpl; lia.
      * split; [discriminate|]. intros (x & y & Hx & Hy & Hl).
        inversion Hx; inversion Hy; subst; simpl in Hl.
        destruct Hl as [Hl|Hl]; [lia | inversion Hl; lia].
    + split; [|reflexivity]. intros _; eexists _, _; repeat split; left; simpl; lia.
    + split; [discriminate|]. intros (x & y & Hx & Hy & Hl).
      inversion Hx; inversion Hy; subst; simpl in Hl.
      destruct Hl as [Hl|Hl]; [lia | inversion Hl; lia].
Qed.

Lemma lex_irrefl (x : Z * Z * Z) : ~ Float.lex x x.
Proof. destruct x as [[a b] c]. simpl. lia. Qed.

Lemma lex_trans (x y z : Z * Z * Z) : Float.lex x y -> Float.lex y z -> Float.lex x z.
Proof. destruct x as [[a b] c], y as [[d e] f], z as [[g h] i]. simpl. lia. Qed.

Lemma lex_total (x y : Z * Z * Z) : Float.lex x y \/ x = y \/ Float.lex y x.
Proof.
  destruct x as [[a b] c], y as [[d e] f]. simpl.
  destruct (Z.lt_total a d) as [H|[H|H]]; [lia| |lia].
  destruct (Z.lt_total b e) as [H1|[H1|H1]]; [lia| |lia].
  destruct (Z.lt_total c f) as [H2|[H2|H2]]; [lia| |lia].
  subst. right. left. reflexivity.
Qed.

(** [a > b] on floats, as a relation of ranks. *)
Lemma gt_rank (a b : float) :
  Float.gt a b = true <->
  exists x y, Float.rank b = Some x /\ Float.rank a = Some y /\ Float.lex x y.
Proof. unfold Float.gt. apply SFltb_rank. Qed.

Lemma gt_irrefl (a : float) : Float.gt a a = false.
Proof.
  destruct (Float.gt a a) eqn:H; [|reflexivity].
  apply gt_rank in H. destruct H as (x & y & Hx & Hy & Hl).
  rewrite Hx in Hy. inversion Hy; subst. destruct (lex_irrefl _ Hl).
Qed.

Lemma gt_trans (a b c : float) :
  Float.gt a b = true -> Float.gt b c = true -> Float.gt a c = true.
Proof.
  rewrite !gt_rank. intros (x & y & Hx & Hy & Hl) (x' & y' & Hx' & Hy' & Hl').
  rewrite Hx in Hy'. inversion Hy'; subst.
  exists x', y. repeat split; try assumption. eapply lex_trans; eassumption.
Qed.

Lemma gt_asym (a b : float) : Float.gt a b = true -> Float.gt b a = false.
Proof.
  intros H. destruct (Float.gt b a) eqn:H'; [|reflexivity].
  pose proof (gt_trans _ _ _ H H') as Haa. rewrite gt_irrefl in Haa. discriminate.
Qed.

(** Two values that compare with something are comparable: when [a > b],
    a value [c] above some [m] that [a] does not exceed is above [b]. *)
Lemma gt_of_not_gt (a b c m : float) :
  Float.gt a b = true -> Float.gt a c = false -> Float.gt c m = true ->
  Float.gt c b = true.
Proof.
  intros Hab Hac Hcm.
  apply gt_rank in Hab. destruct Hab as (rb & ra & Hb & Ha & Hl).
  apply gt_rank in Hcm. destruct Hcm as (rm & rc & Hm & Hc & Hl').
  apply gt_rank. exists rb, rc. repeat split; try assumption.
  destruct (lex_total rc ra) as [H|[H|H]].
  - exfalso. assert (Float.gt a c = true) as Hgt.
    { apply gt_rank. exists rc, ra. repeat split; assumption. }
    rewrite Hgt in Hac. discriminate.
  - subst. assumption.
  - eapply lex_trans; eassumption.
Qed.

(** [a <= b] excludes [a > b]. *)
Lemma le_not_gt (a b : float) : Float.le a b = true -> Float.gt a b = false.
Proof.
  unfold Float.le. intros H. apply SFleb_rank in H.
  destruct H as (x & y & Hx & Hy & Hl).
  destruct (Float.gt a b) eqn:Hgt; [|reflexivity].
  apply gt_rank in Hgt. destruct Hgt as (x' & y' & Hx' & Hy' & Hl').
  rewrite Hx in Hy'. rewrite Hy in Hx'. inversion Hy'; inversion Hx'; subst.
  destruct Hl as [Hl|Hl].
  - destruct (lex_irrefl _ (lex_trans _ _ _ Hl Hl')).
  - subst. destruct (lex_irrefl _ Hl').
Qed.

(** *** Pass validity *)

(** C7. [IsValid] classifies a pass as the validity rule says, from the
    type of the pass and the presence of its three sub-passes alone: an
    Unlit pass is valid iff it has only the base sub-pass, a
    ForwardUnlitBase pass iff it has base and additional-light but not
    lit-base, a ForwardLitBase pass iff it has additional-light and either
    lit-base only or both base and lit-base.  Two pass data of the same type
    and the same sub-pass presence are classified alike, whatever their
    batches and caches. *)
Theorem IsValid_classifies (p : PassData.t) :
  PassData.IsValid p
  = Spec.pass_valid (type_ (PassData.desc_ p))
      (Spec.present (PassData.unlitBasePassIndex_ p))
      (Spec.present (PassData.litBasePassIndex_ p))
      (Spec.present (PassData.additionalLightPassIndex_ p))
  /\ forall q : PassData.t,
      type_ (PassData.desc_ q) = type_ (PassData.desc_ p) ->
      Spec.present (PassData.unlitBasePassIndex_ q)
      = Spec.present (PassData.unlitBasePassIndex_ p) ->
      Spec.present (PassData.litBasePassIndex_ q)
      = Spec.present (PassData.litBasePassIndex_ p) ->
      Spec.present (PassData.additionalLightPassIndex_ q)
      = Spec.present (PassData.additionalLightPassIndex_ p) ->
      PassData.IsValid q = PassData.IsValid p.
Proof.
  assert (forall r : PassData.t,
    PassData.IsValid r
    = Spec.pass_valid (type_ (PassData.desc_ r))
        (Spec.present (PassData.unlitBasePassIndex_ r))
        (Spec.present (PassData.litBasePassIndex_ r))
        (Spec.present (PassData.additionalLightPassIndex_ r))) as Hspec.
  { intros r. unfold PassData.IsValid, PassData.CheckSubPasses, Spec.pass_valid, Spec.present.
    destruct (type_ (PassData.desc_ r));
      destruct (PassData.unlitBasePassIndex_ r =? M_MAX_UNSIGNED);
      destruct (PassData.litBasePassIndex_ r =? M_MAX_UNSIGNED);
      destruct (PassData.additionalLightPassIndex_ r =? M_MAX_UNSIGNED);
      reflexivity. }
  split; [apply Hspec|].
  intros q Ht Hu Hl Ha. rewrite (Hspec q), (Hspec p), Ht, Hu, Hl, Ha. reflexivity.
Qed.

(** *** Technique resolution *)

Lemma FindTechnique_loop_find (materialQuality : Z) (lodDistance : float)
    (techniques : list TechniqueEntry) :
  FindTechnique_loop materialQuality lodDistance techniques
  = match List.find (Spec.qualifies materialQuality lodDistance) techniques with
    | Some entry => technique_ entry
    | None => None
    end.
Proof.
  induction techniques as [|entry rest IH]; simpl; [reflexivity|].
  unfold Spec.qualifies at 1.
  destruct (technique_ entry) as [tech|] eqn:Htech; [|exact IH].
  rewrite Z.ltb_antisym. unfold Float.ge, Float.le.
  destruct (IsSupported tech); simpl; [|exact IH].
  destruct (qualityLevel_ entry <=? materialQuality); simpl; [|exact IH].
  destruct (SFleb (lodDistance_ entry) lodDistance); simpl; [|exact IH].
  symmetry. exact Htech.
Qed.

Lemma qualifies_present (materialQuality : Z) (lodDistance : float) (entry : TechniqueEntry) :
  Spec.qualifies materialQuality lodDistance entry = true ->
  exists tech, technique_ entry = Some tech.
Proof.
  unfold Spec.qualifies. destruct (technique_ entry) as [tech|]; [eauto|discriminate].
Qed.

(** C3, as amended.  [FindTechnique] returns the technique of the sole
    entry when the material has exactly one; otherwise the technique of the
    first entry, in declared order, that is present, supported, of a quality
    level within the material quality and of a LOD distance at or below
    that of the drawable; otherwise that of the last entry.  It depends on
    the drawable through its LOD distance only.  The result is none only
    when the list is empty or when the last entry (the sole one included)
    has no technique. *)
Theorem FindTechnique_resolves (materialQuality : Z) (drawable : Drawable)
    (material : Material) :
  FindTechnique materialQuality drawable material
  = Spec.resolve_technique materialQuality (GetLodDistance drawable) (GetTechniques material)
  /\ (FindTechnique materialQuality drawable material = None ->
      GetTechniques material = []
      \/ exists entry, last (GetTechniques material) = Some entry
                       /\ technique_ entry = None).
Proof.
  assert (FindTechnique materialQuality drawable material
          = Spec.resolve_technique materialQuality (GetLodDistance drawable)
              (GetTechniques material)) as Heq.
  { unfold FindTechnique, Spec.resolve_technique.
    destruct (GetTechniques material) as [|e1 [|e2 rest]]; try reflexivity.
    rewrite FindTechnique_loop_find.
    destruct (List.find _ _) as [entry|] eqn:Hfind; [|reflexivity].
    apply List.find_some in Hfind. destruct Hfind as [_ Hq].
    apply qualifies_present in Hq. destruct Hq as [tech Htech].
    rewrite Htech. reflexivity. }
  split; [exact Heq|].
  rewrite Heq. unfold Spec.resolve_technique.
  destruct (GetTechniques material) as [|e1 [|e2 rest]] eqn:Hl.
  - intros _. left. reflexivity.
  - intros Hnone. right. exists e1. split; [reflexivity|exact Hnone].
  - destruct (List.find _ _) as [entry|] eqn:Hfind.
    + apply List.find_some in Hfind. destruct Hfind as [_ Hq].
      apply qualifies_present in Hq. destruct Hq as [tech Htech].
      rewrite Htech. discriminate.
    + destruct (last (e1 :: e2 :: rest)) as [entry|] eqn:Hlast.
      * intros Hnone. right. exists entry. split; [reflexivity|exact Hnone].
      * apply last_None in Hlast. discriminate.
Qed.

(** *** Main light *)

Lemma find_ext_in {A : Type} (f g : A -> bool) (l : list A) :
  (forall x, In x l -> f x = g x) -> List.find f l = List.find g l.
Proof.
  induction l as [|x l IH]; intros H; simpl; [reflexivity|].
  rewrite (H x (or_introl eq_refl)).
  destruct (g x); [reflexivity|]. apply IH. intros y Hy. apply H. right. exact Hy.
Qed.

Lemma find_all_false {A : Type} (f : A -> bool) (l : list A) :
  (forall x, In x l -> f x = false) -> List.find f l = None.
Proof.
  induction l as [|x l IH]; intros H; simpl; [reflexivity|].
  rewrite (H x (or_introl eq_refl)). apply IH. intros y Hy. apply H. right. exact Hy.
Qed.

Lemma find_head_filter {A : Type} (f : A -> bool) (l : list A) :
  List.find f l = head (List.filter f l).
Proof.
  induction l as [|x l IH]; simpl; [reflexivity|]. destruct (f x); [reflexivity|exact IH].
Qed.

Lemma forallb_negb_existsb {A : Type} (f : A -> bool) (l : list A) :
  forallb (fun x => negb (f x)) l = negb (existsb f l).
Proof.
  induction l as [|x l IH]; simpl; [reflexivity|].
  rewrite IH. destruct (f x); reflexivity.
Qed.

(** Whether a directional light of [lights] exceeds the score [s]. *)
Lemma exceeded_dec (s : float) (lights : list Light) :
  (exists y, In y lights /\ Spec.directional y = true
             /\ Float.gt (GetIntensityDivisor y) s = true)
  \/ (forall y, In y lights ->
        Spec.directional y && Float.gt (GetIntensityDivisor y) s = false).
Proof.
  destruct (existsb (fun o => Spec.directional o && Float.gt (GetIntensityDivisor o) s)
              lights) eqn:Hex.
  - left. apply existsb_exists in Hex. destruct Hex as (o & Ho & Hoc).
    apply andb_true_iff in Hoc. destruct Hoc. eauto.
  - right. intros y Hy.
    destruct (Spec.directional y && Float.gt (GetIntensityDivisor y) s) eqn:Hoc;
      [|reflexivity].
    assert (existsb (fun o => Spec.directional o && Float.gt (GetIntensityDivisor o) s)
              lights = true) as Hyes.
    { apply existsb_exists. exists y. split; assumption. }
    rewrite Hyes in Hex. discriminate.
Qed.

Lemma candidate_above_unfold (m : float) (lights : list Light) (light : Light) :
  Spec.candidate_above m lights light
  = Spec.directional light
    && Float.gt (GetIntensityDivisor light) m
    && negb (existsb (fun other => Spec.directional other
                        && Float.gt (GetIntensityDivisor other) (GetIntensityDivisor light))
               lights).
Proof.
  unfold Spec.candidate_above.
  rewrite (forallb_negb_existsb
             (fun other => Spec.directional other
                && Float.gt (GetIntensityDivisor other) (GetIntensityDivisor light))).
  reflexivity.
Qed.

Lemma not_exceeded (s : float) (lights : list Light) :
  (forall y, In y lights ->
     Spec.directional y && Float.gt (GetIntensityDivisor y) s = false) ->
  existsb (fun o => Spec.directional o && Float.gt (GetIntensityDivisor o) s) lights = false.
Proof.
  intros H. destruct (existsb _ lights) eqn:Hex; [|reflexivity].
  apply existsb_exists in Hex. destruct Hex as (o & Ho & Hoc).
  rewrite (H o Ho) in Hoc. discriminate.
Qed.

(** Among the directional lights of a list that score above [m], one is not
    exceeded by any directional light of the list. *)
Lemma candidate_above_exists (lights : list Light) :
  forall m,
    (exists y, In y lights /\ Spec.directional y = true
               /\ Float.gt (GetIntensityDivisor y) m = true) ->
    exists z, In z lights /\ Spec.candidate_above m lights z = true.
Proof.
  induction lights as [|x r IH]; intros m (y & Hin & Hdir & Hgt); [destruct Hin|].
  destruct (Spec.directional x && Float.gt (GetIntensityDivisor x) m) eqn:Hx.
  - apply andb_true_iff in Hx. destruct Hx as [Hdx Hgx].
    destruct (exceeded_dec (GetIntensityDivisor x) r) as [Hex|Hno].
    + destruct (IH (GetIntensityDivisor x) Hex) as (z & Hz & Hc).
      exists z. split; [right; exact Hz|].
      rewrite candidate_above_unfold in *. simpl existsb.
      apply andb_true_iff in Hc. destruct Hc as [Hc Hall].
      apply andb_true_iff in Hc. destruct Hc as [Hdz Hgz].
      rewrite Hdz, (gt_trans _ _ _ Hgz Hgx), (gt_asym _ _ Hgz), andb_false_r.
      simpl. exact Hall.
    + exists x. split; [left; reflexivity|].
      rewrite candidate_above_unfold. simpl existsb.
      rewrite Hdx, Hgx, gt_irrefl, (not_exceeded _ _ Hno). reflexivity.
  - assert (In y r) as Hyr.
    { destruct Hin as [Heq|Hin]; [|exact Hin]. subst y.
      rewrite Hdir, Hgt in Hx. discriminate. }
    destruct (IH m) as (z & Hz & Hc); [eauto|].
    exists z. split; [right; exact Hz|].
    rewrite candidate_above_unfold in *. simpl existsb.
    apply andb_true_iff in Hc. destruct Hc as [Hc Hall].
    apply andb_true_iff in Hc. destruct Hc as [Hdz Hgz].
    rewrite Hdz, Hgz. simpl. apply negb_true_iff in Hall. rewrite Hall, orb_false_r.
    destruct (Spec.directional x) eqn:Hdx; [|reflexivity]. simpl in *.
    destruct (Float.gt (GetIntensityDivisor x) (GetIntensityDivisor z)) eqn:Hxz; [|reflexivity].
    rewrite (gt_trans _ _ _ Hxz Hgz) in Hx. discriminate.
Qed.

(** Adding a light in front of the list changes what is a candidate among
    the others only through the test against the new light. *)
Lemma candidate_above_cons (m : float) (x : Light) (r : list Light) (w : Light) :
  Spec.candidate_above m (x :: r) w
  = Spec.candidate_above m r w
    && negb (Spec.directional x
             && Float.gt (GetIntensityDivisor x) (GetIntensityDivisor w)).
Proof.
  unfold Spec.candidate_above. simpl forallb.
  destruct (Spec.directional w); simpl; [|reflexivity].
  destruct (Float.gt (GetIntensityDivisor w) m); simpl; [|reflexivity].
  apply andb_comm.
Qed.

(** The loop of the main light from any state [(m, selected)]: the first
    candidate above [m] of the lights to come, or the light selected
    before. *)
Lemma FindMainLight_from (lights : list Light) :
  forall (m : float) (selected : option Light),
    snd (fold_left FindMainLight_step lights (m, selected))
    = match List.find (Spec.candidate_above m lights) lights with
      | Some light => Some light
      | None => selected
      end.
Proof.
  induction lights as [|x r IH]; intros m selected; [reflexivity|].
  simpl fold_left. simpl List.find.
  rewrite candidate_above_cons.
  destruct (Spec.directional x
            && Float.gt (GetIntensityDivisor x) m) eqn:Hx.
  - (* the light takes the place of the main light *)
    apply andb_true_iff in Hx. destruct Hx as [Hdx Hgx].
    assert (FindMainLight_step (m, selected) x = (GetIntensityDivisor x, Some x)) as Hstep.
    { unfold FindMainLight_step. unfold Spec.directional in Hdx.
      destruct (GetLightType x); try discriminate. simpl. rewrite Hgx. reflexivity. }
    rewrite Hstep, IH.
    rewrite Hdx, gt_irrefl. simpl. rewrite andb_true_r.
    destruct (exceeded_dec (GetIntensityDivisor x) r) as [Hex|Hno].
    + destruct Hex as (y & Hy & Hdy & Hgy).
      destruct (candidate_above_exists r (GetIntensityDivisor x)) as (z & Hz & Hc); [eauto|].
      assert (Spec.candidate_above m r x = false) as Hnot.
      { rewrite candidate_above_unfold.
        assert (existsb (fun other => Spec.directional other
                  && Float.gt (GetIntensityDivisor other) (GetIntensityDivisor x)) r = true)
          as Hyes.
        { apply existsb_exists. exists y. rewrite Hdy, Hgy. split; [exact Hy|reflexivity]. }
        rewrite Hyes. apply andb_false_r. }
      rewrite Hnot.
      assert (List.find (Spec.candidate_above (GetIntensityDivisor x) r) r
              = List.find (Spec.candidate_above m (x :: r)) r) as Hsame.
      { apply find_ext_in. intros w Hw. rewrite candidate_above_cons.
        rewrite !candidate_above_unfold. rewrite Hdx. simpl.
        destruct (Spec.directional w) eqn:Hdw; [simpl|reflexivity].
        destruct (existsb _ r) eqn:Hbw; [rewrite !andb_false_r; reflexivity|].
        simpl. rewrite !andb_true_r.
        destruct (Float.gt (GetIntensityDivisor w) (GetIntensityDivisor x)) eqn:Hwx.
        - rewrite (gt_trans _ _ _ Hwx Hgx), (gt_asym _ _ Hwx). reflexivity.
        - destruct (Float.gt (GetIntensityDivisor w) m) eqn:Hwm; [simpl|reflexivity].
          assert (Float.gt (GetIntensityDivisor y) (GetIntensityDivisor w) = false) as Hyw.
          { destruct (Float.gt (GetIntensityDivisor y) (GetIntensityDivisor w)) eqn:Hyw;
              [|reflexivity].
            assert (existsb (fun other => Spec.directional other
                      && Float.gt (GetIntensityDivisor other) (GetIntensityDivisor w)) r
                    = true) as Hyes.
            { apply existsb_exists. exists y. rewrite Hdy, Hyw. split; [exact Hy|reflexivity]. }
            rewrite Hyes in Hbw. discriminate. }
          rewrite (gt_of_not_gt _ _ _ _ Hgy Hyw Hwm) in Hwx. discriminate. }
      rewrite <- Hsame.
      destruct (List.find (Spec.candidate_above (GetIntensityDivisor x) r) r) eqn:Hfind;
        [reflexivity|].
      pose proof (List.find_none _ _ Hfind z Hz) as Hno. rewrite Hc in Hno. discriminate.
    + assert (Spec.candidate_above m r x = true) as Hyes.
      { rewrite candidate_above_unfold, Hdx, Hgx, (not_exceeded _ _ Hno). reflexivity. }
      rewrite Hyes.
      rewrite find_all_false; [reflexivity|].
      intros z Hz. rewrite candidate_above_unfold.
      specialize (Hno z Hz). apply andb_false_iff in Hno.
      destruct Hno as [Hno|Hno]; rewrite Hno; [reflexivity|].
      rewrite andb_false_r. reflexivity.
  - (* the light is passed over *)
    assert (FindMainLight_step (m, selected) x = (m, selected)) as Hstep.
    { unfold FindMainLight_step. unfold Spec.directional in Hx.
      destruct (GetLightType x); try reflexivity. simpl in *. rewrite Hx. reflexivity. }
    rewrite Hstep, IH.
    assert (Spec.candidate_above m r x = false) as Hnot.
    { rewrite candidate_above_unfold, Hx. reflexivity. }
    rewrite Hnot. simpl.
    rewrite (find_ext_in (Spec.candidate_above m r) (Spec.candidate_above m (x :: r)));
      [reflexivity|].
    intros w Hw. rewrite candidate_above_cons.
    destruct (Spec.candidate_above m r w) eqn:Hc; [simpl|reflexivity].
    rewrite candidate_above_unfold in Hc.
    apply andb_true_iff in Hc. destruct Hc as [Hc _].
    apply andb_true_iff in Hc. destruct Hc as [_ Hwm].
    destruct (Spec.directional x) eqn:Hdx; [simpl in *|reflexivity].
    destruct (Float.gt (GetIntensityDivisor x) (GetIntensityDivisor w)) eqn:Hxw;
      [|reflexivity].
    rewrite (gt_trans _ _ _ Hxw Hwm) in Hx. discriminate.
Qed.

Lemma FindMainLight_main_light (lights : list Light) :
  FindMainLight lights = Spec.main_light lights.
Proof.
  unfold FindMainLight. rewrite FindMainLight_from.
  unfold Spec.main_light.
  change (Spec.top_light lights) with (Spec.candidate_above Float.zero lights).
  destruct (List.find _ lights); reflexivity.
Qed.

Lemma forallb_Permutation {A : Type} (f : A -> bool) (l l' : list A) :
  Permutation l l' -> forallb f l = forallb f l'.
Proof.
  induction 1 as [|x l l' _ IH|x y l|l l' l'' _ IH1 _ IH2]; simpl.
  - reflexivity.
  - rewrite IH. reflexivity.
  - destruct (f x), (f y); reflexivity.
  - rewrite IH1. exact IH2.
Qed.

(** C5, as amended.  The main light is the first light, in the order of the
    visible lights, that is directional, has a score above zero and is not
    exceeded in score by any visible directional light: among lights tied at
    the greatest score the first is kept.  It exists as soon as a visible
    directional light has a score above zero.  A light that is not
    directional is never selected.  The selection is the same for any
    reordering of the visible lights that keeps the lights of the greatest
    score in their order. *)
Theorem FindMainLight_first_greatest (lights : list Light) :
  FindMainLight lights = Spec.main_light lights
  /\ (forall pre light post,
        lights = pre ++ light :: post ->
        Spec.top_light lights light = true ->
        (forall earlier, In earlier pre -> Spec.top_light lights earlier = false) ->
        FindMainLight lights = Some light)
  /\ ((exists light, In light lights /\ Spec.directional light = true
                     /\ Float.gt (GetIntensityDivisor light) Float.zero = true) ->
      exists light, FindMainLight lights = Some light)
  /\ (forall light,
        FindMainLight lights = Some light ->
        In light lights
        /\ Spec.directional light = true
        /\ Float.gt (GetIntensityDivisor light) Float.zero = true
        /\ forall other, In other lights -> Spec.directional other = true ->
             Float.gt (GetIntensityDivisor other) (GetIntensityDivisor light) = false)
  /\ (forall lights',
        Permutation lights lights' ->
        List.filter (Spec.top_light lights) lights'
        = List.filter (Spec.top_light lights) lights ->
        FindMainLight lights' = FindMainLight lights).
Proof.
  split; [apply FindMainLight_main_light|].
  split.
  { intros pre light post Hsplit Htop Hpre.
    rewrite FindMainLight_main_light. unfold Spec.main_light.
    rewrite Hsplit at 2.
    clear Hsplit. induction pre as [|e pre IH]; simpl.
    - rewrite Htop. reflexivity.
    - rewrite (Hpre e (or_introl eq_refl)). apply IH.
      intros earlier He. apply Hpre. right. exact He. }
  split.
  { intros Hex. rewrite FindMainLight_main_light. unfold Spec.main_light.
    destruct (candidate_above_exists lights Float.zero Hex) as (z & Hz & Hc).
    destruct (List.find (Spec.top_light lights) lights) as [light|] eqn:Hfind; [eauto|].
    pose proof (List.find_none _ _ Hfind z Hz) as Hno.
    unfold Spec.top_light in Hno. rewrite Hc in Hno. discriminate. }
  split.
  { intros light Hmain. rewrite FindMainLight_main_light in Hmain.
    apply List.find_some in Hmain. destruct Hmain as [Hin Htop].
    unfold Spec.top_light, Spec.candidate_above in Htop.
    apply andb_true_iff in Htop. destruct Htop as [Htop Hall].
    apply andb_true_iff in Htop. destruct Htop as [Hdir Hpos].
    repeat split; try assumption.
    intros other Hother Hdo. rewrite forallb_forall in Hall.
    specialize (Hall other Hother). rewrite Hdo in Hall. simpl in Hall.
    apply negb_true_iff in Hall. exact Hall. }
  intros lights' Hperm Hfilter.
  rewrite !FindMainLight_main_light. unfold Spec.main_light.
  rewrite (find_ext_in (Spec.top_light lights') (Spec.top_light lights)).
  - rewrite !find_head_filter, Hfilter. reflexivity.
  - intros w _. unfold Spec.top_light, Spec.candidate_above.
    f_equal. symmetry. apply forallb_Permutation. exact Hperm.
Qed.

(** C9.  When every visible directional light has a score less than or
    equal to zero, no main light is selected. *)
Theorem FindMainLight_needs_positive_score (lights : list Light) :
  (forall light, In light lights -> Spec.directional light = true ->
     Float.le (GetIntensityDivisor light) Float.zero = true) ->
  FindMainLight lights = None.
Proof.
  intros Hle. rewrite FindMainLight_main_light. unfold Spec.main_light.
  apply find_all_false. intros light Hin.
  unfold Spec.top_light, Spec.candidate_above.
  destruct (Spec.directional light) eqn:Hdir; [simpl|reflexivity].
  rewrite (le_not_gt _ _ (Hle light Hin Hdir)). reflexivity.
Qed.

(** *** Pipeline state cache *)

Lemma hashes_differ_true (live : LiveHashes) (key : SubPassPipelineStateKey.t)
    (entry : SubPassPipelineStateEntry.t) :
  SubPassPipelineStateCache.hashes_differ live key entry = Ok true ->
  ~ Spec.hashes_match live key entry.
Proof.
  unfold SubPassPipelineStateCache.hashes_differ, Spec.hashes_match, hash_through.
  destruct (SubPassPipelineStateKey.geometry_ key) as [g|]; simpl; [|discriminate].
  destruct (Z.eqb_spec (geometry_hash live g)
              (SubPassPipelineStateEntry.geometryHash_ entry)) as [Hg|Hg]; simpl.
  2:{ intros _ (H & _ & _). congruence. }
  destruct (SubPassPipelineStateKey.material_ key) as [m|]; simpl; [|discriminate].
  destruct (Z.eqb_spec (material_hash live m)
              (SubPassPipelineStateEntry.materialHash_ entry)) as [Hm|Hm]; simpl.
  2:{ intros _ (_ & H & _). congruence. }
  destruct (SubPassPipelineStateKey.pass_ key) as [p|]; simpl; [|discriminate].
  destruct (Z.eqb_spec (pass_hash live p)
              (SubPassPipelineStateEntry.passHash_ entry)) as [Hp|Hp]; simpl.
  - discriminate.
  - intros _ (_ & _ & H). congruence.
Qed.

Lemma hashes_differ_false (live : LiveHashes) (key : SubPassPipelineStateKey.t)
    (entry : SubPassPipelineStateEntry.t) :
  SubPassPipelineStateCache.hashes_differ live key entry = Ok false <->
  Spec.hashes_match live key entry.
Proof.
  unfold SubPassPipelineStateCache.hashes_differ, Spec.hashes_match, hash_through.
  destruct (SubPassPipelineStateKey.geometry_ key) as [g|]; simpl;
    [|split; [discriminate|intros (H & _); discriminate]].
  destruct (Z.eqb_spec (geometry_hash live g)
              (SubPassPipelineStateEntry.geometryHash_ entry)) as [Hg|Hg]; simpl;
    [|split; [discriminate|intros (H & _); congruence]].
  destruct (SubPassPipelineStateKey.material_ key) as [m|]; simpl;
    [|split; [discriminate|intros (_ & H & _); discriminate]].
  destruct (Z.eqb_spec (material_hash live m)
              (SubPassPipelineStateEntry.materialHash_ entry)) as [Hm|Hm]; simpl;
    [|split; [discriminate|intros (_ & H & _); congruence]].
  destruct (SubPassPipelineStateKey.pass_ key) as [p|]; simpl;
    [|split; [discriminate|intros (_ & _ & H); discriminate]].
  destruct (Z.eqb_spec (pass_hash live p)
              (SubPassPipelineStateEntry.passHash_ entry)) as [Hp|Hp]; simpl.
  - split; [intros _|reflexivity]. rewrite Hg, Hm, Hp. repeat split.
  - split; [discriminate|intros (_ & _ & H); congruence].
Qed.

(** C10.  [GetPipelineState] on a key without an entry returns a miss and
    leaves the cache as it is.  Whenever a call changes the cache, the key
    had an entry that was not flagged and whose hashes no longer match the
    live ones, the call is a miss, and the change is the flag of that entry
    and nothing else. *)
Theorem GetPipelineState_miss_leaves_cache (live : LiveHashes)
    (key : SubPassPipelineStateKey.t)
    (cache_ : gmap SubPassPipelineStateKey.t SubPassPipelineStateEntry.t) :
  (cache_ !! key = None ->
   SubPassPipelineStateCache.GetPipelineState live key cache_ = Ok (None, cache_))
  /\ (forall found cache',
        SubPassPipelineStateCache.GetPipelineState live key cache_ = Ok (found, cache') ->
        cache' <> cache_ ->
        exists entry,
          cache_ !! key = Some entry
          /\ SubPassPipelineStateEntry.invalidated_ entry = false
          /\ ~ Spec.hashes_match live key entry
          /\ found = None
          /\ cache' = <[key := SubPassPipelineStateEntry.with_invalidated_ true entry]> cache_).
Proof.
  unfold SubPassPipelineStateCache.GetPipelineState. split.
  - intros Hnone. rewrite Hnone. reflexivity.
  - intros found cache' Hget Hchanged.
    destruct (cache_ !! key) as [entry|] eqn:Hentry.
    2:{ inversion Hget; subst. congruence. }
    destruct (SubPassPipelineStateEntry.invalidated_ entry) eqn:Hflag.
    { inversion Hget; subst. congruence. }
    destruct (SubPassPipelineStateCache.hashes_differ live key entry) as [differ|f] eqn:Hdiff;
      simpl in Hget; [|discriminate].
    destruct differ.
    + inversion Hget; subst. exists entry.
      split; [reflexivity|]. split; [exact Hflag|].
      split; [apply hashes_differ_true; exact Hdiff|].
      split; reflexivity.
    + inversion Hget; subst. congruence.
Qed.

(** *** Lit geometries *)

Lemma TestDrawables_range_appends (contains : Drawable -> bool) (traits : list Z)
    (lightMask : Z) (inside : bool) (range : list Drawable) :
  (forall drawable, In drawable range -> (GetDrawableIndex drawable < length traits)%nat) ->
  forall result_,
    TestDrawables_range contains traits lightMask range inside result_
    = Ok (result_
          ++ List.filter (Spec.lit_by_volume contains traits lightMask inside) range).
Proof.
  induction range as [|drawable rest IH]; intros Hrange result_; simpl.
  - rewrite app_nil_r. reflexivity.
  - unfold at_index, Spec.lit_by_volume at 1, Spec.visible_geometry.
    destruct (lookup_lt_is_Some_2 traits (GetDrawableIndex drawable)
                (Hrange drawable (or_introl eq_refl))) as [t Ht].
    rewrite Ht. simpl.
    rewrite IH by (intros d Hd; apply Hrange; right; exact Hd).
    destruct (truthy (Z.land t TransientDrawableIndex.DrawableVisibleGeometry)); simpl;
      [|reflexivity].
    destruct (truthy (Z.land (GetLightMask drawable) lightMask)); simpl; [|reflexivity].
    destruct (inside || contains drawable); simpl; [|reflexivity].
    rewrite <- app_assoc. reflexivity.
Qed.

Lemma Octree_GetDrawables_appends (contains : Drawable -> bool) (traits : list Z)
    (lightMask : Z) (visits : list (list Drawable * bool)) :
  Spec.visits_in_range traits visits ->
  forall result_,
    Octree_GetDrawables (fun range inside result_ =>
                           TestDrawables_range contains traits lightMask range inside result_)
      visits result_
    = Ok (result_ ++ Spec.volume_query contains traits lightMask visits).
Proof.
  induction visits as [|[range inside] rest IH]; intros Hrange result_; simpl.
  - rewrite app_nil_r. reflexivity.
  - rewrite TestDrawables_range_appends
      by (intros d Hd; apply (Hrange range inside d); [left; reflexivity|exact Hd]).
    simpl. rewrite IH.
    + rewrite <- app_assoc. reflexivity.
    + intros r i d Hr Hd. apply (Hrange r i d); [right; exact Hr|exact Hd].
Qed.

(** C6.  For a directional light [CollectLitGeometries] appends exactly the
    visible geometries whose light mask meets the mask of the light, in
    their order, and asks the octree nothing; where the list of visible
    geometries and the trait are in sync, as the collection of source
    batches leaves them, these drawables have the visible geometry trait.
    For a spot light it appends
    what the frustum query keeps of the drawables the octree shows it, and
    for a point light what the sphere query keeps: the drawables with the
    visible geometry trait whose light mask meets the effective mask of the
    light and that the volume contains. *)
Theorem CollectLitGeometries_selects (s : SceneBatchCollector) (light : Light)
    (lightData : LightData.t) :
  (GetLightType light = LIGHT_DIRECTIONAL ->
   CollectLitGeometries s light lightData
   = Ok (LightData.mk
           (LightData.litGeometries_ lightData
            ++ List.filter
                 (fun drawable =>
                    truthy (Z.land (GetLightMask drawable) (GetLightMask light)))
                 (ThreadedVector.elements (visibleGeometries_ s))))
   /\ forall result drawable,
        CollectLitGeometries s light (LightData.Clear lightData) = Ok result ->
        (In drawable (LightData.litGeometries_ result) <->
         In drawable (ThreadedVector.elements (visibleGeometries_ s))
         /\ Z.land (GetLightMask drawable) (GetLightMask light) <> 0)
        /\ (Spec.visible_in_sync (traits_ s)
              (ThreadedVector.elements (visibleGeometries_ s)) ->
            In drawable (LightData.litGeometries_ result) ->
            Spec.visible_geometry (traits_ s) drawable = true))
  /\ (GetLightType light = LIGHT_SPOT ->
      Spec.visits_in_range (traits_ s) (FrustumOctreeQuery_GetDrawables light) ->
      CollectLitGeometries s light lightData
      = Ok (LightData.mk
              (LightData.litGeometries_ lightData
               ++ Spec.volume_query (Frustum_IsInsideFast light) (traits_ s)
                    (GetLightMaskEffective light) (FrustumOctreeQuery_GetDrawables light))))
  /\ (GetLightType light = LIGHT_POINT ->
      Spec.visits_in_range (traits_ s) (SphereOctreeQuery_GetDrawables light) ->
      CollectLitGeometries s light lightData
      = Ok (LightData.mk
              (LightData.litGeometries_ lightData
               ++ Spec.volume_query (Sphere_IsInsideFast light) (traits_ s)
                    (GetLightMaskEffective light) (SphereOctreeQuery_GetDrawables light)))).
Proof.
  unfold CollectLitGeometries. split; [|split].
  - intros Htype. rewrite Htype. split; [reflexivity|].
    intros result drawable Hresult. inversion Hresult; subst; clear Hresult. simpl.
    rewrite filter_In. unfold truthy. rewrite negb_true_iff, Z.eqb_neq.
    split; [reflexivity|].
    intros [Hlist _] [Hin _]. apply Hlist. exact Hin.
  - intros Htype Hrange. rewrite Htype.
    unfold SpotLightLitGeometriesQuery_TestDrawables.
    rewrite (Octree_GetDrawables_appends (Frustum_IsInsideFast light) (traits_ s)
               (GetLightMaskEffective light) _ Hrange).
    reflexivity.
  - intros Htype Hrange. rewrite Htype.
    unfold PointLightLitGeometriesQuery_TestDrawables.
    rewrite (Octree_GetDrawables_appends (Sphere_IsInsideFast light) (traits_ s)
               (GetLightMaskEffective light) _ Hrange).
    reflexivity.
Qed.

(** *** What the cache stores *)

(** [GetOrCreatePipelineState] on a key without an entry calls the factory
    and stores its state in a value-initialised entry: the three hashes of
    the entry are 0, whatever the live hashes are. *)
Lemma GetOrCreatePipelineState_new_key (drawable : option Drawable)
    (key : SubPassPipelineStateKey.t) (factoryContext : SubPassPipelineStateContext.t)
    (factory : ScenePipelineStateFactory) (live : LiveHashes) (calls : list FactoryCall)
    (cache_ : gmap SubPassPipelineStateKey.t SubPassPipelineStateEntry.t) :
  cache_ !! key = None ->
  exists call,
    SubPassPipelineStateCache.GetOrCreatePipelineState drawable key factoryContext factory
      live calls cache_
    = Ok (factory calls call,
          <[key := SubPassPipelineStateEntry.mk 0 0 0 (factory calls call) false]> cache_,
          calls ++ [call]).
Proof.
  intros Hnone. unfold SubPassPipelineStateCache.GetOrCreatePipelineState.
  rewrite Hnone. simpl. eexists. reflexivity.
Qed.

(** After it, [GetPipelineState] with the same key and the same live hashes
    finds the state only when the three live hashes are 0. *)
Lemma GetPipelineState_after_create (drawable : option Drawable)
    (key : SubPassPipelineStateKey.t) (factoryContext : SubPassPipelineStateContext.t)
    (factory : ScenePipelineStateFactory) (live : LiveHashes) (calls : list FactoryCall)
    (cache_ : gmap SubPassPipelineStateKey.t SubPassPipelineStateEntry.t)
    (created : option PipelineState)
    (cache' : gmap SubPassPipelineStateKey.t SubPassPipelineStateEntry.t)
    (calls' : list FactoryCall) :
  cache_ !! key = None ->
  SubPassPipelineStateCache.GetOrCreatePipelineState drawable key factoryContext factory
    live calls cache_ = Ok (created, cache', calls') ->
  ~ Spec.hashes_match live key (SubPassPipelineStateEntry.mk 0 0 0 created false) ->
  forall found cache'',
    SubPassPipelineStateCache.GetPipelineState live key cache' = Ok (found, cache'') ->
    found = None.
Proof.
  intros Hnone Hcreate Hlive found cache'' Hget.
  destruct (GetOrCreatePipelineState_new_key drawable key factoryContext factory live calls
              cache_ Hnone) as [call Heq].
  rewrite Heq in Hcreate. inversion Hcreate; subst; clear Hcreate.
  unfold SubPassPipelineStateCache.GetPipelineState in Hget.
  rewrite lookup_insert_eq in Hget. simpl in Hget.
  destruct (SubPassPipelineStateCache.hashes_differ live key _) as [differ|f] eqn:Hdiff;
    simpl in Hget; [|discriminate].
  destruct differ.
  - inversion Hget. reflexivity.
  - apply hashes_differ_false in Hdiff. contradiction.
Qed.

(** *** The distance test *)

(** A drawable beyond its draw distance gets the updated trait, and the
    call returns: the state is otherwise as it was, and the drawables after
    it in the range are not looked at. *)
Lemma UpdateAndCollectSourceBatchesForThread_too_far (threadIndex : nat)
    (drawable : Drawable) (rest : list Drawable) (s : SceneBatchCollector) (t : Z) :
  traits_ s !! GetDrawableIndex drawable = Some t ->
  Float.gt (GetDrawDistance (UpdateBatches drawable)) Float.zero = true ->
  Float.gt (GetDistance (UpdateBatches drawable)) (GetDrawDistance (UpdateBatches drawable))
  = true ->
  UpdateAndCollectSourceBatchesForThread threadIndex (drawable :: rest) s
  = Ok (with_traits_
          (<[GetDrawableIndex drawable := Z.lor t TransientDrawableIndex.DrawableUpdated]>
             (traits_ s)) s).
Proof.
  intros Ht Hmax Hfar. simpl. unfold update_index. rewrite Ht. simpl.
  rewrite Hmax, Hfar. reflexivity.
Qed.

(** *** The list of visible geometries and the trait *)

Lemma lor_other_bit (t x : Z) :
  Z.land x TransientDrawableIndex.DrawableVisibleGeometry = 0 ->
  Z.land (Z.lor t x) TransientDrawableIndex.DrawableVisibleGeometry
  = Z.land t TransientDrawableIndex.DrawableVisibleGeometry.
Proof. intros Hx. rewrite Z.land_lor_distr_l, Hx, Z.lor_0_r. reflexivity. Qed.

Lemma update_other_bit (traits traits' : list Z) (idx : nat) (x : Z) :
  Z.land x TransientDrawableIndex.DrawableVisibleGeometry = 0 ->
  update_index traits idx (fun t => Z.lor t x) = Ok traits' ->
  forall i, Spec.visible_bit traits' i = Spec.visible_bit traits i.
Proof.
  unfold update_index. intros Hx Hupd i.
  destruct (traits !! idx) as [t|] eqn:Ht; [|discriminate].
  inversion Hupd; subst; clear Hupd. unfold Spec.visible_bit.
  destruct (decide (i = idx)) as [->|Hne].
  - rewrite list_lookup_insert_eq by (eapply lookup_lt_Some; exact Ht).
    rewrite Ht, (lor_other_bit t x Hx). reflexivity.
  - rewrite list_lookup_insert_ne by congruence. reflexivity.
Qed.

Lemma update_visible_bit (traits traits' : list Z) (idx : nat) :
  update_index traits idx
    (fun t => Z.lor t TransientDrawableIndex.DrawableVisibleGeometry) = Ok traits' ->
  Spec.visible_bit traits' idx = true
  /\ forall i, i <> idx -> Spec.visible_bit traits' i = Spec.visible_bit traits i.
Proof.
  unfold update_index. intros Hupd.
  destruct (traits !! idx) as [t|] eqn:Ht; [|discriminate].
  inversion Hupd; subst; clear Hupd. unfold Spec.visible_bit. split.
  - rewrite list_lookup_insert_eq by (eapply lookup_lt_Some; exact Ht).
    unfold truthy. apply negb_true_iff, Z.eqb_neq.
    rewrite Z.land_lor_distr_l. intros H0. apply Z.lor_eq_0_iff in H0.
    destruct H0 as [_ H0]. vm_compute in H0. discriminate.
  - intros i Hne. rewrite list_lookup_insert_ne by congruence. reflexivity.
Qed.

Lemma Insert_elements {T : Type} (threadIndex : nat) (x : T)
    (v v' : list (list T)) :
  ThreadedVector.Insert threadIndex x v = Ok v' ->
  forall y, In y (ThreadedVector.elements v') <-> In y (ThreadedVector.elements v) \/ y = x.
Proof.
  unfold ThreadedVector.Insert, update_index, ThreadedVector.elements. intros Hins y.
  destruct (v !! threadIndex) as [bucket|] eqn:Hb; [|discriminate].
  inversion Hins; subst; clear Hins.
  rewrite insert_take_drop by (eapply lookup_lt_Some; exact Hb).
  rewrite <- (take_drop_middle v threadIndex bucket Hb) at 3.
  rewrite !concat_app. simpl. rewrite !in_app_iff. simpl.
  split; intros H; repeat destruct H as [H|H]; subst; auto; contradiction.
Qed.

Lemma CollectSourceBatches_passes_bit (threadIndex drawableIndex : nat) (drawable : Drawable)
    (i : nat) (technique : Technique) (passes : list PassData.t) :
  forall traits passes' traits',
    CollectSourceBatches_passes threadIndex drawableIndex drawable i technique passes traits
    = Ok (passes', traits') ->
    forall j, Spec.visible_bit traits' j = Spec.visible_bit traits j.
Proof.
  induction passes as [|pass rest IH]; intros traits passes' traits' Hrun j; simpl in Hrun.
  - inversion Hrun; subst. reflexivity.
  - destruct (non_null _) in Hrun.
    + destruct (update_index traits drawableIndex _) as [traits1|] eqn:Hupd;
        simpl in Hrun; [|discriminate].
      destruct (ThreadedVector.Insert threadIndex _ _) as [lit|]; simpl in Hrun;
        [|discriminate].
      destruct (CollectSourceBatches_passes _ _ _ _ _ rest traits1) as [[rest' traits2]|]
        eqn:Hrest; simpl in Hrun; [|discriminate].
      inversion Hrun; subst; clear Hrun.
      rewrite (IH _ _ _ Hrest j).
      apply (update_other_bit _ _ _ TransientDrawableIndex.ForwardLit eq_refl Hupd).
    + destruct (non_null _) in Hrun.
      * destruct (ThreadedVector.Insert threadIndex _ _) as [unlit|]; simpl in Hrun;
          [|discriminate].
        destruct (CollectSourceBatches_passes _ _ _ _ _ rest traits) as [[rest' traits2]|]
          eqn:Hrest; simpl in Hrun; [|discriminate].
        inversion Hrun; subst; clear Hrun. apply (IH _ _ _ Hrest j).
      * simpl in Hrun.
        destruct (CollectSourceBatches_passes _ _ _ _ _ rest traits) as [[rest' traits2]|]
          eqn:Hrest; simpl in Hrun; [|discriminate].
        inversion Hrun; subst; clear Hrun. apply (IH _ _ _ Hrest j).
Qed.

Lemma CollectSourceBatches_batches_bit (threadIndex drawableIndex : nat) (drawable : Drawable)
    (materialQuality : Z) (defaultMaterial : Material) (sourceBatches : list SourceBatch.t) :
  forall i passes traits passes' traits',
    CollectSourceBatches_batches threadIndex drawableIndex drawable materialQuality
      defaultMaterial i sourceBatches passes traits = Ok (passes', traits') ->
    forall j, Spec.visible_bit traits' j = Spec.visible_bit traits j.
Proof.
  induction sourceBatches as [|sourceBatch rest IH];
    intros i passes traits passes' traits' Hrun j; simpl in Hrun.
  - inversion Hrun; subst. reflexivity.
  - destruct (FindTechnique _ _ _) as [technique|].
    + destruct (CollectSourceBatches_passes _ _ _ _ _ passes traits) as [[passes1 traits1]|]
        eqn:Hpasses; simpl in Hrun; [|discriminate].
      rewrite (IH _ _ _ _ _ Hrun j).
      apply (CollectSourceBatches_passes_bit _ _ _ _ _ _ _ _ _ Hpasses).
    + simpl in Hrun. apply (IH _ _ _ _ _ Hrun j).
Qed.

Lemma visible_geometry_bit (traits : list Z) (drawable : Drawable) :
  Spec.visible_geometry traits drawable
  = Spec.visible_bit traits (GetDrawableIndex drawable).
Proof. reflexivity. Qed.

(** A change of the traits that leaves the visible geometry trait of every
    slot as it is keeps the list and the trait in sync. *)
Lemma visible_in_sync_same_bits (traits traits' : list Z) (visible : list Drawable) :
  (forall j, Spec.visible_bit traits' j = Spec.visible_bit traits j) ->
  Spec.visible_in_sync traits visible -> Spec.visible_in_sync traits' visible.
Proof.
  intros Hsame [Hlist Hslot]. split.
  - intros d Hd. rewrite visible_geometry_bit, Hsame. apply Hlist. exact Hd.
  - intros j Hj. rewrite Hsame in Hj. apply Hslot. exact Hj.
Qed.

(** The branch of a geometry keeps the list and the trait in sync. *)
Lemma CollectSourceBatches_geometry_in_sync (threadIndex : nat) (drawable : Drawable)
    (s s' : SceneBatchCollector) :
  CollectSourceBatches_geometry threadIndex (GetDrawableIndex drawable) drawable s = Ok s' ->
  Spec.visible_in_sync (traits_ s) (ThreadedVector.elements (visibleGeometries_ s)) ->
  Spec.visible_in_sync (traits_ s') (ThreadedVector.elements (visibleGeometries_ s')).
Proof.
  unfold CollectSourceBatches_geometry. intros Hrun [Hlist Hslot].
  set (s1 := match Evaluate drawable with
             | Some range => _
             | None => _
             end) in Hrun.
  assert (forall s0, s1 = Ok s0 ->
            traits_ s0 = traits_ s /\ visibleGeometries_ s0 = visibleGeometries_ s) as Hs1.
  { intros s0 Hs0. unfold s1 in Hs0. destruct (Evaluate drawable) as [range|].
    - destruct (update_index (zRange_ s) _ _) as [z|]; simpl in Hs0; [|discriminate].
      destruct (ThreadedVector.Insert threadIndex range _) as [scene|]; simpl in Hs0;
        [|discriminate].
      inversion Hs0; subst. split; reflexivity.
    - destruct (update_index (zRange_ s) _ _) as [z|]; simpl in Hs0; [|discriminate].
      inversion Hs0; subst. split; reflexivity. }
  destruct s1 as [s0|]; simpl in Hrun; [|discriminate].
  destruct (Hs1 s0 eq_refl) as [Htraits Hvisible]. clear Hs1.
  destruct (ThreadedVector.Insert threadIndex drawable (visibleGeometries_ s0))
    as [visible|] eqn:Hins; simpl in Hrun; [|discriminate].
  rewrite Htraits in Hrun. rewrite Hvisible in Hins.
  destruct (update_index (traits_ s) _ _) as [traits1|] eqn:Hupd; simpl in Hrun;
    [|discriminate].
  destruct (CollectSourceBatches_batches _ _ _ _ _ _ _ _ traits1) as [[passes traits2]|]
    eqn:Hbatches; simpl in Hrun; [|discriminate].
  destruct (update_index (drawableLighting_ s0) _ _) as [lighting|]; simpl in Hrun;
    [|discriminate].
  inversion Hrun; subst; clear Hrun. simpl.
  apply (visible_in_sync_same_bits traits1);
    [apply (CollectSourceBatches_batches_bit _ _ _ _ _ _ _ _ _ _ _ Hbatches)|].
  destruct (update_visible_bit _ _ _ Hupd) as [Hset Hothers].
  pose proof (Insert_elements _ _ _ _ Hins) as Hin.
  split.
  - intros d Hd. rewrite visible_geometry_bit. apply Hin in Hd. destruct Hd as [Hd| ->].
    + destruct (decide (GetDrawableIndex d = GetDrawableIndex drawable)) as [Heq|Hne].
      * rewrite Heq. exact Hset.
      * rewrite (Hothers _ Hne). apply (Hlist d Hd).
    + exact Hset.
  - intros j Hj. destruct (decide (j = GetDrawableIndex drawable)) as [->|Hne].
    + exists drawable. split; [apply Hin; right; reflexivity|reflexivity].
    + rewrite (Hothers _ Hne) in Hj. destruct (Hslot j Hj) as (d & Hd & Hidx).
      exists d. split; [apply Hin; left; exact Hd|exact Hidx].
Qed.

(** [UpdateAndCollectSourceBatchesForThread] keeps the list of visible
    geometries and the visible geometry trait in sync, as long as
    [UpdateBatches] leaves the index of a drawable as it is. *)
Lemma UpdateAndCollectSourceBatchesForThread_in_sync (threadIndex : nat)
    (drawables : list Drawable) :
  (forall drawable, GetDrawableIndex (UpdateBatches drawable) = GetDrawableIndex drawable) ->
  forall s s',
    UpdateAndCollectSourceBatchesForThread threadIndex drawables s = Ok s' ->
    Spec.visible_in_sync (traits_ s) (ThreadedVector.elements (visibleGeometries_ s)) ->
    Spec.visible_in_sync (traits_ s') (ThreadedVector.elements (visibleGeometries_ s')).
Proof.
  intros Hindex. induction drawables as [|drawable rest IH]; intros s s' Hrun Hsync;
    simpl in Hrun.
  - inversion Hrun; subst. exact Hsync.
  - destruct (update_index (traits_ s) _ _) as [traits1|] eqn:Hupd; simpl in Hrun;
      [|discriminate].
    assert (Spec.visible_in_sync traits1 (ThreadedVector.elements (visibleGeometries_ s)))
      as Hsync1.
    { apply (visible_in_sync_same_bits (traits_ s)); [|exact Hsync].
      apply (update_other_bit _ _ _ TransientDrawableIndex.DrawableUpdated eq_refl Hupd). }
    destruct (Float.gt _ _ && Float.gt _ _).
    + inversion Hrun; subst. exact Hsync1.
    + destruct (truthy (Z.land (GetDrawableFlags (UpdateBatches drawable)) DRAWABLE_GEOMETRY)).
      * rewrite <- (Hindex drawable) in Hrun.
        destruct (CollectSourceBatches_geometry _ _ _ _) as [s1|] eqn:Hgeometry;
          simpl in Hrun; [|discriminate].
        apply (IH _ _ Hrun).
        apply (CollectSourceBatches_geometry_in_sync _ _ _ _ Hgeometry). exact Hsync1.
      * destruct (truthy (Z.land (GetDrawableFlags (UpdateBatches drawable)) DRAWABLE_LIGHT)).
        -- unfold CollectSourceBatches_light in Hrun.
           destruct (negb _ && negb _).
           ++ destruct (ThreadedVector.Insert threadIndex _ _) as [lights|];
                simpl in Hrun; [|discriminate].
              apply (IH _ _ Hrun). exact Hsync1.
           ++ simpl in Hrun. apply (IH _ _ Hrun). exact Hsync1.
        -- simpl in Hrun. apply (IH _ _ Hrun). exact Hsync1.
Qed.

(** [InitializeFrame] leaves no visible geometry and no trait. *)
Lemma InitializeFrame_in_sync (frameInfo : FrameInfo) (s : SceneBatchCollector) :
  Spec.visible_in_sync (traits_ (InitializeFrame frameInfo s))
    (ThreadedVector.elements (visibleGeometries_ (InitializeFrame frameInfo s))).
Proof.
  simpl. unfold ThreadedVector.Clear, ThreadedVector.elements. split.
  - intros d Hd. exfalso. revert Hd.
    generalize (frame_numWorkerThreads frameInfo + 1)%nat. intros n.
    induction n as [|n IH]; simpl; auto.
  - intros j Hj. unfold Spec.visible_bit in Hj.
    destruct (replicate (frame_numDrawables frameInfo) 0 !! j) as [t|] eqn:Ht;
      [|discriminate].
    apply lookup_replicate in Ht. destruct Ht as [-> _]. discriminate.
Qed.

Lemma InitializePasses_frame (passes : list ScenePassDescription)
    (s s' : SceneBatchCollector) :
  InitializePasses passes s = Ok s' ->
  traits_ s' = traits_ s /\ visibleGeometries_ s' = visibleGeometries_ s.
Proof.
  unfold InitializePasses. intros Hrun.
  destruct (InitializePasses_loop _ _ _) as [passes'|]; simpl in Hrun; [|discriminate].
  inversion Hrun; subst. split; reflexivity.
Qed.


(** *** Passes that are not valid *)

Lemma vector_resize_length {A : Type} (n : nat) (dflt : A) (v : list A) :
  length (vector_resize n dflt v) = n.
Proof.
  unfold vector_resize. rewrite length_app, length_take, length_replicate. lia.
Qed.

(** Where assertions are dropped, the first loop of [InitializePasses] keeps
    every pass it is given, valid or not. *)
Lemma InitializePasses_loop_keeps (numThreads : nat) (passes : list ScenePassDescription) :
  NDEBUG = true ->
  forall passes_ : list PassData.t,
    length passes_ = length passes ->
    exists initialised,
      InitializePasses_loop numThreads passes passes_ = Ok initialised
      /\ map PassData.desc_ initialised = passes.
Proof.
  intros Hndebug. induction passes as [|desc rest IH]; intros [|passData passes_] Hlen;
    simpl in Hlen; try discriminate.
  - exists []. split; reflexivity.
  - destruct (IH passes_) as (initialised & Hrest & Hdesc); [lia|].
    simpl. unfold InitializePasses_pass. rewrite Hndebug.
    destruct (negb (PassData.IsValid _)); simpl; rewrite Hrest; simpl;
      eexists; (split; [reflexivity|]); simpl; rewrite Hdesc; reflexivity.
Qed.

Lemma InitializePasses_lookup_grows (passes_ : list PassData.t) :
  forall (i : nat) (lookup : gmap Z (nat * bool)) (passIndex : Z),
    is_Some (lookup !! passIndex) ->
    is_Some (InitializePasses_lookup i passes_ lookup !! passIndex).
Proof.
  induction passes_ as [|passData rest IH]; intros i lookup passIndex Hsome; simpl;
    [exact Hsome|].
  assert (forall (k : Z) (v : nat * bool) (m : gmap Z (nat * bool)),
            is_Some (m !! passIndex) -> is_Some (<[k := v]> m !! passIndex)) as Hins.
  { intros k v m Hm. destruct (decide (k = passIndex)) as [->|Hne].
    - rewrite lookup_insert_eq. eauto.
    - rewrite lookup_insert_ne by exact Hne. exact Hm. }
  apply IH.
  destruct (negb (PassData.litBasePassIndex_ passData =? M_MAX_UNSIGNED));
    destruct (negb (PassData.unlitBasePassIndex_ passData =? M_MAX_UNSIGNED));
    auto.
Qed.

(** The second loop registers the base sub-pass of every pass of [passes_]
    that has one, valid or not. *)
Lemma InitializePasses_lookup_registers (passes_ : list PassData.t) :
  forall (i : nat) (lookup : gmap Z (nat * bool)) (passData : PassData.t),
    In passData passes_ ->
    Spec.present (PassData.unlitBasePassIndex_ passData) = true ->
    is_Some (InitializePasses_lookup i passes_ lookup
               !! PassData.unlitBasePassIndex_ passData).
Proof.
  induction passes_ as [|first rest IH]; intros i lookup passData Hin Hpresent;
    [destruct Hin|].
  destruct Hin as [->|Hin]; [|simpl; apply IH; assumption].
  simpl. apply InitializePasses_lookup_grows.
  unfold Spec.present in Hpresent. rewrite Hpresent.
  destruct (negb (PassData.litBasePassIndex_ passData =? M_MAX_UNSIGNED)).
  - destruct (decide (PassData.litBasePassIndex_ passData
                      = PassData.unlitBasePassIndex_ passData)) as [Heq|Hne].
    + rewrite Heq, lookup_insert_eq. eauto.
    + rewrite lookup_insert_ne by exact Hne. rewrite lookup_insert_eq. eauto.
  - rewrite lookup_insert_eq. eauto.
Qed.

(** Where assertions are dropped, [InitializePasses] returns with every pass
    description in [passes_], and with the base sub-pass of every one of
    them registered for lookup. *)
Lemma InitializePasses_keeps_every_pass (passes : list ScenePassDescription)
    (s : SceneBatchCollector) :
  NDEBUG = true ->
  exists s',
    InitializePasses passes s = Ok s'
    /\ map PassData.desc_ (passes_ s') = passes
    /\ forall passData,
         In passData (passes_ s') ->
         Spec.present (PassData.unlitBasePassIndex_ passData) = true ->
         is_Some (baseBatchesLookup_ s' !! PassData.unlitBasePassIndex_ passData).
Proof.
  intros Hndebug. unfold InitializePasses.
  destruct (InitializePasses_loop_keeps (numThreads_ s) passes Hndebug
              (vector_resize (length passes) PassData.empty (passes_ s)))
    as (initialised & Hloop & Hdesc); [apply vector_resize_length|].
  rewrite Hloop. simpl. eexists. split; [reflexivity|]. simpl. split; [exact Hdesc|].
  intros passData Hin Hpresent. apply InitializePasses_lookup_registers; assumption.
Qed.

(** *** More on the pipeline state cache *)

(** X1.  [GetPipelineState] finds the state of an entry that is not flagged and
    whose three hashes are the live ones, and leaves the cache as it is. *)
Theorem GetPipelineState_hit (live : LiveHashes) (key : SubPassPipelineStateKey.t)
    (cache_ : gmap SubPassPipelineStateKey.t SubPassPipelineStateEntry.t)
    (entry : SubPassPipelineStateEntry.t) :
  cache_ !! key = Some entry ->
  SubPassPipelineStateEntry.invalidated_ entry = false ->
  Spec.hashes_match live key entry ->
  SubPassPipelineStateCache.GetPipelineState live key cache_
  = Ok (SubPassPipelineStateEntry.pipelineState_ entry, cache_).
Proof.
  intros Hentry Hflag Hmatch. unfold SubPassPipelineStateCache.GetPipelineState.
  rewrite Hentry, Hflag. apply hashes_differ_false in Hmatch. rewrite Hmatch. reflexivity.
Qed.

(** X2.  Once a lookup has flagged an entry, every later lookup of the key is a
    miss that changes nothing, whatever the live hashes have become: the
    pointers of the key are not even dereferenced. *)
Theorem GetPipelineState_flag_stays (live : LiveHashes) (key : SubPassPipelineStateKey.t)
    (cache_ cache' : gmap SubPassPipelineStateKey.t SubPassPipelineStateEntry.t)
    (found : option PipelineState) :
  SubPassPipelineStateCache.GetPipelineState live key cache_ = Ok (found, cache') ->
  cache' <> cache_ ->
  forall live' : LiveHashes,
    SubPassPipelineStateCache.GetPipelineState live' key cache' = Ok (None, cache').
Proof.
  unfold SubPassPipelineStateCache.GetPipelineState. intros Hget Hchanged live'.
  destruct (cache_ !! key) as [entry|] eqn:Hentry.
  2:{ inversion Hget; subst. congruence. }
  destruct (SubPassPipelineStateEntry.invalidated_ entry) eqn:Hflag.
  { inversion Hget; subst. congruence. }
  destruct (SubPassPipelineStateCache.hashes_differ live key entry) as [differ|f];
    simpl in Hget; [|discriminate].
  destruct differ; inversion Hget; subst; [|congruence].
  rewrite lookup_insert_eq. reflexivity.
Qed.

(** X3.  What [GetOrCreatePipelineState] leaves when it returns: the entry of the
    key holds the state returned and is not flagged, the entries of the
    other keys are as before, and the factory was called at most once, with
    the camera of the context, the drawable and the pointers of the key, the
    state returned being its answer. *)
Theorem GetOrCreatePipelineState_stores (drawable : option Drawable)
    (key : SubPassPipelineStateKey.t) (factoryContext : SubPassPipelineStateContext.t)
    (factory : ScenePipelineStateFactory) (live : LiveHashes) (calls calls' : list FactoryCall)
    (cache_ cache' : gmap SubPassPipelineStateKey.t SubPassPipelineStateEntry.t)
    (state : option PipelineState) :
  SubPassPipelineStateCache.GetOrCreatePipelineState drawable key factoryContext factory
    live calls cache_ = Ok (state, cache', calls') ->
  (exists entry,
     cache' !! key = Some entry
     /\ SubPassPipelineStateEntry.pipelineState_ entry = state
     /\ SubPassPipelineStateEntry.invalidated_ entry = false)
  /\ (forall other, other <> key -> cache' !! other = cache_ !! other)
  /\ (calls' = calls
      \/ calls' = calls ++ [Spec.factory_call factoryContext drawable key]
         /\ state = factory calls (Spec.factory_call factoryContext drawable key)).
Proof.
  unfold SubPassPipelineStateCache.GetOrCreatePipelineState. intros Hrun.
  set (entry := default SubPassPipelineStateEntry.empty (cache_ !! key)) in Hrun.
  destruct (non_null (SubPassPipelineStateEntry.pipelineState_ entry)) eqn:Hstate;
    simpl in Hrun.
  - destruct (SubPassPipelineStateEntry.invalidated_ entry) eqn:Hflag; simpl in Hrun.
    + inversion Hrun; subst; clear Hrun. split; [|split].
      * eexists. rewrite lookup_insert_eq. split; [reflexivity|]. split; reflexivity.
      * intros other Hne. rewrite lookup_insert_ne by congruence. reflexivity.
      * right. split; reflexivity.
    + destruct (SubPassPipelineStateCache.hashes_differ live key entry) as [differ|f];
        simpl in Hrun; [|discriminate].
      destruct differ; inversion Hrun; subst; clear Hrun; (split; [|split]).
      * eexists. rewrite lookup_insert_eq. split; [reflexivity|]. split; reflexivity.
      * intros other Hne. rewrite lookup_insert_ne by congruence. reflexivity.
      * right. split; reflexivity.
      * exists entry. rewrite lookup_insert_eq. split; [reflexivity|].
        split; [reflexivity|exact Hflag].
      * intros other Hne. rewrite lookup_insert_ne by congruence. reflexivity.
      * left. reflexivity.
  - inversion Hrun; subst; clear Hrun. split; [|split].
    + eexists. rewrite lookup_insert_eq. split; [reflexivity|]. split; reflexivity.
    + intros other Hne. rewrite lookup_insert_ne by congruence. reflexivity.
    + right. split; reflexivity.
Qed.

(** X4.  [GetOrCreatePipelineState] on an entry that holds a state, is not
    flagged and whose hashes are the live ones returns that state: the
    factory is not called and the cache is as before. *)
Theorem GetOrCreatePipelineState_hit (drawable : option Drawable)
    (key : SubPassPipelineStateKey.t) (factoryContext : SubPassPipelineStateContext.t)
    (factory : ScenePipelineStateFactory) (live : LiveHashes) (calls : list FactoryCall)
    (cache_ : gmap SubPassPipelineStateKey.t SubPassPipelineStateEntry.t)
    (entry : SubPassPipelineStateEntry.t) :
  cache_ !! key = Some entry ->
  non_null (SubPassPipelineStateEntry.pipelineState_ entry) = true ->
  SubPassPipelineStateEntry.invalidated_ entry = false ->
  Spec.hashes_match live key entry ->
  SubPassPipelineStateCache.GetOrCreatePipelineState drawable key factoryContext factory
    live calls cache_
  = Ok (SubPassPipelineStateEntry.pipelineState_ entry, cache_, calls).
Proof.
  intros Hentry Hstate Hflag Hmatch.
  unfold SubPassPipelineStateCache.GetOrCreatePipelineState.
  rewrite Hentry. simpl. rewrite Hstate, Hflag. simpl.
  apply hashes_differ_false in Hmatch. rewrite Hmatch. simpl.
  rewrite (insert_id cache_ key entry Hentry). reflexivity.
Qed.

(** X5.  [GetOrCreatePipelineState] on an entry that is flagged, or that holds
    no state, calls the factory once and stores its answer with the flag
    cleared.  It does so without dereferencing the pointers of the key, so
    it returns even when one of them is null. *)
Theorem GetOrCreatePipelineState_recreates (drawable : option Drawable)
    (key : SubPassPipelineStateKey.t) (factoryContext : SubPassPipelineStateContext.t)
    (factory : ScenePipelineStateFactory) (live : LiveHashes) (calls : list FactoryCall)
    (cache_ : gmap SubPassPipelineStateKey.t SubPassPipelineStateEntry.t)
    (entry : SubPassPipelineStateEntry.t) :
  cache_ !! key = Some entry ->
  SubPassPipelineStateEntry.invalidated_ entry = true
  \/ SubPassPipelineStateEntry.pipelineState_ entry = None ->
  exists cache',
    SubPassPipelineStateCache.GetOrCreatePipelineState drawable key factoryContext factory
      live calls cache_
    = Ok (factory calls (Spec.factory_call factoryContext drawable key), cache',
          calls ++ [Spec.factory_call factoryContext drawable key])
    /\ exists entry',
         cache' !! key = Some entry'
         /\ SubPassPipelineStateEntry.pipelineState_ entry'
            = factory calls (Spec.factory_call factoryContext drawable key)
         /\ SubPassPipelineStateEntry.invalidated_ entry' = false
         /\ SubPassPipelineStateEntry.geometryHash_ entry'
            = SubPassPipelineStateEntry.geometryHash_ entry
         /\ SubPassPipelineStateEntry.materialHash_ entry'
            = SubPassPipelineStateEntry.materialHash_ entry
         /\ SubPassPipelineStateEntry.passHash_ entry'
            = SubPassPipelineStateEntry.passHash_ entry.
Proof.
  intros Hentry Hstale.
  unfold SubPassPipelineStateCache.GetOrCreatePipelineState.
  rewrite Hentry. simpl.
  assert ((if negb (non_null (SubPassPipelineStateEntry.pipelineState_ entry))
           then Ok true
           else if SubPassPipelineStateEntry.invalidated_ entry then Ok true
                else SubPassPipelineStateCache.hashes_differ live key entry) = Ok true)
    as Hcreate.
  { destruct Hstale as [Hflag|Hnone].
    - rewrite Hflag. destruct (negb _); reflexivity.
    - rewrite Hnone. reflexivity. }
  rewrite Hcreate. simpl.
  eexists. split; [reflexivity|].
  eexists. rewrite lookup_insert_eq. split; [reflexivity|].
  repeat split; reflexivity.
Qed.

(** *** More on the initialisation of passes *)

Lemma IsValid_with_desc (desc : ScenePassDescription) (passData : PassData.t) :
  PassData.IsValid
    (PassData.with_desc desc (GetPassIndex (unlitBasePassName_ desc))
       (GetPassIndex (litBasePassName_ desc))
       (GetPassIndex (additionalLightPassName_ desc)) passData)
  = Spec.description_valid GetPassIndex desc.
Proof.
  unfold PassData.IsValid, PassData.CheckSubPasses, Spec.description_valid,
    Spec.pass_valid, Spec.present. simpl.
  destruct (type_ desc);
    destruct (GetPassIndex (unlitBasePassName_ desc) =? M_MAX_UNSIGNED);
    destruct (GetPassIndex (litBasePassName_ desc) =? M_MAX_UNSIGNED);
    destruct (GetPassIndex (additionalLightPassName_ desc) =? M_MAX_UNSIGNED);
    reflexivity.
Qed.

(** What the first loop does to the pass at each position, when it
    returns: the description and the three indices are set, the scene
    batches and the two caches are kept, and the intermediate batches of a
    valid pass are cleared. *)
Lemma InitializePasses_loop_each (numThreads : nat) (passes : list ScenePassDescription) :
  forall (passes_ initialised : list PassData.t),
    length passes_ = length passes ->
    InitializePasses_loop numThreads passes passes_ = Ok initialised ->
    Forall2 (fun desc after =>
               PassData.desc_ after = desc
               /\ PassData.unlitBasePassIndex_ after = GetPassIndex (unlitBasePassName_ desc)
               /\ PassData.litBasePassIndex_ after = GetPassIndex (litBasePassName_ desc)
               /\ PassData.additionalLightPassIndex_ after
                  = GetPassIndex (additionalLightPassName_ desc)
               /\ (Spec.description_valid GetPassIndex desc = true ->
                   PassData.unlitBatches_ after = replicate numThreads []
                   /\ PassData.litBatches_ after = replicate numThreads []))
      passes initialised
    /\ Forall2 (fun before after =>
                  PassData.unlitBaseSceneBatches_ after = PassData.unlitBaseSceneBatches_ before
                  /\ PassData.litBaseSceneBatches_ after = PassData.litBaseSceneBatches_ before
                  /\ PassData.unlitPipelineStateCache_ after
                     = PassData.unlitPipelineStateCache_ before
                  /\ PassData.litPipelineStateCache_ after
                     = PassData.litPipelineStateCache_ before)
         passes_ initialised.
Proof.
  induction passes as [|desc rest IH]; intros [|passData passes_] initialised Hlen Hrun;
    simpl in Hlen; try discriminate; simpl in Hrun.
  - inversion Hrun; subst. split; constructor.
  - unfold InitializePasses_pass in Hrun. rewrite IsValid_with_desc in Hrun.
    destruct (Spec.description_valid GetPassIndex desc) eqn:Hvalid; simpl in Hrun.
    + destruct (InitializePasses_loop numThreads rest passes_) as [others|] eqn:Hrest;
        simpl in Hrun; [|discriminate].
      inversion Hrun; subst; clear Hrun.
      destruct (IH passes_ others) as [Hdesc Hkept]; [lia|exact Hrest|].
      split; constructor; try assumption.
      * repeat split; reflexivity.
      * repeat split; reflexivity.
    + destruct NDEBUG; simpl in Hrun; [|discriminate].
      destruct (InitializePasses_loop numThreads rest passes_) as [others|] eqn:Hrest;
        simpl in Hrun; [|discriminate].
      inversion Hrun; subst; clear Hrun.
      destruct (IH passes_ others) as [Hdesc Hkept]; [lia|exact Hrest|].
      split; constructor; try assumption.
      * repeat split; try reflexivity; congruence.
      * repeat split; reflexivity.
Qed.

Lemma InitializePasses_loop_valid (numThreads : nat) (passes : list ScenePassDescription) :
  forall before : list PassData.t,
    (forall desc, In desc passes -> Spec.description_valid GetPassIndex desc = true) ->
    length before = length passes ->
    exists initialised,
      InitializePasses_loop numThreads passes before = Ok initialised
      /\ Forall2 (fun desc passData =>
                    PassData.desc_ passData = desc
                    /\ PassData.unlitBasePassIndex_ passData
                       = GetPassIndex (unlitBasePassName_ desc)
                    /\ PassData.litBasePassIndex_ passData
                       = GetPassIndex (litBasePassName_ desc)
                    /\ PassData.additionalLightPassIndex_ passData
                       = GetPassIndex (additionalLightPassName_ desc)
                    /\ PassData.unlitBatches_ passData = replicate numThreads []
                    /\ PassData.litBatches_ passData = replicate numThreads [])
           passes initialised.
Proof.
  induction passes as [|desc rest IH]; intros [|passData before] Hvalid Hlen;
    simpl in Hlen; try discriminate; simpl.
  - eexists. split; [reflexivity|constructor].
  - unfold InitializePasses_pass. rewrite IsValid_with_desc.
    rewrite (Hvalid desc (or_introl eq_refl)). simpl.
    destruct (IH before) as (others & Hothers & Heach);
      [intros d Hd; apply Hvalid; right; exact Hd|lia|].
    rewrite Hothers. simpl. eexists. split; [reflexivity|].
    constructor; [|exact Heach]. repeat split; reflexivity.
Qed.

(** X6.  [InitializePasses] with valid descriptions returns, in a build with
    assertions as in one without.  [passes_] then has one pass for each
    description, in their order, with the indices of its three names and
    with both lists of intermediate batches cleared to one empty bucket for
    each thread. *)
Theorem InitializePasses_valid (passes : list ScenePassDescription)
    (s : SceneBatchCollector) :
  (forall desc, In desc passes -> Spec.description_valid GetPassIndex desc = true) ->
  exists s',
    InitializePasses passes s = Ok s'
    /\ Forall2 (fun desc passData =>
                  PassData.desc_ passData = desc
                  /\ PassData.unlitBasePassIndex_ passData
                     = GetPassIndex (unlitBasePassName_ desc)
                  /\ PassData.litBasePassIndex_ passData
                     = GetPassIndex (litBasePassName_ desc)
                  /\ PassData.additionalLightPassIndex_ passData
                     = GetPassIndex (additionalLightPassName_ desc)
                  /\ PassData.unlitBatches_ passData = replicate (numThreads_ s) []
                  /\ PassData.litBatches_ passData = replicate (numThreads_ s) [])
         passes (passes_ s').
Proof.
  intros Hvalid. unfold InitializePasses.
  destruct (InitializePasses_loop_valid (numThreads_ s) passes
              (vector_resize (length passes) PassData.empty (passes_ s)) Hvalid)
    as (initialised & Hloop & Heach); [apply vector_resize_length|].
  rewrite Hloop. simpl. eexists. split; [reflexivity|exact Heach].
Qed.

(** X7.  [InitializePasses] keeps what the passes held at their positions: the
    pass at a position below the number of descriptions keeps its scene
    batches and its two pipeline state caches, even when its description
    changes.  A position that is new has empty caches. *)
Theorem InitializePasses_keeps_caches (passes : list ScenePassDescription)
    (s s' : SceneBatchCollector) :
  InitializePasses passes s = Ok s' ->
  length (passes_ s') = length passes
  /\ (forall i before,
        passes_ s !! i = Some before -> (i < length passes)%nat ->
        exists after,
          passes_ s' !! i = Some after
          /\ PassData.unlitBaseSceneBatches_ after = PassData.unlitBaseSceneBatches_ before
          /\ PassData.litBaseSceneBatches_ after = PassData.litBaseSceneBatches_ before
          /\ PassData.unlitPipelineStateCache_ after
             = PassData.unlitPipelineStateCache_ before
          /\ PassData.litPipelineStateCache_ after
             = PassData.litPipelineStateCache_ before)
  /\ (forall i after,
        passes_ s' !! i = Some after -> (length (passes_ s) <= i)%nat ->
        PassData.unlitPipelineStateCache_ after = ∅
        /\ PassData.litPipelineStateCache_ after = ∅).
Proof.
  unfold InitializePasses. intros Hrun.
  destruct (InitializePasses_loop _ _ _) as [initialised|] eqn:Hloop; simpl in Hrun;
    [|discriminate].
  inversion Hrun; subst; clear Hrun. simpl.
  destruct (InitializePasses_loop_each _ _ _ _ (vector_resize_length _ _ _) Hloop)
    as [Heach Hkept].
  split; [symmetry; exact (Forall2_length _ _ _ Heach)|]. split.
  - intros i before Hbefore Hi.
    assert (vector_resize (length passes) PassData.empty (passes_ s) !! i = Some before)
      as Hresized.
    { unfold vector_resize. rewrite lookup_app_l.
      - rewrite lookup_take_lt by exact Hi. exact Hbefore.
      - rewrite length_take. apply lookup_lt_Some in Hbefore. lia. }
    destruct (Forall2_lookup_l _ _ _ _ _ Hkept Hresized) as (after & Hafter & Hsame).
    exists after. split; [exact Hafter|exact Hsame].
  - intros i after Hafter Hi.
    destruct (Forall2_lookup_r _ _ _ _ _ Hkept Hafter) as (before & Hbefore & Hsame).
    assert (before = PassData.empty) as ->.
    { unfold vector_resize in Hbefore.
      rewrite lookup_app_r in Hbefore by (rewrite length_take; lia).
      apply lookup_replicate in Hbefore. destruct Hbefore as [-> _]. reflexivity. }
    destruct Hsame as (_ & _ & -> & ->). split; reflexivity.
Qed.

(** *** The lookup of base batches *)

Lemma InitializePasses_lookup_sound (passes_ : list PassData.t) :
  forall (first : nat) (lookup : gmap Z (nat * bool)) (passIndex : Z) (i : nat) (lit : bool),
    InitializePasses_lookup first passes_ lookup !! passIndex = Some (i, lit) ->
    lookup !! passIndex = Some (i, lit)
    \/ exists passData,
         passes_ !! (i - first)%nat = Some passData
         /\ (first <= i)%nat
         /\ Spec.names_base_pass passIndex lit passData.
Proof.
  induction passes_ as [|passData rest IH]; intros first lookup passIndex i lit Hfound;
    simpl in Hfound; [left; exact Hfound|].
  apply IH in Hfound. destruct Hfound as [Hfound|(other & Hother & Hle & Hnames)].
  - destruct (negb (PassData.litBasePassIndex_ passData =? M_MAX_UNSIGNED)) eqn:Hlit.
    + destruct (decide (PassData.litBasePassIndex_ passData = passIndex)) as [Heq|Hne].
      * rewrite Heq, lookup_insert_eq in Hfound. inversion Hfound; subst.
        right. exists passData. rewrite Nat.sub_diag. split; [reflexivity|].
        split; [lia|]. split; [|reflexivity].
        apply negb_true_iff, Z.eqb_neq in Hlit. exact Hlit.
      * rewrite lookup_insert_ne in Hfound by exact Hne.
        destruct (negb (PassData.unlitBasePassIndex_ passData =? M_MAX_UNSIGNED)) eqn:Hunlit;
          [|left; exact Hfound].
        destruct (decide (PassData.unlitBasePassIndex_ passData = passIndex)) as [Heq'|Hne'].
        -- rewrite Heq', lookup_insert_eq in Hfound. inversion Hfound; subst.
           right. exists passData. rewrite Nat.sub_diag. split; [reflexivity|].
           split; [lia|]. split; [|reflexivity].
           apply negb_true_iff, Z.eqb_neq in Hunlit. exact Hunlit.
        -- rewrite lookup_insert_ne in Hfound by exact Hne'. left. exact Hfound.
    + destruct (negb (PassData.unlitBasePassIndex_ passData =? M_MAX_UNSIGNED)) eqn:Hunlit;
        [|left; exact Hfound].
      destruct (decide (PassData.unlitBasePassIndex_ passData = passIndex)) as [Heq'|Hne'].
      * rewrite Heq', lookup_insert_eq in Hfound. inversion Hfound; subst.
        right. exists passData. rewrite Nat.sub_diag. split; [reflexivity|].
        split; [lia|]. split; [|reflexivity].
        apply negb_true_iff, Z.eqb_neq in Hunlit. exact Hunlit.
      * rewrite lookup_insert_ne in Hfound by exact Hne'. left. exact Hfound.
  - right. exists other. split; [|split; [lia|exact Hnames]].
    replace (i - first)%nat with (S (i - S first)) by lia. exact Hother.
Qed.

Lemma InitializePasses_lookup_complete (passes_ : list PassData.t) :
  forall (first : nat) (lookup : gmap Z (nat * bool)) (passIndex : Z) (lit : bool)
         (passData : PassData.t),
    In passData passes_ ->
    Spec.names_base_pass passIndex lit passData ->
    is_Some (InitializePasses_lookup first passes_ lookup !! passIndex).
Proof.
  induction passes_ as [|head rest IH]; intros first lookup passIndex lit passData Hin Hnames;
    [destruct Hin|].
  destruct Hin as [->|Hin]; [|simpl; eapply IH; eassumption].
  simpl. apply InitializePasses_lookup_grows.
  destruct Hnames as [Hpresent Hindex].
  destruct lit.
  - rewrite Hindex. apply Z.eqb_neq in Hpresent. rewrite Hpresent. simpl.
    rewrite lookup_insert_eq. eauto.
  - rewrite Hindex. apply Z.eqb_neq in Hpresent. rewrite Hpresent. simpl.
    destruct (negb (PassData.litBasePassIndex_ passData =? M_MAX_UNSIGNED)).
    + destruct (decide (PassData.litBasePassIndex_ passData = passIndex)) as [Heq|Hne].
      * rewrite Heq, lookup_insert_eq. eauto.
      * rewrite lookup_insert_ne by exact Hne. rewrite lookup_insert_eq. eauto.
    + rewrite lookup_insert_eq. eauto.
Qed.

(** X8.  The lookup table that [InitializePasses] builds.  An index that is
    registered leads to a pass of [passes_] that has it as the index of its
    unlit base sub-pass, or of its lit base sub-pass, according to the list
    it leads to.  An index is not registered exactly when no pass has it as
    the index of a base sub-pass; the index of no pass, [M_MAX_UNSIGNED],
    never is.  [GetBaseBatches] for a name whose index is not registered is
    the empty list. *)
Theorem InitializePasses_lookup_table (passes : list ScenePassDescription)
    (s s' : SceneBatchCollector) :
  InitializePasses passes s = Ok s' ->
  (forall passIndex i lit,
     baseBatchesLookup_ s' !! passIndex = Some (i, lit) ->
     exists passData,
       passes_ s' !! i = Some passData /\ Spec.names_base_pass passIndex lit passData)
  /\ (forall passIndex,
        baseBatchesLookup_ s' !! passIndex = None <->
        forall passData lit,
          In passData (passes_ s') -> ~ Spec.names_base_pass passIndex lit passData)
  /\ baseBatchesLookup_ s' !! M_MAX_UNSIGNED = None
  /\ (forall pass,
        (forall passData lit,
           In passData (passes_ s') ->
           ~ Spec.names_base_pass (GetPassIndex pass) lit passData) ->
        GetBaseBatches pass s' = []).
Proof.
  unfold InitializePasses. intros Hrun.
  destruct (InitializePasses_loop _ _ _) as [initialised|]; simpl in Hrun; [|discriminate].
  inversion Hrun; subst; clear Hrun. simpl.
  assert (forall passIndex,
            InitializePasses_lookup 0 initialised ∅ !! passIndex = None <->
            forall passData lit,
              In passData initialised -> ~ Spec.names_base_pass passIndex lit passData)
    as Hnone.
  { intros passIndex. split.
    - intros Hlookup passData lit Hin Hnames.
      destruct (InitializePasses_lookup_complete initialised 0 ∅ passIndex lit passData
                  Hin Hnames) as [entry Hentry].
      rewrite Hentry in Hlookup. discriminate.
    - intros Hno.
      destruct (InitializePasses_lookup 0 initialised ∅ !! passIndex) as [[i lit]|] eqn:Hfound;
        [|reflexivity].
      apply InitializePasses_lookup_sound in Hfound.
      destruct Hfound as [Hempty|(passData & Hat & _ & Hnames)].
      + rewrite lookup_empty in Hempty. discriminate.
      + exfalso. apply (Hno passData lit); [|exact Hnames].
        apply list_elem_of_In. eapply list_elem_of_lookup_2. exact Hat. }
  split; [|split; [exact Hnone|split]].
  - intros passIndex i lit Hfound. apply InitializePasses_lookup_sound in Hfound.
    destruct Hfound as [Hempty|(passData & Hat & _ & Hnames)].
    + rewrite lookup_empty in Hempty. discriminate.
    + rewrite Nat.sub_0_r in Hat. eauto.
  - apply Hnone. intros passData lit _ [Hpresent _]. apply Hpresent. reflexivity.
  - intros pass Hno. unfold GetBaseBatches. simpl.
    apply Hnone in Hno. rewrite Hno. reflexivity.
Qed.

(** *** The collection stays inside its tables *)

Lemma update_index_in_range {A : Type} (v : list A) (i : nat) (f : A -> A) :
  (i < length v)%nat ->
  exists v', update_index v i f = Ok v' /\ length v' = length v.
Proof.
  intros Hi. unfold update_index.
  destruct (lookup_lt_is_Some_2 v i Hi) as [a Ha]. rewrite Ha.
  eexists. split; [reflexivity|]. apply length_insert.
Qed.

Lemma Insert_in_range {T : Type} (threadIndex : nat) (x : T) (v : list (list T)) :
  (threadIndex < length v)%nat ->
  exists v', ThreadedVector.Insert threadIndex x v = Ok v' /\ length v' = length v.
Proof. intros Hi. apply update_index_in_range. exact Hi. Qed.

Lemma CollectSourceBatches_passes_in_range (threadIndex drawableIndex numThreads : nat)
    (drawable : Drawable) (i : nat) (technique : Technique) (passes : list PassData.t) :
  (threadIndex < numThreads)%nat ->
  Forall (fun passData =>
            length (PassData.unlitBatches_ passData) = numThreads
            /\ length (PassData.litBatches_ passData) = numThreads) passes ->
  forall traits,
    (drawableIndex < length traits)%nat ->
    exists passes' traits',
      CollectSourceBatches_passes threadIndex drawableIndex drawable i technique passes traits
      = Ok (passes', traits')
      /\ length traits' = length traits
      /\ Forall (fun passData =>
                   length (PassData.unlitBatches_ passData) = numThreads
                   /\ length (PassData.litBatches_ passData) = numThreads) passes'.
Proof.
  intros Hthread Hsized. induction Hsized as [|pass rest [Hunlit Hlit] _ IH];
    intros traits Hindex; simpl.
  - eexists _, _. split; [reflexivity|]. split; [reflexivity|constructor].
  - destruct (non_null (IntermediateSceneBatch.additionalPass_ _)).
    + destruct (update_index_in_range traits drawableIndex
                  (fun t => Z.lor t TransientDrawableIndex.ForwardLit) Hindex)
        as (traits1 & Htraits1 & Hlen1).
      rewrite Htraits1. simpl.
      destruct (Insert_in_range threadIndex
                  (PassData.CreateIntermediateSceneBatch pass drawable i
                     (GetPass technique (PassData.unlitBasePassIndex_ pass))
                     (GetPass technique (PassData.litBasePassIndex_ pass))
                     (GetPass technique (PassData.additionalLightPassIndex_ pass)))
                  (PassData.litBatches_ pass)) as (lit & Hins & Hlenlit); [lia|].
      rewrite Hins. simpl.
      destruct (IH traits1) as (rest' & traits2 & Hrest & Hlen2 & Hsized'); [lia|].
      rewrite Hrest. simpl. eexists _, _. split; [reflexivity|]. split; [lia|].
      constructor; [|exact Hsized']. simpl. split; [exact Hunlit|lia].
    + destruct (non_null (IntermediateSceneBatch.basePass_ _)).
      * destruct (Insert_in_range threadIndex
                    (PassData.CreateIntermediateSceneBatch pass drawable i
                       (GetPass technique (PassData.unlitBasePassIndex_ pass))
                       (GetPass technique (PassData.litBasePassIndex_ pass))
                       (GetPass technique (PassData.additionalLightPassIndex_ pass)))
                    (PassData.unlitBatches_ pass)) as (unlit & Hins & Hlenunlit); [lia|].
        rewrite Hins. simpl.
        destruct (IH traits Hindex) as (rest' & traits2 & Hrest & Hlen2 & Hsized').
        rewrite Hrest. simpl. eexists _, _. split; [reflexivity|]. split; [exact Hlen2|].
        constructor; [|exact Hsized']. simpl. split; [lia|exact Hlit].
      * simpl.
        destruct (IH traits Hindex) as (rest' & traits2 & Hrest & Hlen2 & Hsized').
        rewrite Hrest. simpl. eexists _, _. split; [reflexivity|]. split; [exact Hlen2|].
        constructor; [|exact Hsized']. split; assumption.
Qed.

Lemma CollectSourceBatches_batches_in_range (threadIndex drawableIndex numThreads : nat)
    (drawable : Drawable) (materialQuality : Z) (defaultMaterial : Material)
    (sourceBatches : list SourceBatch.t) :
  (threadIndex < numThreads)%nat ->
  forall i passes traits,
    Forall (fun passData =>
              length (PassData.unlitBatches_ passData) = numThreads
              /\ length (PassData.litBatches_ passData) = numThreads) passes ->
    (drawableIndex < length traits)%nat ->
    exists passes' traits',
      CollectSourceBatches_batches threadIndex drawableIndex drawable materialQuality
        defaultMaterial i sourceBatches passes traits = Ok (passes', traits')
      /\ length traits' = length traits
      /\ Forall (fun passData =>
                   length (PassData.unlitBatches_ passData) = numThreads
                   /\ length (PassData.litBatches_ passData) = numThreads) passes'.
Proof.
  intros Hthread. induction sourceBatches as [|sourceBatch rest IH];
    intros i passes traits Hsized Hindex; simpl.
  - eexists _, _. split; [reflexivity|]. split; [reflexivity|exact Hsized].
  - destruct (FindTechnique _ _ _) as [technique|].
    + destruct (CollectSourceBatches_passes_in_range threadIndex drawableIndex numThreads
                  drawable i technique passes Hthread Hsized traits Hindex)
        as (passes1 & traits1 & Hpasses & Hlen1 & Hsized1).
      rewrite Hpasses. simpl.
      destruct (IH (S i) passes1 traits1 Hsized1) as (passes2 & traits2 & Hrest & Hlen2 & Hs2);
        [lia|].
      rewrite Hrest. eexists _, _. split; [reflexivity|]. split; [lia|exact Hs2].
    + simpl. apply IH; assumption.
Qed.

Lemma CollectSourceBatches_geometry_in_range (threadIndex : nat) (drawableIndex : nat)
    (drawable : Drawable) (s : SceneBatchCollector) :
  Spec.frame_sized s ->
  (threadIndex < numThreads_ s)%nat ->
  (drawableIndex < numDrawables_ s)%nat ->
  exists s',
    CollectSourceBatches_geometry threadIndex drawableIndex drawable s = Ok s'
    /\ Spec.frame_sized s'
    /\ numThreads_ s' = numThreads_ s
    /\ numDrawables_ s' = numDrawables_ s.
Proof.
  intros (Htraits & Hz & Hlighting & Hscene & Hvisible & Hlights & Hpasses) Hthread Hindex.
  unfold CollectSourceBatches_geometry.
  assert (exists s1,
            match Evaluate drawable with
            | Some range =>
                do z <- update_index (zRange_ s) drawableIndex (fun _ => Evaluate drawable);
                do scene <- ThreadedVector.Insert threadIndex range (sceneZRange_ s);
                Ok (with_zRange_ z scene s)
            | None =>
                do z <- update_index (zRange_ s) drawableIndex
                          (fun _ => Some (M_LARGE_VALUE, M_LARGE_VALUE));
                Ok (with_zRange_ z (sceneZRange_ s) s)
            end = Ok s1
            /\ Spec.frame_sized s1 /\ numThreads_ s1 = numThreads_ s
            /\ numDrawables_ s1 = numDrawables_ s) as (s1 & Hs1 & Hsized1 & Hn1 & Hd1).
  { destruct (Evaluate drawable) as [range|].
    - destruct (update_index_in_range (zRange_ s) drawableIndex (fun _ => Some range))
        as (z & Hzu & Hzl); [lia|].
      rewrite Hzu. simpl.
      destruct (Insert_in_range threadIndex range (sceneZRange_ s)) as (scene & Hins & Hl);
        [lia|].
      rewrite Hins. simpl. eexists. split; [reflexivity|].
      split; [|split; reflexivity].
      unfold Spec.frame_sized. simpl. repeat split; try assumption; lia.
    - destruct (update_index_in_range (zRange_ s) drawableIndex
                  (fun _ => Some (M_LARGE_VALUE, M_LARGE_VALUE))) as (z & Hzu & Hzl); [lia|].
      rewrite Hzu. simpl. eexists. split; [reflexivity|].
      split; [|split; reflexivity].
      unfold Spec.frame_sized. simpl. repeat split; try assumption; lia. }
  rewrite Hs1. simpl. clear Hs1.
  destruct Hsized1 as (Htraits1 & Hz1 & Hlighting1 & Hscene1 & Hvisible1 & Hlights1 & Hpasses1).
  destruct (Insert_in_range threadIndex drawable (visibleGeometries_ s1))
    as (visible & Hins & Hlenv); [lia|].
  rewrite Hins. simpl.
  destruct (update_index_in_range (traits_ s1) drawableIndex
              (fun t => Z.lor t TransientDrawableIndex.DrawableVisibleGeometry))
    as (traits1 & Hupd & Hlent); [lia|].
  rewrite Hupd. simpl.
  destruct (CollectSourceBatches_batches_in_range threadIndex drawableIndex (numThreads_ s1)
              drawable (materialQuality_ s1) (defaultMaterial_ s1) (GetBatches drawable)
              ltac:(lia) 0%nat (passes_ s1) traits1 Hpasses1 ltac:(lia))
    as (passes2 & traits2 & Hbatches & Hlen2 & Hsized2).
  rewrite Hbatches. simpl.
  destruct (update_index_in_range (drawableLighting_ s1) drawableIndex
              (fun _ => ([] : DrawableLightAccumulator))) as (lighting & Hl & Hlenl); [lia|].
  rewrite Hl. simpl. eexists. split; [reflexivity|].
  split; [|split; simpl; assumption].
  unfold Spec.frame_sized. simpl. repeat split; try assumption; lia.
Qed.

Lemma UpdateAndCollectSourceBatchesForThread_in_range (threadIndex : nat)
    (drawables : list Drawable) :
  forall s,
    Spec.frame_sized s ->
    (threadIndex < numThreads_ s)%nat ->
    (forall drawable, In drawable drawables ->
       (GetDrawableIndex drawable < numDrawables_ s)%nat) ->
    exists s',
      UpdateAndCollectSourceBatchesForThread threadIndex drawables s = Ok s'
      /\ Spec.frame_sized s'
      /\ numThreads_ s' = numThreads_ s
      /\ numDrawables_ s' = numDrawables_ s.
Proof.
  induction drawables as [|drawable rest IH]; intros s Hsized Hthread Hindices; simpl.
  - eauto.
  - pose proof Hsized as (Htraits & Hz & Hlighting & Hscene & Hvisible & Hlights & Hpasses).
    pose proof (Hindices drawable (or_introl eq_refl)) as Hindex.
    destruct (update_index_in_range (traits_ s) (GetDrawableIndex drawable)
                (fun t => Z.lor t TransientDrawableIndex.DrawableUpdated))
      as (traits1 & Hupd & Hlen1); [lia|].
    rewrite Hupd. simpl.
    assert (Spec.frame_sized (with_traits_ traits1 s)) as Hsized1.
    { unfold Spec.frame_sized. simpl. repeat split; try assumption; lia. }
    destruct (Float.gt _ _ && Float.gt _ _).
    + eexists. split; [reflexivity|]. split; [exact Hsized1|]. split; reflexivity.
    + assert (forall s1,
                Spec.frame_sized s1 -> numThreads_ s1 = numThreads_ s ->
                numDrawables_ s1 = numDrawables_ s ->
                exists s',
                  UpdateAndCollectSourceBatchesForThread threadIndex rest s1 = Ok s'
                  /\ Spec.frame_sized s' /\ numThreads_ s' = numThreads_ s
                  /\ numDrawables_ s' = numDrawables_ s) as Hrest.
      { intros s1 Hs1 Hn1 Hd1.
        destruct (IH s1 Hs1) as (s' & Hrun & Hs' & Hn' & Hd').
        - lia.
        - intros d Hd. rewrite Hd1. apply Hindices. right. exact Hd.
        - exists s'. split; [exact Hrun|]. split; [exact Hs'|]. split; congruence. }
      destruct (truthy (Z.land (GetDrawableFlags (UpdateBatches drawable)) DRAWABLE_GEOMETRY)).
      * destruct (CollectSourceBatches_geometry_in_range threadIndex
                    (GetDrawableIndex drawable) (UpdateBatches drawable)
                    (with_traits_ traits1 s) Hsized1 Hthread Hindex)
          as (s1 & Hgeometry & Hs1 & Hn1 & Hd1).
        rewrite Hgeometry. simpl. apply Hrest; assumption.
      * destruct (truthy (Z.land (GetDrawableFlags (UpdateBatches drawable)) DRAWABLE_LIGHT)).
        -- unfold CollectSourceBatches_light.
           destruct (negb _ && negb _).
           ++ destruct (Insert_in_range (T := Light) threadIndex (UpdateBatches drawable)
                          (visibleLightsTemp_ (with_traits_ traits1 s)))
                as (lights & Hins & Hlenl); [simpl; lia|].
              rewrite Hins. simpl in *. apply Hrest; [|reflexivity|reflexivity].
              unfold Spec.frame_sized. simpl. repeat split; try assumption; lia.
           ++ simpl. apply Hrest; [exact Hsized1|reflexivity|reflexivity].
        -- simpl. apply Hrest; [exact Hsized1|reflexivity|reflexivity].
Qed.

(** X9.  [UpdateAndCollectSourceBatches] returns, with the tables at their
    sizes, when it starts with the tables at their sizes and every range is
    handed to a thread of the frame and holds drawables whose indices are
    below the number of drawables of the frame: no table is indexed outside
    its range, whatever the drawables are. *)
Theorem UpdateAndCollectSourceBatches_in_range (ranges : list (nat * list Drawable))
    (s : SceneBatchCollector) :
  Spec.frame_sized s ->
  (forall threadIndex range,
     In (threadIndex, range) ranges ->
     (threadIndex < numThreads_ s)%nat
     /\ forall drawable, In drawable range ->
          (GetDrawableIndex drawable < numDrawables_ s)%nat) ->
  exists s',
    UpdateAndCollectSourceBatches ranges s = Ok s' /\ Spec.frame_sized s'.
Proof.
  unfold UpdateAndCollectSourceBatches. intros Hsized Hranges.
  assert (exists s1,
            ForEachParallel UpdateAndCollectSourceBatchesForThread ranges s = Ok s1
            /\ Spec.frame_sized s1) as (s1 & Hrun & Hsized1).
  { revert s Hsized Hranges.
    induction ranges as [|[threadIndex range] rest IH]; intros s Hsized Hranges; simpl.
    - eauto.
    - destruct (Hranges threadIndex range (or_introl eq_refl)) as [Hthread Hindices].
      destruct (UpdateAndCollectSourceBatchesForThread_in_range threadIndex range s
                  Hsized Hthread Hindices) as (s1 & Hone & Hsized1 & Hn1 & Hd1).
      rewrite Hone. simpl. apply IH; [exact Hsized1|].
      intros t r Hin. rewrite Hn1, Hd1. apply Hranges. right. exact Hin. }
  rewrite Hrun. simpl. eexists. split; [reflexivity|].
  destruct Hsized1 as (H1 & H2 & H3 & H4 & H5 & H6 & H7).
  unfold Spec.frame_sized. simpl. repeat split; assumption.
Qed.

Lemma InitializeFrame_sizes (frameInfo : FrameInfo) (s : SceneBatchCollector) :
  numThreads_ (InitializeFrame frameInfo s) = S (frame_numWorkerThreads frameInfo)
  /\ numDrawables_ (InitializeFrame frameInfo s) = frame_numDrawables frameInfo
  /\ length (traits_ (InitializeFrame frameInfo s)) = frame_numDrawables frameInfo
  /\ length (zRange_ (InitializeFrame frameInfo s)) = frame_numDrawables frameInfo
  /\ length (drawableLighting_ (InitializeFrame frameInfo s)) = frame_numDrawables frameInfo
  /\ length (sceneZRange_ (InitializeFrame frameInfo s))
     = S (frame_numWorkerThreads frameInfo)
  /\ length (visibleGeometries_ (InitializeFrame frameInfo s))
     = S (frame_numWorkerThreads frameInfo)
  /\ length (visibleLightsTemp_ (InitializeFrame frameInfo s))
     = S (frame_numWorkerThreads frameInfo).
Proof.
  simpl. unfold ThreadedVector.Clear.
  rewrite !length_replicate, vector_resize_length. repeat split; lia.
Qed.

(** The first calls of a frame return when the pass descriptions are valid
    and the indices of the drawables are below the number of drawables of
    the frame; the tables then have the sizes of the frame. *)
Lemma CollectFrame_sized (frameInfo : FrameInfo) (passes : list ScenePassDescription)
    (drawables : list Drawable) (s : SceneBatchCollector) :
  (forall desc, In desc passes -> Spec.description_valid GetPassIndex desc = true) ->
  (forall drawable, In drawable drawables ->
     (GetDrawableIndex drawable < frame_numDrawables frameInfo)%nat) ->
  exists s',
    CollectFrame frameInfo passes drawables s = Ok s'
    /\ Spec.frame_sized s'
    /\ numThreads_ s' = S (frame_numWorkerThreads frameInfo)
    /\ numDrawables_ s' = frame_numDrawables frameInfo.
Proof.
  intros Hvalid Hindices. unfold CollectFrame, InitializePasses.
  destruct (InitializeFrame_sizes frameInfo s)
    as (Hn & Hd & Ht & Hz & Hl & Hs & Hv & Hvl).
  destruct (InitializePasses_loop_valid (numThreads_ (InitializeFrame frameInfo s)) passes
              (vector_resize (length passes) PassData.empty
                 (passes_ (InitializeFrame frameInfo s))) Hvalid)
    as (initialised & Hloop & Heach); [apply vector_resize_length|].
  rewrite Hloop. simpl bind.
  set (s1 := with_baseBatchesLookup_ _ _).
  assert (Spec.frame_sized s1) as Hsized.
  { unfold Spec.frame_sized, s1. simpl. unfold ThreadedVector.Clear.
    rewrite !length_replicate, vector_resize_length.
    do 6 (split; [reflexivity|]).
    clear -Heach. simpl in Heach.
    induction Heach as [|desc passData rest others Hone _ IH]; constructor.
    - destruct Hone as (_ & _ & _ & _ & Hunlit & Hlit).
      rewrite Hunlit, Hlit, !length_replicate. split; reflexivity.
    - exact IH. }
  destruct (UpdateAndCollectSourceBatchesForThread_in_range 0 drawables s1 Hsized)
    as (s2 & Hrun & Hsized2 & Hn2 & Hd2).
  - unfold s1. simpl. lia.
  - intros d Hin. unfold s1. simpl. apply Hindices. exact Hin.
  - unfold UpdateAndCollectSourceBatches. simpl ForEachParallel. rewrite Hrun. simpl.
    eexists. split; [reflexivity|].
    destruct Hsized2 as (H1 & H2 & H3 & H4 & H5 & H6 & H7).
    split; [unfold Spec.frame_sized; simpl; repeat split; assumption|].
    simpl. rewrite Hn2, Hd2. unfold s1. simpl. split; [lia|reflexivity].
Qed.

(** *** What the collection does to the passes *)

Lemma pass_collected_refl (collected : Drawable -> Prop) (passData : PassData.t) :
  Spec.pass_collected collected passData passData.
Proof. unfold Spec.pass_collected. repeat split; auto. Qed.

Lemma pass_collected_trans (collected : Drawable -> Prop) (a b c : PassData.t) :
  Spec.pass_collected collected a b -> Spec.pass_collected collected b c ->
  Spec.pass_collected collected a c.
Proof.
  intros (A1 & A2 & A3 & A4 & A5 & A6 & A7 & A8 & A9 & A10 & A11 & A12)
         (B1 & B2 & B3 & B4 & B5 & B6 & B7 & B8 & B9 & B10 & B11 & B12).
  unfold Spec.pass_collected.
  repeat split; try congruence; auto.
  - intros batch Hin. destruct (B11 batch Hin) as [Hb|Hnew]; auto.
  - intros batch Hin. destruct (B12 batch Hin) as [Hb|[Htype Hnew]]; auto.
    right. split; [congruence|exact Hnew].
Qed.

Lemma pass_collected_weaken (collected collected' : Drawable -> Prop) (a b : PassData.t) :
  (forall drawable, collected drawable -> collected' drawable) ->
  Spec.pass_collected collected a b -> Spec.pass_collected collected' a b.
Proof.
  intros Hsub (A1 & A2 & A3 & A4 & A5 & A6 & A7 & A8 & A9 & A10 & A11 & A12).
  unfold Spec.pass_collected.
  do 10 (split; [assumption|]). split.
  - intros batch Hin. destruct (A11 batch Hin) as [Hb|(d & Hd & Hnew)];
      [left; exact Hb|right; exists d; split; [apply Hsub; exact Hd|exact Hnew]].
  - intros batch Hin. destruct (A12 batch Hin) as [Hb|(Htype & d & Hd & Hnew)];
      [left; exact Hb|].
    right. split; [exact Htype|]. exists d. split; [apply Hsub; exact Hd|exact Hnew].
Qed.

Lemma passes_collected_refl (collected : Drawable -> Prop) (passes : list PassData.t) :
  Forall2 (Spec.pass_collected collected) passes passes.
Proof. induction passes; constructor; auto using pass_collected_refl. Qed.

Lemma passes_collected_trans (collected : Drawable -> Prop) (a : list PassData.t) :
  forall b c,
    Forall2 (Spec.pass_collected collected) a b ->
    Forall2 (Spec.pass_collected collected) b c ->
    Forall2 (Spec.pass_collected collected) a c.
Proof.
  induction a as [|x a IH]; intros b c Hab Hbc; inversion Hab; subst; inversion Hbc; subst;
    constructor; eauto using pass_collected_trans.
Qed.

Lemma passes_collected_weaken (collected collected' : Drawable -> Prop)
    (a b : list PassData.t) :
  (forall drawable, collected drawable -> collected' drawable) ->
  Forall2 (Spec.pass_collected collected) a b ->
  Forall2 (Spec.pass_collected collected') a b.
Proof.
  intros Hsub Hab. induction Hab; constructor; eauto using pass_collected_weaken.
Qed.

(** The intermediate batch that a pass creates, when it is taken into a
    list. *)
Lemma CreateIntermediateSceneBatch_taken (passData : PassData.t) (drawable : Drawable)
    (i : nat) (unlitBasePass litBasePass additionalLightPass : option Pass) :
  (i < length (GetBatches drawable))%nat ->
  (non_null (IntermediateSceneBatch.additionalPass_
               (PassData.CreateIntermediateSceneBatch passData drawable i
                  unlitBasePass litBasePass additionalLightPass)) = true ->
   type_ (PassData.desc_ passData) <> Unlit
   /\ Spec.lit_batch drawable
        (PassData.CreateIntermediateSceneBatch passData drawable i
           unlitBasePass litBasePass additionalLightPass))
  /\ (non_null (IntermediateSceneBatch.additionalPass_
                  (PassData.CreateIntermediateSceneBatch passData drawable i
                     unlitBasePass litBasePass additionalLightPass)) = false ->
      non_null (IntermediateSceneBatch.basePass_
                  (PassData.CreateIntermediateSceneBatch passData drawable i
                     unlitBasePass litBasePass additionalLightPass)) = true ->
      Spec.unlit_batch drawable
        (PassData.CreateIntermediateSceneBatch passData drawable i
           unlitBasePass litBasePass additionalLightPass)).
Proof.
  intros Hi. unfold PassData.CreateIntermediateSceneBatch, Spec.lit_batch, Spec.unlit_batch.
  destruct (type_ (PassData.desc_ passData)), unlitBasePass, litBasePass,
    additionalLightPass; simpl; split; intros; try discriminate;
    repeat split; auto; discriminate.
Qed.

Lemma CollectSourceBatches_passes_collected (threadIndex drawableIndex : nat)
    (drawable : Drawable) (i : nat) (technique : Technique) (passes : list PassData.t) :
  (i < length (GetBatches drawable))%nat ->
  forall traits passes' traits',
    CollectSourceBatches_passes threadIndex drawableIndex drawable i technique passes traits
    = Ok (passes', traits') ->
    Forall2 (Spec.pass_collected (eq drawable)) passes passes'.
Proof.
  intros Hi. induction passes as [|pass rest IH]; intros traits passes' traits' Hrun;
    simpl in Hrun.
  - inversion Hrun; subst. constructor.
  - destruct (CreateIntermediateSceneBatch_taken pass drawable i
                (GetPass technique (PassData.unlitBasePassIndex_ pass))
                (GetPass technique (PassData.litBasePassIndex_ pass))
                (GetPass technique (PassData.additionalLightPassIndex_ pass)) Hi)
      as [Hlit Hunlit].
    destruct (non_null (IntermediateSceneBatch.additionalPass_ _)) eqn:Hadditional.
    + destruct (update_index traits drawableIndex _) as [traits1|]; simpl in Hrun;
        [|discriminate].
      destruct (ThreadedVector.Insert threadIndex _ (PassData.litBatches_ pass))
        as [lit|] eqn:Hins; simpl in Hrun; [|discriminate].
      destruct (CollectSourceBatches_passes _ _ _ _ _ rest traits1) as [[rest' traits2]|]
        eqn:Hrest; simpl in Hrun; [|discriminate].
      inversion Hrun; subst; clear Hrun.
      constructor; [|eapply IH; exact Hrest].
      pose proof (Insert_elements _ _ _ _ Hins) as Hin.
      destruct (Hlit eq_refl) as [Htype Hshape].
      unfold Spec.pass_collected. simpl. repeat split; auto.
      * intros batch Hb. apply Hin. left. exact Hb.
      * intros batch Hb. apply Hin in Hb. destruct Hb as [Hb| ->]; [left; exact Hb|].
        right. split; [exact Htype|]. exists drawable. split; [reflexivity|exact Hshape].
    + destruct (non_null (IntermediateSceneBatch.basePass_ _)) eqn:Hbase.
      * destruct (ThreadedVector.Insert threadIndex _ (PassData.unlitBatches_ pass))
          as [unlit|] eqn:Hins; simpl in Hrun; [|discriminate].
        destruct (CollectSourceBatches_passes _ _ _ _ _ rest traits) as [[rest' traits2]|]
          eqn:Hrest; simpl in Hrun; [|discriminate].
        inversion Hrun; subst; clear Hrun.
        constructor; [|eapply IH; exact Hrest].
        pose proof (Insert_elements _ _ _ _ Hins) as Hin.
        unfold Spec.pass_collected. simpl. repeat split; auto.
        -- intros batch Hb. apply Hin. left. exact Hb.
        -- intros batch Hb. apply Hin in Hb. destruct Hb as [Hb| ->]; [left; exact Hb|].
           right. exists drawable. split; [reflexivity|]. apply Hunlit; reflexivity.
      * simpl in Hrun.
        destruct (CollectSourceBatches_passes _ _ _ _ _ rest traits) as [[rest' traits2]|]
          eqn:Hrest; simpl in Hrun; [|discriminate].
        inversion Hrun; subst; clear Hrun.
        constructor; [apply pass_collected_refl|eapply IH; exact Hrest].
Qed.

Lemma CollectSourceBatches_batches_collected (threadIndex drawableIndex : nat)
    (drawable : Drawable) (materialQuality : Z) (defaultMaterial : Material)
    (sourceBatches : list SourceBatch.t) :
  forall i passes traits passes' traits',
    (i + length sourceBatches <= length (GetBatches drawable))%nat ->
    CollectSourceBatches_batches threadIndex drawableIndex drawable materialQuality
      defaultMaterial i sourceBatches passes traits = Ok (passes', traits') ->
    Forall2 (Spec.pass_collected (eq drawable)) passes passes'.
Proof.
  induction sourceBatches as [|sourceBatch rest IH];
    intros i passes traits passes' traits' Hi Hrun; simpl in Hrun, Hi.
  - inversion Hrun; subst. apply passes_collected_refl.
  - destruct (FindTechnique _ _ _) as [technique|].
    + destruct (CollectSourceBatches_passes _ _ _ _ _ passes traits) as [[passes1 traits1]|]
        eqn:Hpasses; simpl in Hrun; [|discriminate].
      eapply passes_collected_trans.
      * eapply CollectSourceBatches_passes_collected; [|exact Hpasses]. lia.
      * eapply IH; [|exact Hrun]. lia.
    + simpl in Hrun. eapply IH; [|exact Hrun]. lia.
Qed.

(** The parts of the branch of a geometry, when it returns. *)
Lemma CollectSourceBatches_geometry_parts (threadIndex drawableIndex : nat)
    (drawable : Drawable) (s s' : SceneBatchCollector) :
  CollectSourceBatches_geometry threadIndex drawableIndex drawable s = Ok s' ->
  exists traits1 passes2,
    update_index (traits_ s) drawableIndex
      (fun t => Z.lor t TransientDrawableIndex.DrawableVisibleGeometry) = Ok traits1
    /\ CollectSourceBatches_batches threadIndex drawableIndex drawable (materialQuality_ s)
         (defaultMaterial_ s) 0 (GetBatches drawable) (passes_ s) traits1
       = Ok (passes2, traits_ s')
    /\ passes_ s' = passes2
    /\ ThreadedVector.Insert threadIndex drawable (visibleGeometries_ s)
       = Ok (visibleGeometries_ s')
    /\ visibleLightsTemp_ s' = visibleLightsTemp_ s
    /\ Spec.collector_kept s s'.
Proof.
  unfold CollectSourceBatches_geometry. intros Hrun.
  set (s1 := match Evaluate drawable with
             | Some range => _
             | None => _
             end) in Hrun.
  assert (forall s0, s1 = Ok s0 ->
            traits_ s0 = traits_ s /\ visibleGeometries_ s0 = visibleGeometries_ s
            /\ passes_ s0 = passes_ s /\ visibleLightsTemp_ s0 = visibleLightsTemp_ s
            /\ materialQuality_ s0 = materialQuality_ s
            /\ defaultMaterial_ s0 = defaultMaterial_ s
            /\ Spec.collector_kept s s0) as Hs1.
  { intros s0 Hs0. unfold s1 in Hs0. destruct (Evaluate drawable) as [range|].
    - destruct (update_index (zRange_ s) _ _) as [z|]; simpl in Hs0; [|discriminate].
      destruct (ThreadedVector.Insert threadIndex range _) as [scene|]; simpl in Hs0;
        [|discriminate].
      inversion Hs0; subst. unfold Spec.collector_kept. simpl. repeat split; reflexivity.
    - destruct (update_index (zRange_ s) _ _) as [z|]; simpl in Hs0; [|discriminate].
      inversion Hs0; subst. unfold Spec.collector_kept. simpl. repeat split; reflexivity. }
  destruct s1 as [s0|]; simpl in Hrun; [|discriminate].
  destruct (Hs1 s0 eq_refl) as (Htraits & Hvisible & Hpasses & Hlights & Hmq & Hdm & Hkept).
  clear Hs1.
  destruct (ThreadedVector.Insert threadIndex drawable (visibleGeometries_ s0))
    as [visible|] eqn:Hins; simpl in Hrun; [|discriminate].
  destruct (update_index (traits_ s0) _ _) as [traits1|] eqn:Hupd; simpl in Hrun;
    [|discriminate].
  destruct (CollectSourceBatches_batches _ _ _ _ _ _ _ _ traits1) as [[passes2 traits2]|]
    eqn:Hbatches; simpl in Hrun; [|discriminate].
  destruct (update_index (drawableLighting_ s0) _ _) as [lighting|]; simpl in Hrun;
    [|discriminate].
  inversion Hrun; subst; clear Hrun. simpl.
  rewrite Htraits in Hupd. rewrite Hvisible in Hins.
  rewrite Hpasses, Hmq, Hdm in Hbatches.
  exists traits1, passes2. split; [exact Hupd|]. split; [exact Hbatches|].
  split; [reflexivity|]. split; [exact Hins|]. split; [exact Hlights|].
  destruct Hkept as (K1 & K2 & K3 & K4 & K5 & K6 & K7 & K8 & K9 & K10 & K11).
  unfold Spec.collector_kept. simpl. repeat split; assumption.
Qed.

Lemma collector_kept_refl (s : SceneBatchCollector) : Spec.collector_kept s s.
Proof. unfold Spec.collector_kept. repeat split; reflexivity. Qed.

Lemma collector_kept_trans (a b c : SceneBatchCollector) :
  Spec.collector_kept a b -> Spec.collector_kept b c -> Spec.collector_kept a c.
Proof.
  intros (A1 & A2 & A3 & A4 & A5 & A6 & A7 & A8 & A9 & A10 & A11)
         (B1 & B2 & B3 & B4 & B5 & B6 & B7 & B8 & B9 & B10 & B11).
  unfold Spec.collector_kept. repeat split; congruence.
Qed.

Lemma UpdateAndCollectSourceBatchesForThread_passes (threadIndex : nat)
    (drawables : list Drawable) :
  forall s s',
    UpdateAndCollectSourceBatchesForThread threadIndex drawables s = Ok s' ->
    Spec.collector_kept s s'
    /\ Forall2 (Spec.pass_collected (Spec.collected_geometry UpdateBatches drawables))
         (passes_ s) (passes_ s').
Proof.
  induction drawables as [|drawable rest IH]; intros s s' Hrun; simpl in Hrun.
  - inversion Hrun; subst. split; [apply collector_kept_refl|apply passes_collected_refl].
  - destruct (update_index (traits_ s) _ _) as [traits1|]; simpl in Hrun; [|discriminate].
    assert (Spec.collector_kept s (with_traits_ traits1 s)) as Hkept1.
    { unfold Spec.collector_kept. simpl. repeat split; reflexivity. }
    assert (forall s1,
              Spec.collector_kept s s1 ->
              Forall2 (Spec.pass_collected
                         (Spec.collected_geometry UpdateBatches (drawable :: rest)))
                (passes_ s) (passes_ s1) ->
              UpdateAndCollectSourceBatchesForThread threadIndex rest s1 = Ok s' ->
              Spec.collector_kept s s'
              /\ Forall2 (Spec.pass_collected
                            (Spec.collected_geometry UpdateBatches (drawable :: rest)))
                   (passes_ s) (passes_ s')) as Hrest.
    { intros s1 Hk1 Hp1 Hrun1. destruct (IH _ _ Hrun1) as [Hk2 Hp2].
      split; [eapply collector_kept_trans; eassumption|].
      eapply passes_collected_trans; [exact Hp1|].
      eapply passes_collected_weaken; [|exact Hp2].
      intros d (given & Hin & Hd). exists given. split; [right; exact Hin|exact Hd]. }
    destruct (Float.gt _ _ && Float.gt _ _) eqn:Hfar.
    + inversion Hrun; subst. split; [exact Hkept1|apply passes_collected_refl].
    + destruct (truthy (Z.land (GetDrawableFlags (UpdateBatches drawable)) DRAWABLE_GEOMETRY))
        eqn:Hgeometry.
      * destruct (CollectSourceBatches_geometry _ _ _ _) as [s1|] eqn:Hbranch;
          simpl in Hrun; [|discriminate].
        destruct (CollectSourceBatches_geometry_parts _ _ _ _ _ Hbranch)
          as (traits2 & passes2 & _ & Hbatches & Hpasses & _ & _ & Hk).
        apply (Hrest s1); [exact (collector_kept_trans _ _ _ Hkept1 Hk)| |exact Hrun].
        rewrite Hpasses. simpl in Hbatches.
        eapply passes_collected_weaken;
          [|eapply CollectSourceBatches_batches_collected; [|exact Hbatches]; simpl; lia].
        intros d <-. exists drawable. split; [left; reflexivity|].
        split; [reflexivity|]. split; [exact Hgeometry|exact Hfar].
      * destruct (truthy (Z.land (GetDrawableFlags (UpdateBatches drawable)) DRAWABLE_LIGHT)).
        -- unfold CollectSourceBatches_light in Hrun.
           destruct (negb _ && negb _).
           ++ destruct (ThreadedVector.Insert threadIndex _ _) as [lights|];
                simpl in Hrun; [|discriminate].
              apply (Hrest (with_visibleLightsTemp_ lights (with_traits_ traits1 s)) Hkept1
                       (passes_collected_refl _ _) Hrun).
           ++ simpl in Hrun. apply (Hrest _ Hkept1 (passes_collected_refl _ _) Hrun).
        -- simpl in Hrun. apply (Hrest _ Hkept1 (passes_collected_refl _ _) Hrun).
Qed.

(** X10.  What [UpdateAndCollectSourceBatchesForThread] does to the collector
    apart from the transient tables and the visible lists.  It writes
    neither the lookup table, nor the main light, nor the calls of the
    factory, and of a pass neither the description, nor the scene batches,
    nor the pipeline state caches.  It removes no intermediate batch.  A
    batch that it adds has a geometry of the range that passes the distance
    test, a source batch index inside the batches of that geometry and a
    base pass; in the lit list it has an additional pass too and the pass
    is not Unlit, in the unlit list it has none. *)
Theorem UpdateAndCollectSourceBatchesForThread_batches (threadIndex : nat)
    (drawables : list Drawable) (s s' : SceneBatchCollector) :
  UpdateAndCollectSourceBatchesForThread threadIndex drawables s = Ok s' ->
  Spec.collector_kept s s'
  /\ Forall2 (Spec.pass_collected (Spec.collected_geometry UpdateBatches drawables))
       (passes_ s) (passes_ s').
Proof. apply UpdateAndCollectSourceBatchesForThread_passes. Qed.

Lemma concat_replicate_nil {A : Type} (n : nat) :
  concat (replicate n ([] : list A)) = [].
Proof. induction n as [|n IH]; simpl; [reflexivity|exact IH]. Qed.

Lemma batches_of_CollectFrame (frameInfo : FrameInfo) (passes : list ScenePassDescription)
    (drawables : list Drawable) (s s' : SceneBatchCollector) :
  (forall desc, In desc passes -> Spec.description_valid GetPassIndex desc = true) ->
  CollectFrame frameInfo passes drawables s = Ok s' ->
  Forall (fun passData =>
            (forall batch,
               In batch (ThreadedVector.elements (PassData.unlitBatches_ passData)) ->
               exists drawable,
                 Spec.collected_geometry UpdateBatches drawables drawable
                 /\ Spec.unlit_batch drawable batch)
            /\ (forall batch,
                  In batch (ThreadedVector.elements (PassData.litBatches_ passData)) ->
                  exists drawable,
                    Spec.collected_geometry UpdateBatches drawables drawable
                    /\ Spec.lit_batch drawable batch)
            /\ (type_ (PassData.desc_ passData) = Unlit ->
                ThreadedVector.elements (PassData.litBatches_ passData) = []))
    (passes_ s').
Proof.
  intros Hvalid. unfold CollectFrame, InitializePasses.
  destruct (InitializePasses_loop_valid (numThreads_ (InitializeFrame frameInfo s)) passes
              (vector_resize (length passes) PassData.empty
                 (passes_ (InitializeFrame frameInfo s))) Hvalid)
    as (initialised & Hloop & Heach); [apply vector_resize_length|].
  rewrite Hloop. simpl bind. unfold UpdateAndCollectSourceBatches. simpl ForEachParallel.
  intros Hrun.
  destruct (UpdateAndCollectSourceBatchesForThread 0 drawables _) as [s2|] eqn:Hcollect;
    simpl in Hrun; [|discriminate].
  inversion Hrun; subst; clear Hrun. simpl.
  destruct (UpdateAndCollectSourceBatchesForThread_passes _ _ _ _ Hcollect) as [_ Hpasses].
  simpl in Hpasses.
  assert (Forall (fun passData =>
                    ThreadedVector.elements (PassData.unlitBatches_ passData) = []
                    /\ ThreadedVector.elements (PassData.litBatches_ passData) = [])
            initialised) as Hcleared.
  { clear -Heach. induction Heach as [|desc passData rest others Hone _ IH]; constructor;
      [|exact IH].
    destruct Hone as (_ & _ & _ & _ & -> & ->).
    unfold ThreadedVector.elements. rewrite !concat_replicate_nil. split; reflexivity. }
  clear -Hpasses Hcleared.
  induction Hpasses as [|before after rest rest' Hone _ IH]; constructor.
  - inversion Hcleared as [|? ? [Hunlit Hlit] _]; subst.
    destruct Hone as (Hdesc & _ & _ & _ & _ & _ & _ & _ & _ & _ & Hnewunlit & Hnewlit).
    split; [|split].
    + intros batch Hin. destruct (Hnewunlit batch Hin) as [Hold|Hnew]; [|exact Hnew].
      rewrite Hunlit in Hold. destruct Hold.
    + intros batch Hin. destruct (Hnewlit batch Hin) as [Hold|[_ Hnew]]; [|exact Hnew].
      rewrite Hlit in Hold. destruct Hold.
    + intros Htype.
      destruct (ThreadedVector.elements (PassData.litBatches_ after)) as [|batch others]
        eqn:Hafter; [reflexivity|].
      destruct (Hnewlit batch) as [Hold|[Hnot _]].
      * rewrite ?Hafter. left. reflexivity.
      * rewrite Hlit in Hold. destruct Hold.
      * rewrite <- Hdesc in Hnot. contradiction.
  - apply IH. inversion Hcleared; assumption.
Qed.


(** *** What the collection does to the traits *)

Lemma land_lor_same (t x : Z) : Z.land (Z.lor t x) t = t.
Proof.
  apply Z.bits_inj'. intros n _. rewrite Z.land_spec, Z.lor_spec.
  destruct (Z.testbit t n); simpl; [reflexivity|apply andb_false_r].
Qed.

Lemma traits_grown_refl (written : nat -> Prop) (traits : list Z) :
  Spec.traits_grown written traits traits.
Proof.
  unfold Spec.traits_grown. split; [reflexivity|]. split; [reflexivity|].
  intros i t Ht. exists t. split; [exact Ht|apply Z.land_diag].
Qed.

Lemma traits_grown_trans (written : nat -> Prop) (a b c : list Z) :
  Spec.traits_grown written a b -> Spec.traits_grown written b c ->
  Spec.traits_grown written a c.
Proof.
  intros (A1 & A2 & A3) (B1 & B2 & B3). unfold Spec.traits_grown.
  split; [congruence|]. split.
  - intros i Hi. rewrite (B2 i Hi). apply A2. exact Hi.
  - intros i t Ht. destruct (A3 i t Ht) as (t' & Ht' & Hkeep).
    destruct (B3 i t' Ht') as (t'' & Ht'' & Hkeep').
    exists t''. split; [exact Ht''|].
    rewrite <- Hkeep at 1. rewrite Z.land_assoc, Hkeep'. exact Hkeep.
Qed.

Lemma traits_grown_weaken (written written' : nat -> Prop) (a b : list Z) :
  (forall i, written i -> written' i) ->
  Spec.traits_grown written a b -> Spec.traits_grown written' a b.
Proof.
  intros Hsub (A1 & A2 & A3). unfold Spec.traits_grown.
  split; [exact A1|]. split; [|exact A3].
  intros i Hi. apply A2. intros Hw. apply Hi, Hsub, Hw.
Qed.

Lemma update_index_lor_grown (traits traits' : list Z) (idx : nat) (x : Z) :
  update_index traits idx (fun t => Z.lor t x) = Ok traits' ->
  Spec.traits_grown (eq idx) traits traits'.
Proof.
  unfold update_index. intros Hupd.
  destruct (traits !! idx) as [t|] eqn:Ht; [|discriminate].
  inversion Hupd; subst; clear Hupd. unfold Spec.traits_grown.
  split; [apply length_insert|]. split.
  - intros i Hi. apply list_lookup_insert_ne. exact Hi.
  - intros i t0 Ht0. destruct (decide (i = idx)) as [->|Hne].
    + rewrite list_lookup_insert_eq by (eapply lookup_lt_Some; exact Ht).
      rewrite Ht in Ht0. inversion Ht0; subst.
      eexists. split; [reflexivity|apply land_lor_same].
    + rewrite list_lookup_insert_ne by congruence.
      exists t0. split; [exact Ht0|apply Z.land_diag].
Qed.

Lemma CollectSourceBatches_passes_traits (threadIndex drawableIndex : nat)
    (drawable : Drawable) (i : nat) (technique : Technique) (passes : list PassData.t) :
  forall traits passes' traits',
    CollectSourceBatches_passes threadIndex drawableIndex drawable i technique passes traits
    = Ok (passes', traits') ->
    Spec.traits_grown (eq drawableIndex) traits traits'.
Proof.
  induction passes as [|pass rest IH]; intros traits passes' traits' Hrun; simpl in Hrun.
  - inversion Hrun; subst. apply traits_grown_refl.
  - destruct (non_null _) in Hrun.
    + destruct (update_index traits drawableIndex _) as [traits1|] eqn:Hupd;
        simpl in Hrun; [|discriminate].
      destruct (ThreadedVector.Insert threadIndex _ _) as [lit|]; simpl in Hrun;
        [|discriminate].
      destruct (CollectSourceBatches_passes _ _ _ _ _ rest traits1) as [[rest' traits2]|]
        eqn:Hrest; simpl in Hrun; [|discriminate].
      inversion Hrun; subst; clear Hrun.
      eapply traits_grown_trans; [exact (update_index_lor_grown _ _ _ _ Hupd)|].
      eapply IH. exact Hrest.
    + destruct (non_null _) in Hrun.
      * destruct (ThreadedVector.Insert threadIndex _ _) as [unlit|]; simpl in Hrun;
          [|discriminate].
        destruct (CollectSourceBatches_passes _ _ _ _ _ rest traits) as [[rest' traits2]|]
          eqn:Hrest; simpl in Hrun; [|discriminate].
        inversion Hrun; subst; clear Hrun. eapply IH. exact Hrest.
      * simpl in Hrun.
        destruct (CollectSourceBatches_passes _ _ _ _ _ rest traits) as [[rest' traits2]|]
          eqn:Hrest; simpl in Hrun; [|discriminate].
        inversion Hrun; subst; clear Hrun. eapply IH. exact Hrest.
Qed.

Lemma CollectSourceBatches_batches_traits (threadIndex drawableIndex : nat)
    (drawable : Drawable) (materialQuality : Z) (defaultMaterial : Material)
    (sourceBatches : list SourceBatch.t) :
  forall i passes traits passes' traits',
    CollectSourceBatches_batches threadIndex drawableIndex drawable materialQuality
      defaultMaterial i sourceBatches passes traits = Ok (passes', traits') ->
    Spec.traits_grown (eq drawableIndex) traits traits'.
Proof.
  induction sourceBatches as [|sourceBatch rest IH];
    intros i passes traits passes' traits' Hrun; simpl in Hrun.
  - inversion Hrun; subst. apply traits_grown_refl.
  - destruct (FindTechnique _ _ _) as [technique|].
    + destruct (CollectSourceBatches_passes _ _ _ _ _ passes traits) as [[passes1 traits1]|]
        eqn:Hpasses; simpl in Hrun; [|discriminate].
      eapply traits_grown_trans;
        [exact (CollectSourceBatches_passes_traits _ _ _ _ _ _ _ _ _ Hpasses)|].
      eapply IH. exact Hrun.
    + simpl in Hrun. eapply IH. exact Hrun.
Qed.

(** X11.  [UpdateAndCollectSourceBatchesForThread] keeps the length of the trait
    table, writes only the slots of the drawables of its range, and clears
    no trait: every bit that a slot had is still set when it returns. *)
Theorem UpdateAndCollectSourceBatchesForThread_traits (threadIndex : nat)
    (drawables : list Drawable) :
  forall s s',
    UpdateAndCollectSourceBatchesForThread threadIndex drawables s = Ok s' ->
    Spec.traits_grown
      (fun i => exists drawable, In drawable drawables /\ GetDrawableIndex drawable = i)
      (traits_ s) (traits_ s').
Proof.
  induction drawables as [|drawable rest IH]; intros s s' Hrun; simpl in Hrun.
  - inversion Hrun; subst. apply traits_grown_refl.
  - destruct (update_index (traits_ s) _ _) as [traits1|] eqn:Hupd; simpl in Hrun;
      [|discriminate].
    assert (forall a b, Spec.traits_grown (eq (GetDrawableIndex drawable)) a b ->
              Spec.traits_grown
                (fun i => exists d, In d (drawable :: rest) /\ GetDrawableIndex d = i) a b)
      as Hhead.
    { intros a b. apply traits_grown_weaken. intros i <-. exists drawable.
      split; [left; reflexivity|reflexivity]. }
    pose proof (Hhead _ _ (update_index_lor_grown _ _ _ _ Hupd)) as Hfirst.
    assert (forall s1,
              Spec.traits_grown
                (fun i => exists d, In d (drawable :: rest) /\ GetDrawableIndex d = i)
                (traits_ s) (traits_ s1) ->
              UpdateAndCollectSourceBatchesForThread threadIndex rest s1 = Ok s' ->
              Spec.traits_grown
                (fun i => exists d, In d (drawable :: rest) /\ GetDrawableIndex d = i)
                (traits_ s) (traits_ s')) as Hrest.
    { intros s1 H1 Hrun1. eapply traits_grown_trans; [exact H1|].
      eapply traits_grown_weaken; [|exact (IH _ _ Hrun1)].
      intros i (d & Hd & Hi). exists d. split; [right; exact Hd|exact Hi]. }
    destruct (Float.gt _ _ && Float.gt _ _).
    + inversion Hrun; subst. exact Hfirst.
    + destruct (truthy (Z.land (GetDrawableFlags (UpdateBatches drawable)) DRAWABLE_GEOMETRY)).
      * destruct (CollectSourceBatches_geometry _ _ _ _) as [s1|] eqn:Hbranch;
          simpl in Hrun; [|discriminate].
        destruct (CollectSourceBatches_geometry_parts _ _ _ _ _ Hbranch)
          as (traits2 & passes2 & Hvisible & Hbatches & _).
        simpl in Hvisible, Hbatches.
        apply (Hrest s1); [|exact Hrun].
        eapply traits_grown_trans; [exact Hfirst|]. apply Hhead.
        eapply traits_grown_trans; [exact (update_index_lor_grown _ _ _ _ Hvisible)|].
        exact (CollectSourceBatches_batches_traits _ _ _ _ _ _ _ _ _ _ _ Hbatches).
      * destruct (truthy (Z.land (GetDrawableFlags (UpdateBatches drawable)) DRAWABLE_LIGHT)).
        -- unfold CollectSourceBatches_light in Hrun.
           destruct (negb _ && negb _).
           ++ destruct (ThreadedVector.Insert threadIndex _ _) as [lights|];
                simpl in Hrun; [|discriminate].
              apply (Hrest (with_visibleLightsTemp_ lights (with_traits_ traits1 s))
                       Hfirst Hrun).
           ++ simpl in Hrun. apply (Hrest (with_traits_ traits1 s) Hfirst Hrun).
        -- simpl in Hrun. apply (Hrest (with_traits_ traits1 s) Hfirst Hrun).
Qed.

(** *** What the collection takes as visible *)

Lemma UpdateAndCollectSourceBatchesForThread_visible (threadIndex : nat)
    (drawables : list Drawable) :
  forall s s',
    UpdateAndCollectSourceBatchesForThread threadIndex drawables s = Ok s' ->
    (forall drawable,
       In drawable (ThreadedVector.elements (visibleGeometries_ s')) ->
       In drawable (ThreadedVector.elements (visibleGeometries_ s))
       \/ Spec.collected_geometry UpdateBatches drawables drawable)
    /\ (forall light,
          In light (ThreadedVector.elements (visibleLightsTemp_ s')) ->
          In light (ThreadedVector.elements (visibleLightsTemp_ s))
          \/ Spec.collected_light UpdateBatches drawables light).
Proof.
  induction drawables as [|drawable rest IH]; intros s s' Hrun; simpl in Hrun.
  - inversion Hrun; subst. split; intros x Hx; left; exact Hx.
  - destruct (update_index (traits_ s) _ _) as [traits1|]; simpl in Hrun; [|discriminate].
    assert (forall s1,
              (forall x, In x (ThreadedVector.elements (visibleGeometries_ s1)) ->
                 In x (ThreadedVector.elements (visibleGeometries_ s))
                 \/ Spec.collected_geometry UpdateBatches (drawable :: rest) x) ->
              (forall x, In x (ThreadedVector.elements (visibleLightsTemp_ s1)) ->
                 In x (ThreadedVector.elements (visibleLightsTemp_ s))
                 \/ Spec.collected_light UpdateBatches (drawable :: rest) x) ->
              UpdateAndCollectSourceBatchesForThread threadIndex rest s1 = Ok s' ->
              (forall x, In x (ThreadedVector.elements (visibleGeometries_ s')) ->
                 In x (ThreadedVector.elements (visibleGeometries_ s))
                 \/ Spec.collected_geometry UpdateBatches (drawable :: rest) x)
              /\ (forall x, In x (ThreadedVector.elements (visibleLightsTemp_ s')) ->
                    In x (ThreadedVector.elements (visibleLightsTemp_ s))
                    \/ Spec.collected_light UpdateBatches (drawable :: rest) x)) as Hrest.
    { intros s1 Hg1 Hl1 Hrun1. destruct (IH _ _ Hrun1) as [Hg2 Hl2]. split.
      - intros x Hx. destruct (Hg2 x Hx) as [Hold|(given & Hin & Hnew)]; [auto|].
        right. exists given. split; [right; exact Hin|exact Hnew].
      - intros x Hx. destruct (Hl2 x Hx) as [Hold|(given & Hin & Hnew)]; [auto|].
        right. exists given. split; [right; exact Hin|exact Hnew]. }
    destruct (Float.gt _ _ && Float.gt _ _) eqn:Hfar.
    + inversion Hrun; subst. split; intros x Hx; left; exact Hx.
    + destruct (truthy (Z.land (GetDrawableFlags (UpdateBatches drawable)) DRAWABLE_GEOMETRY))
        eqn:Hgeometry.
      * destruct (CollectSourceBatches_geometry _ _ _ _) as [s1|] eqn:Hbranch;
          simpl in Hrun; [|discriminate].
        destruct (CollectSourceBatches_geometry_parts _ _ _ _ _ Hbranch)
          as (traits2 & passes2 & _ & _ & _ & Hins & Hlights & _).
        simpl in Hins, Hlights.
        apply (Hrest s1); [| |exact Hrun].
        -- intros x Hx. apply (Insert_elements _ _ _ _ Hins) in Hx.
           destruct Hx as [Hold| ->]; [left; exact Hold|].
           right. exists drawable. split; [left; reflexivity|].
           split; [reflexivity|]. split; [exact Hgeometry|exact Hfar].
        -- intros x Hx. rewrite Hlights in Hx. left. exact Hx.
      * destruct (truthy (Z.land (GetDrawableFlags (UpdateBatches drawable)) DRAWABLE_LIGHT))
          eqn:Hlight.
        -- unfold CollectSourceBatches_light in Hrun.
           destruct (EffectiveColorIsBlack (UpdateBatches drawable)) eqn:Hblack;
             simpl in Hrun.
           ++ apply (Hrest (with_traits_ traits1 s)); [| |exact Hrun];
                intros x Hx; left; exact Hx.
           ++ destruct (GetLightMaskEffective (UpdateBatches drawable) =? 0) eqn:Hmask;
                simpl in Hrun.
              ** apply (Hrest (with_traits_ traits1 s)); [| |exact Hrun];
                   intros x Hx; left; exact Hx.
              ** destruct (ThreadedVector.Insert threadIndex _ _) as [lights|] eqn:Hins;
                   simpl in Hrun; [|discriminate].
                 apply (Hrest (with_visibleLightsTemp_ lights (with_traits_ traits1 s)));
                   [| |exact Hrun].
                 --- intros x Hx. left. exact Hx.
                 --- intros x Hx. simpl in Hx, Hins.
                     apply (Insert_elements (T := Light) _ _ _ _ Hins) in Hx.
                     destruct Hx as [Hold| ->]; [left; exact Hold|].
                     right. exists drawable. split; [left; reflexivity|].
                     split; [reflexivity|]. split; [exact Hfar|].
                     split; [exact Hgeometry|]. split; [exact Hlight|].
                     split; [exact Hblack|]. apply Z.eqb_neq. exact Hmask.
        -- simpl in Hrun.
           apply (Hrest (with_traits_ traits1 s)); [| |exact Hrun];
             intros x Hx; left; exact Hx.
Qed.

Lemma InitializePasses_visible (passes : list ScenePassDescription)
    (s s' : SceneBatchCollector) :
  InitializePasses passes s = Ok s' ->
  visibleGeometries_ s' = visibleGeometries_ s
  /\ visibleLightsTemp_ s' = visibleLightsTemp_ s.
Proof.
  unfold InitializePasses. intros Hrun.
  destruct (InitializePasses_loop _ _ _) as [passes'|]; simpl in Hrun; [|discriminate].
  inversion Hrun; subst. split; reflexivity.
Qed.


(** *** The assembly of scene batches *)

Lemma Insert_elements_length {T : Type} (threadIndex : nat) (x : T) (v v' : list (list T)) :
  ThreadedVector.Insert threadIndex x v = Ok v' ->
  length (ThreadedVector.elements v') = S (length (ThreadedVector.elements v))
  /\ length v' = length v.
Proof.
  unfold ThreadedVector.Insert, update_index, ThreadedVector.elements. intros Hins.
  destruct (v !! threadIndex) as [bucket|] eqn:Hb; [|discriminate].
  inversion Hins; subst; clear Hins. split; [|apply length_insert].
  rewrite insert_take_drop by (eapply lookup_lt_Some; exact Hb).
  rewrite <- (take_drop_middle v threadIndex bucket Hb) at 3.
  rewrite !concat_app. simpl. repeat (rewrite length_app; simpl). lia.
Qed.

(** The first phase makes the scene batch of every intermediate batch, in
    their order, and queues at most one slot for each; the slots it queues
    are those of the batches it has made. *)
Lemma CollectSceneBaseBatches_range_each (live : LiveHashes) (defaultMaterial : Material)
    (threadIndex offset : nat) (batches : list IntermediateSceneBatch.t) :
  forall i subPassCache queue sceneBatches subPassCache' queue',
    CollectSceneBaseBatches_range live defaultMaterial threadIndex offset i batches
      subPassCache queue = Ok (sceneBatches, subPassCache', queue') ->
    Forall2 (Spec.scene_batch_of defaultMaterial) batches sceneBatches
    /\ (length (ThreadedVector.elements queue')
        <= length (ThreadedVector.elements queue) + length batches)%nat
    /\ (forall slot,
          In slot (ThreadedVector.elements queue') ->
          In slot (ThreadedVector.elements queue)
          \/ (i + offset <= slot < i + offset + length batches)%nat).
Proof.
  induction batches as [|batch rest IH];
    intros i subPassCache queue sceneBatches subPassCache' queue' Hrun; simpl in Hrun.
  - inversion Hrun; subst. split; [constructor|]. split; [lia|]. intros slot Hs. left. exact Hs.
  - destruct (IntermediateSceneBatch.geometry_ batch) as [drawable|] eqn:Hgeometry;
      simpl in Hrun; [|discriminate].
    unfold at_index in Hrun.
    destruct (GetBatches drawable !! IntermediateSceneBatch.sourceBatchIndex_ batch)
      as [sourceBatch|] eqn:Hsource; simpl in Hrun; [|discriminate].
    destruct (SubPassPipelineStateCache.GetPipelineState live _ subPassCache)
      as [[pipelineState cache1]|]; simpl in Hrun; [|discriminate].
    assert (exists queue1,
              (if negb (non_null pipelineState)
               then ThreadedVector.Insert threadIndex (i + offset)%nat queue
               else Ok queue) = Ok queue1
              /\ (length (ThreadedVector.elements queue1)
                  <= S (length (ThreadedVector.elements queue)))%nat
              /\ (forall slot, In slot (ThreadedVector.elements queue1) ->
                    In slot (ThreadedVector.elements queue) \/ slot = (i + offset)%nat))
      as (queue1 & Hqueue & Hlen1 & Hin1).
    { destruct (negb (non_null pipelineState)).
      - destruct (ThreadedVector.Insert threadIndex (i + offset)%nat queue) as [queue1|]
          eqn:Hins; [|simpl in Hrun; discriminate].
        exists queue1. split; [reflexivity|].
        destruct (Insert_elements_length _ _ _ _ Hins) as [Hlen _].
        split; [lia|]. intros slot Hs. apply (Insert_elements _ _ _ _ Hins). exact Hs.
      - exists queue. split; [reflexivity|]. split; [lia|]. intros slot Hs. left. exact Hs. }
    rewrite Hqueue in Hrun. simpl in Hrun.
    destruct (CollectSceneBaseBatches_range live defaultMaterial threadIndex offset (S i) rest
                cache1 queue1) as [[[others cache2] queue2]|] eqn:Hrest; simpl in Hrun;
      [|discriminate].
    inversion Hrun; subst; clear Hrun.
    destruct (IH _ _ _ _ _ _ Hrest) as (Heach & Hlen & Hslots).
    split; [|split].
    + constructor; [|exact Heach].
      exists drawable, sourceBatch. simpl. repeat split; assumption.
    + simpl. lia.
    + intros slot Hs. destruct (Hslots slot Hs) as [Hs1|Hs1].
      * destruct (Hin1 slot Hs1) as [Hold| ->]; [left; exact Hold|right; simpl; lia].
      * right. simpl. lia.
Qed.

Lemma same_but_state_refl (a : SceneBatch.t) : Spec.same_but_state a a.
Proof. exists (SceneBatch.pipelineState_ a). destruct a; reflexivity. Qed.

Lemma same_but_state_trans (a b c : SceneBatch.t) :
  Spec.same_but_state a b -> Spec.same_but_state b c -> Spec.same_but_state a c.
Proof. intros [x ->] [y ->]. exists y. destruct a; reflexivity. Qed.

Lemma same_but_state_insert (sceneBatches : list SceneBatch.t) (slot : nat)
    (sceneBatch : SceneBatch.t) (state : option PipelineState) :
  sceneBatches !! slot = Some sceneBatch ->
  Forall2 Spec.same_but_state sceneBatches
    (<[slot := SceneBatch.with_pipelineState_ state sceneBatch]> sceneBatches).
Proof.
  intros Hslot. apply Forall2_same_length_lookup_2.
  - rewrite length_insert. reflexivity.
  - intros i x y Hx Hy. destruct (decide (i = slot)) as [->|Hne].
    + rewrite list_lookup_insert_eq in Hy by (eapply lookup_lt_Some; exact Hslot).
      rewrite Hslot in Hx. inversion Hx; inversion Hy; subst. exists state. reflexivity.
    + rewrite list_lookup_insert_ne in Hy by congruence.
      rewrite Hx in Hy. inversion Hy; subst. apply same_but_state_refl.
Qed.

Lemma same_but_state_all_trans (a : list SceneBatch.t) :
  forall b c,
    Forall2 Spec.same_but_state a b -> Forall2 Spec.same_but_state b c ->
    Forall2 Spec.same_but_state a c.
Proof.
  induction a as [|x a IH]; intros b c Hab Hbc; inversion Hab; subst; inversion Hbc; subst;
    constructor; eauto using same_but_state_trans.
Qed.

Lemma GetOrCreatePipelineState_calls (drawable : option Drawable)
    (key : SubPassPipelineStateKey.t) (factoryContext : SubPassPipelineStateContext.t)
    (factory : ScenePipelineStateFactory) (live : LiveHashes) (calls calls' : list FactoryCall)
    (cache_ cache' : gmap SubPassPipelineStateKey.t SubPassPipelineStateEntry.t)
    (state : option PipelineState) :
  SubPassPipelineStateCache.GetOrCreatePipelineState drawable key factoryContext factory
    live calls cache_ = Ok (state, cache', calls') ->
  exists new, calls' = calls ++ new /\ (length new <= 1)%nat.
Proof.
  unfold SubPassPipelineStateCache.GetOrCreatePipelineState. intros Hrun.
  destruct (if negb _ then _ else _) as [create|]; simpl in Hrun; [|discriminate].
  destruct create; inversion Hrun; subst.
  - eexists. split; [reflexivity|]. simpl. lia.
  - exists []. split; [symmetry; apply app_nil_r|]. simpl. lia.
Qed.

(** The second phase changes the pipeline states of the scene batches and
    nothing else of them, and calls the factory at most once for each
    queued slot. *)
Lemma CollectSceneBaseBatches_create_each (live : LiveHashes)
    (subPassContext : SubPassPipelineStateContext.t) (queued : list nat) :
  forall sceneBatches subPassCache calls sceneBatches' subPassCache' calls',
    CollectSceneBaseBatches_create live subPassContext queued sceneBatches subPassCache calls
    = Ok (sceneBatches', subPassCache', calls') ->
    Forall2 Spec.same_but_state sceneBatches sceneBatches'
    /\ exists new, calls' = calls ++ new /\ (length new <= length queued)%nat.
Proof.
  induction queued as [|slot rest IH];
    intros sceneBatches subPassCache calls sceneBatches' subPassCache' calls' Hrun;
    simpl in Hrun.
  - inversion Hrun; subst. split.
    + apply Forall_Forall2_diag. apply Forall_forall. intros. apply same_but_state_refl.
    + exists []. split; [symmetry; apply app_nil_r|]. simpl. lia.
  - unfold at_index in Hrun.
    destruct (sceneBatches !! slot) as [sceneBatch|] eqn:Hslot; simpl in Hrun;
      [|discriminate].
    destruct (SubPassPipelineStateKey.of_batch sceneBatch) as [key|]; simpl in Hrun;
      [|discriminate].
    destruct (SubPassPipelineStateCache.GetOrCreatePipelineState _ _ _ _ _ _ _)
      as [[[state cache1] calls1]|] eqn:Hcreate; simpl in Hrun; [|discriminate].
    destruct (GetOrCreatePipelineState_calls _ _ _ _ _ _ _ _ _ _ Hcreate)
      as (new1 & -> & Hlen1).
    destruct (IH _ _ _ _ _ _ Hrun) as (Hsame & new2 & -> & Hlen2).
    split.
    + eapply same_but_state_all_trans; [|exact Hsame].
      apply same_but_state_insert. exact Hslot.
    + exists (new1 ++ new2). split; [rewrite app_assoc; reflexivity|].
      rewrite length_app. simpl. lia.
Qed.

Lemma scene_batch_of_same (defaultMaterial : Material) (batch : IntermediateSceneBatch.t)
    (a b : SceneBatch.t) :
  Spec.scene_batch_of defaultMaterial batch a -> Spec.same_but_state a b ->
  Spec.scene_batch_of defaultMaterial batch b.
Proof.
  intros (drawable & sourceBatch & H1 & H2 & H3 & H4 & H5 & H6 & H7 & H8) [state ->].
  exists drawable, sourceBatch. simpl. repeat split; assumption.
Qed.

Lemma scene_batch_of_all_same (defaultMaterial : Material)
    (batches : list IntermediateSceneBatch.t) (a : list SceneBatch.t) :
  Forall2 (Spec.scene_batch_of defaultMaterial) batches a ->
  forall b, Forall2 Spec.same_but_state a b ->
            Forall2 (Spec.scene_batch_of defaultMaterial) batches b.
Proof.
  induction 1 as [|batch x rest others Hone _ IH]; intros b Hsame;
    inversion Hsame; subst; constructor.
  - eapply scene_batch_of_same; eassumption.
  - apply IH. assumption.
Qed.

Lemma CollectSceneBaseBatches_parts (live : LiveHashes)
    (subPassCache subPassCache' : gmap SubPassPipelineStateKey.t SubPassPipelineStateEntry.t)
    (isLit : bool) (intermediateBatches : list (list IntermediateSceneBatch.t))
    (s s' : SceneBatchCollector) (sceneBatches : list SceneBatch.t) :
  CollectSceneBaseBatches live subPassCache isLit intermediateBatches s
  = Ok (sceneBatches, subPassCache', s') ->
  Forall2 (Spec.scene_batch_of (defaultMaterial_ s))
    (ThreadedVector.elements intermediateBatches) sceneBatches
  /\ exists queue new,
       s' = with_pipeline_work_ queue (factoryCalls_ s ++ new) s
       /\ (length new <= ThreadedVector.Size intermediateBatches)%nat.
Proof.
  unfold CollectSceneBaseBatches. intros Hrun.
  destruct (CollectSceneBaseBatches_range live (defaultMaterial_ s) 0 0 0 _ subPassCache _)
    as [[[made cache1] queue]|] eqn:Hrange; simpl in Hrun; [|discriminate].
  destruct (CollectSceneBaseBatches_create live _ _ made cache1 (factoryCalls_ s))
    as [[[filled cache2] calls]|] eqn:Hcreate; simpl in Hrun; [|discriminate].
  inversion Hrun; subst; clear Hrun.
  destruct (CollectSceneBaseBatches_range_each _ _ _ _ _ _ _ _ _ _ _ Hrange)
    as (Heach & Hqueue & _).
  destruct (CollectSceneBaseBatches_create_each _ _ _ _ _ _ _ _ _ Hcreate)
    as (Hsame & new & Hcalls & Hlen).
  split.
  - eapply scene_batch_of_all_same; eassumption.
  - exists queue, new. rewrite Hcalls. split; [reflexivity|].
    unfold ThreadedVector.Clear, ThreadedVector.elements in Hqueue.
    rewrite concat_replicate_nil in Hqueue. simpl in Hqueue.
    unfold ThreadedVector.Size, ThreadedVector.elements in *. lia.
Qed.


Lemma CollectSceneBatches_passes_each (live : LiveHashes) (passes : list PassData.t) :
  forall s passes' s',
    CollectSceneBatches_passes live passes s = Ok (passes', s') ->
    Forall2 (Spec.pass_assembled (defaultMaterial_ s)) passes passes'
    /\ exists queue new,
         s' = with_pipeline_work_ queue (factoryCalls_ s ++ new) s
         /\ (length new <= Spec.intermediate_batches passes)%nat.
Proof.
  induction passes as [|passData rest IH]; intros s passes' s' Hrun; simpl in Hrun.
  - inversion Hrun; subst. split; [constructor|].
    exists (sceneBatchesWithoutPipelineStates_ s'), []. rewrite app_nil_r.
    split; [destruct s'; reflexivity|]. simpl. lia.
  - destruct (CollectSceneBaseBatches live (PassData.unlitPipelineStateCache_ passData) false
                (PassData.unlitBatches_ passData) s)
      as [[[unlit cache1] s1]|] eqn:Hunlit; simpl in Hrun; [|discriminate].
    destruct (CollectSceneBaseBatches live _ true _ s1)
      as [[[lit cache2] s2]|] eqn:Hlit; simpl in Hrun; [|discriminate].
    destruct (CollectSceneBatches_passes live rest s2) as [[rest' s3]|] eqn:Hrest;
      simpl in Hrun; [|discriminate].
    inversion Hrun; subst; clear Hrun.
    destruct (CollectSceneBaseBatches_parts _ _ _ _ _ _ _ _ Hunlit)
      as (Heach1 & queue1 & new1 & -> & Hlen1).
    destruct (CollectSceneBaseBatches_parts _ _ _ _ _ _ _ _ Hlit)
      as (Heach2 & queue2 & new2 & -> & Hlen2).
    destruct (IH _ _ _ Hrest) as (Hothers & queue3 & new3 & -> & Hlen3).
    simpl in *. split.
    + constructor; [|exact Hothers].
      unfold Spec.pass_assembled. simpl.
      do 6 (split; [reflexivity|]). split; assumption.
    + exists queue3, (new1 ++ new2 ++ new3). rewrite <- !app_assoc.
      split; [reflexivity|].
      unfold Spec.intermediate_batches in *. simpl. rewrite !length_app. lia.
Qed.


Lemma hashes_differ_defined (live : LiveHashes) (key : SubPassPipelineStateKey.t)
    (entry : SubPassPipelineStateEntry.t) :
  non_null (SubPassPipelineStateKey.geometry_ key) = true ->
  non_null (SubPassPipelineStateKey.material_ key) = true ->
  non_null (SubPassPipelineStateKey.pass_ key) = true ->
  exists differ, SubPassPipelineStateCache.hashes_differ live key entry = Ok differ.
Proof.
  unfold SubPassPipelineStateCache.hashes_differ, hash_through.
  destruct (SubPassPipelineStateKey.geometry_ key); [|discriminate].
  destruct (SubPassPipelineStateKey.material_ key); [|discriminate].
  destruct (SubPassPipelineStateKey.pass_ key); [|discriminate].
  intros _ _ _. simpl.
  destruct (negb _); [eauto|]. destruct (negb _); eauto.
Qed.

Lemma of_batch_complete (sceneBatch : SceneBatch.t) :
  Spec.scene_batch_complete sceneBatch ->
  exists key,
    SubPassPipelineStateKey.of_batch sceneBatch = Ok key
    /\ non_null (SubPassPipelineStateKey.geometry_ key) = true
    /\ non_null (SubPassPipelineStateKey.material_ key) = true
    /\ non_null (SubPassPipelineStateKey.pass_ key) = true.
Proof.
  intros (Hdrawable & Hgeometry & Hmaterial & Hpass).
  unfold SubPassPipelineStateKey.of_batch.
  destruct (SceneBatch.drawable_ sceneBatch); [|discriminate].
  eexists. split; [reflexivity|]. simpl. split; [exact Hgeometry|]. split; [|exact Hpass].
  destruct (SceneBatch.material_ sceneBatch); [reflexivity|discriminate].
Qed.

Lemma CollectSceneBaseBatches_range_defined (live : LiveHashes) (defaultMaterial : Material)
    (threadIndex offset : nat) (batches : list IntermediateSceneBatch.t) :
  Forall Spec.batch_ready batches ->
  forall i subPassCache (queue : list (list nat)),
    (threadIndex < length queue)%nat ->
    exists sceneBatches subPassCache' queue',
      CollectSceneBaseBatches_range live defaultMaterial threadIndex offset i batches
        subPassCache queue = Ok (sceneBatches, subPassCache', queue')
      /\ Forall Spec.scene_batch_complete sceneBatches.
Proof.
  induction 1 as [|batch rest Hready _ IH]; intros i subPassCache queue Hthread; simpl.
  - eexists _, _, _. split; [reflexivity|constructor].
  - destruct Hready as (drawable & sourceBatch & Hgeometry & Hsource & Hgeom & Hbase).
    rewrite Hgeometry. simpl. unfold at_index. rewrite Hsource. simpl.
    assert (Spec.scene_batch_complete
              (SceneBatch.mk (Some drawable) (GetDrawableIndex drawable)
                 (IntermediateSceneBatch.sourceBatchIndex_ batch)
                 (SourceBatch.geometry_ sourceBatch)
                 (Some (default defaultMaterial (SourceBatch.material_ sourceBatch)))
                 (IntermediateSceneBatch.basePass_ batch) None)) as Hcomplete.
    { unfold Spec.scene_batch_complete. simpl. repeat split; assumption. }
    pose proof (hashes_differ_defined live
                (SubPassPipelineStateKey.mk (GetPipelineStateHash drawable)
                   (SourceBatch.geometry_ sourceBatch)
                   (Some (material_address
                            (default defaultMaterial (SourceBatch.material_ sourceBatch))))
                   (IntermediateSceneBatch.basePass_ batch))) as Hdiffer.
    unfold SubPassPipelineStateCache.GetPipelineState.
    assert (exists pipelineState cache1,
              match subPassCache !! SubPassPipelineStateKey.mk (GetPipelineStateHash drawable)
                      (SourceBatch.geometry_ sourceBatch)
                      (Some (material_address
                               (default defaultMaterial (SourceBatch.material_ sourceBatch))))
                      (IntermediateSceneBatch.basePass_ batch) with
              | Some entry =>
                  if SubPassPipelineStateEntry.invalidated_ entry
                  then Ok (None, subPassCache)
                  else
                    do differ <- SubPassPipelineStateCache.hashes_differ live
                                   (SubPassPipelineStateKey.mk (GetPipelineStateHash drawable)
                                      (SourceBatch.geometry_ sourceBatch)
                                      (Some (material_address
                                               (default defaultMaterial
                                                  (SourceBatch.material_ sourceBatch))))
                                      (IntermediateSceneBatch.basePass_ batch)) entry;
                    if differ
                    then Ok (None,
                             <[SubPassPipelineStateKey.mk (GetPipelineStateHash drawable)
                                 (SourceBatch.geometry_ sourceBatch)
                                 (Some (material_address
                                          (default defaultMaterial
                                             (SourceBatch.material_ sourceBatch))))
                                 (IntermediateSceneBatch.basePass_ batch)
                               := SubPassPipelineStateEntry.with_invalidated_ true entry]>
                               subPassCache)
                    else Ok (SubPassPipelineStateEntry.pipelineState_ entry, subPassCache)
              | None => Ok (None, subPassCache)
              end = Ok (pipelineState, cache1)) as (pipelineState & cache1 & Hget).
    { destruct (subPassCache !! _) as [entry|]; [|eauto].
      destruct (SubPassPipelineStateEntry.invalidated_ entry); [eauto|].
      destruct (Hdiffer entry) as [differ Hd]; try assumption; try reflexivity.
      rewrite Hd. simpl. destruct differ; eauto. }
    rewrite Hget. simpl.
    destruct (negb (non_null pipelineState)).
    + destruct (Insert_in_range threadIndex (i + offset)%nat queue Hthread)
        as (queue1 & Hins & Hlen).
      rewrite Hins. simpl.
      destruct (IH (S i) cache1 queue1 ltac:(lia))
        as (others & cache2 & queue2 & Hrest & Hall).
      rewrite Hrest. simpl. eexists _, _, _. split; [reflexivity|].
      constructor; [|exact Hall].
      destruct Hcomplete as (C1 & C2 & C3 & C4).
      unfold Spec.scene_batch_complete. simpl. repeat split; assumption.
    + simpl.
      destruct (IH (S i) cache1 queue Hthread)
        as (others & cache2 & queue2 & Hrest & Hall).
      rewrite Hrest. simpl. eexists _, _, _. split; [reflexivity|].
      constructor; [|exact Hall].
      destruct Hcomplete as (C1 & C2 & C3 & C4).
      unfold Spec.scene_batch_complete. simpl. repeat split; assumption.
Qed.

Lemma CollectSceneBaseBatches_create_defined (live : LiveHashes)
    (subPassContext : SubPassPipelineStateContext.t) (queued : list nat) :
  forall sceneBatches subPassCache calls,
    Forall Spec.scene_batch_complete sceneBatches ->
    (forall slot, In slot queued -> (slot < length sceneBatches)%nat) ->
    exists result,
      CollectSceneBaseBatches_create live subPassContext queued sceneBatches subPassCache
        calls = Ok result.
Proof.
  induction queued as [|slot rest IH]; intros sceneBatches subPassCache calls Hall Hslots;
    simpl.
  - eauto.
  - unfold at_index.
    destruct (lookup_lt_is_Some_2 sceneBatches slot (Hslots slot (or_introl eq_refl)))
      as [sceneBatch Hslot].
    rewrite Hslot. simpl.
    pose proof (Forall_lookup_1 _ _ _ _ Hall Hslot) as Hcomplete.
    destruct (of_batch_complete sceneBatch Hcomplete) as (key & Hkey & Hg & Hm & Hp).
    rewrite Hkey. simpl.
    unfold SubPassPipelineStateCache.GetOrCreatePipelineState.
    destruct (hashes_differ_defined live key
                (default SubPassPipelineStateEntry.empty (subPassCache !! key)) Hg Hm Hp)
      as [differ Hdiffer].
    assert (exists create,
              (if negb (non_null (SubPassPipelineStateEntry.pipelineState_
                                    (default SubPassPipelineStateEntry.empty
                                       (subPassCache !! key))))
               then Ok true
               else if SubPassPipelineStateEntry.invalidated_
                         (default SubPassPipelineStateEntry.empty (subPassCache !! key))
                    then Ok true
                    else SubPassPipelineStateCache.hashes_differ live key
                           (default SubPassPipelineStateEntry.empty (subPassCache !! key)))
              = Ok create) as [create Hcreate].
    { destruct (negb _); [eauto|]. destruct (SubPassPipelineStateEntry.invalidated_ _); eauto. }
    rewrite Hcreate. simpl.
    destruct create; simpl; apply IH.
    + apply Forall_insert; [exact Hall|].
      destruct Hcomplete as (C1 & C2 & C3 & C4).
      unfold Spec.scene_batch_complete. simpl. repeat split; assumption.
    + intros other Hother. rewrite length_insert. apply Hslots. right. exact Hother.
    + apply Forall_insert; [exact Hall|].
      destruct Hcomplete as (C1 & C2 & C3 & C4).
      unfold Spec.scene_batch_complete. simpl. repeat split; assumption.
    + intros other Hother. rewrite length_insert. apply Hslots. right. exact Hother.
Qed.

Lemma CollectSceneBaseBatches_defined (live : LiveHashes)
    (subPassCache : gmap SubPassPipelineStateKey.t SubPassPipelineStateEntry.t)
    (isLit : bool) (intermediateBatches : list (list IntermediateSceneBatch.t))
    (s : SceneBatchCollector) :
  (0 < numThreads_ s)%nat ->
  Forall Spec.batch_ready (ThreadedVector.elements intermediateBatches) ->
  exists sceneBatches subPassCache' s',
    CollectSceneBaseBatches live subPassCache isLit intermediateBatches s
    = Ok (sceneBatches, subPassCache', s')
    /\ numThreads_ s' = numThreads_ s.
Proof.
  intros Hthreads Hready. unfold CollectSceneBaseBatches.
  destruct (CollectSceneBaseBatches_range_defined live (defaultMaterial_ s) 0 0 _ Hready 0
              subPassCache
              (ThreadedVector.Clear (numThreads_ s) (sceneBatchesWithoutPipelineStates_ s)))
    as (made & cache1 & queue & Hrange & Hcomplete).
  { unfold ThreadedVector.Clear. rewrite length_replicate. exact Hthreads. }
  rewrite Hrange. simpl.
  destruct (CollectSceneBaseBatches_range_each _ _ _ _ _ _ _ _ _ _ _ Hrange)
    as (Heach & _ & Hslots).
  destruct (CollectSceneBaseBatches_create_defined live
              (SubPassPipelineStateContext.mk (camera_ s)
                 (if isLit then mainLight_ s else None))
              (ThreadedVector.elements queue) made cache1 (factoryCalls_ s) Hcomplete)
    as [[[filled cache2] calls] Hcreate].
  { intros slot Hslot. destruct (Hslots slot Hslot) as [Hold|Hnew].
    - unfold ThreadedVector.Clear, ThreadedVector.elements in Hold.
      rewrite concat_replicate_nil in Hold. destruct Hold.
    - rewrite <- (Forall2_length _ _ _ Heach). lia. }
  rewrite Hcreate. simpl. eexists _, _, _. split; reflexivity.
Qed.

Lemma CollectSceneBatches_defined (live : LiveHashes) (s : SceneBatchCollector) :
  (0 < numThreads_ s)%nat ->
  Forall (fun passData =>
            Forall Spec.batch_ready
              (ThreadedVector.elements (PassData.unlitBatches_ passData))
            /\ Forall Spec.batch_ready
                 (ThreadedVector.elements (PassData.litBatches_ passData)))
    (passes_ s) ->
  exists s', CollectSceneBatches live s = Ok s'.
Proof.
  intros Hthreads Hready. unfold CollectSceneBatches.
  assert (exists passes' s1,
            CollectSceneBatches_passes live (passes_ s) s = Ok (passes', s1))
    as (passes' & s1 & Hrun).
  { generalize dependent s. intros s. generalize (passes_ s) as passes. intros passes.
    revert s. induction passes as [|passData rest IH]; intros s Hthreads Hready; simpl.
    - eauto.
    - inversion Hready as [|? ? [Hunlit Hlit] Hothers]; subst.
      destruct (CollectSceneBaseBatches_defined live
                  (PassData.unlitPipelineStateCache_ passData) false
                  (PassData.unlitBatches_ passData) s Hthreads Hunlit)
        as (unlit & cache1 & s1 & Hrun1 & Hn1).
      rewrite Hrun1. simpl.
      destruct (CollectSceneBaseBatches_defined live
                  (PassData.litPipelineStateCache_ passData) true
                  (PassData.litBatches_ passData) s1 ltac:(lia) Hlit)
        as (lit & cache2 & s2 & Hrun2 & Hn2).
      rewrite Hrun2. simpl.
      destruct (IH s2 ltac:(lia) Hothers) as (rest' & s3 & Hrest).
      rewrite Hrest. simpl. eauto. }
  rewrite Hrun. simpl. eauto.
Qed.


(** *** The records of the visible lights *)

Lemma TestDrawables_range_kept (contains : Drawable -> bool) (traits : list Z)
    (lightMask : Z) (inside : bool) (range : list Drawable) :
  forall result_ result',
    TestDrawables_range contains traits lightMask range inside result_ = Ok result' ->
    forall drawable,
      In drawable result' ->
      In drawable result_
      \/ Spec.visible_geometry traits drawable = true
         /\ Z.land (GetLightMask drawable) lightMask <> 0.
Proof.
  induction range as [|candidate rest IH]; intros result_ result' Hrun drawable Hin;
    simpl in Hrun.
  - inversion Hrun; subst. left. exact Hin.
  - unfold at_index in Hrun.
    destruct (traits !! GetDrawableIndex candidate) as [t|] eqn:Hslot; simpl in Hrun;
      [|discriminate].
    destruct (IH _ _ Hrun drawable Hin) as [Hold|Hnew]; [|right; exact Hnew].
    destruct (truthy (Z.land t TransientDrawableIndex.DrawableVisibleGeometry)) eqn:Hbit;
      [|left; exact Hold].
    destruct (truthy (Z.land (GetLightMask candidate) lightMask)) eqn:Hmask;
      [|left; exact Hold].
    destruct (inside || contains candidate); [|left; exact Hold].
    apply in_app_or in Hold. destruct Hold as [Hold|[<-|[]]]; [left; exact Hold|].
    right. unfold Spec.visible_geometry. rewrite Hslot. split; [exact Hbit|].
    unfold truthy in Hmask. rewrite negb_true_iff, Z.eqb_neq in Hmask. exact Hmask.
Qed.

Lemma Octree_GetDrawables_kept (contains : Drawable -> bool) (traits : list Z)
    (lightMask : Z) (visits : list (list Drawable * bool)) :
  forall result_ result',
    Octree_GetDrawables (fun range inside result_ =>
                           TestDrawables_range contains traits lightMask range inside result_)
      visits result_ = Ok result' ->
    forall drawable,
      In drawable result' ->
      In drawable result_
      \/ Spec.visible_geometry traits drawable = true
         /\ Z.land (GetLightMask drawable) lightMask <> 0.
Proof.
  induction visits as [|[range inside] rest IH]; intros result_ result' Hrun drawable Hin;
    simpl in Hrun.
  - inversion Hrun; subst. left. exact Hin.
  - destruct (TestDrawables_range contains traits lightMask range inside result_)
      as [result1|] eqn:Htest; simpl in Hrun; [|discriminate].
    destruct (IH _ _ Hrun drawable Hin) as [Hold|Hnew]; [|right; exact Hnew].
    exact (TestDrawables_range_kept _ _ _ _ _ _ _ Htest drawable Hold).
Qed.

Lemma CollectLitGeometries_lit (s : SceneBatchCollector) (light : Light)
    (lightData lightData' : LightData.t) :
  Spec.visible_in_sync (traits_ s) (ThreadedVector.elements (visibleGeometries_ s)) ->
  CollectLitGeometries s light lightData = Ok lightData' ->
  forall drawable,
    In drawable (LightData.litGeometries_ lightData') ->
    In drawable (LightData.litGeometries_ lightData)
    \/ Spec.visible_geometry (traits_ s) drawable = true
       /\ Z.land (GetLightMask drawable) (Spec.lit_mask light) <> 0.
Proof.
  intros [Hsync _]. unfold CollectLitGeometries, Spec.lit_mask.
  destruct (GetLightType light); intros Hrun drawable Hin.
  - inversion Hrun; subst; clear Hrun. simpl in Hin.
    apply in_app_or in Hin. destruct Hin as [Hold|Hnew]; [left; exact Hold|].
    apply filter_In in Hnew. destruct Hnew as [Hvisible Hmask].
    right. split; [apply Hsync; exact Hvisible|].
    unfold truthy in Hmask. rewrite negb_true_iff, Z.eqb_neq in Hmask. exact Hmask.
  - unfold SpotLightLitGeometriesQuery_TestDrawables in Hrun.
    destruct (Octree_GetDrawables _ _ _) as [result|] eqn:Hquery; simpl in Hrun;
      [|discriminate].
    inversion Hrun; subst; clear Hrun. simpl in Hin.
    exact (Octree_GetDrawables_kept _ _ _ _ _ _ Hquery drawable Hin).
  - unfold PointLightLitGeometriesQuery_TestDrawables in Hrun.
    destruct (Octree_GetDrawables _ _ _) as [result|] eqn:Hquery; simpl in Hrun;
      [|discriminate].
    inversion Hrun; subst; clear Hrun. simpl in Hin.
    exact (Octree_GetDrawables_kept _ _ _ _ _ _ Hquery drawable Hin).
Qed.

Lemma ProcessLights_lit (s : SceneBatchCollector) (lights : list Light) :
  Spec.visible_in_sync (traits_ s) (ThreadedVector.elements (visibleGeometries_ s)) ->
  forall lightsData,
    ProcessLights s lights = Ok lightsData ->
    Forall2 (fun light lightData =>
               forall drawable,
                 In drawable (LightData.litGeometries_ lightData) ->
                 Spec.visible_geometry (traits_ s) drawable = true
                 /\ Z.land (GetLightMask drawable) (Spec.lit_mask light) <> 0)
      lights lightsData.
Proof.
  intros Hsync.
  induction lights as [|light rest IH]; intros lightsData Hrun; simpl in Hrun.
  - inversion Hrun; subst. constructor.
  - destruct (CollectLitGeometries s light (LightData.mk [])) as [lightData|] eqn:Hlight;
      simpl in Hrun; [|discriminate].
    destruct (ProcessLights s rest) as [restData|]; simpl in Hrun; [|discriminate].
    inversion Hrun; subst; clear Hrun. constructor; [|apply IH; reflexivity].
    intros drawable Hin.
    destruct (CollectLitGeometries_lit s light _ _ Hsync Hlight drawable Hin) as [[]|Hnew].
    exact Hnew.
Qed.


Lemma ProcessLights_defined (s : SceneBatchCollector) (lights : list Light) :
  (forall light, Spec.visits_in_range (traits_ s) (FrustumOctreeQuery_GetDrawables light)) ->
  (forall light, Spec.visits_in_range (traits_ s) (SphereOctreeQuery_GetDrawables light)) ->
  exists lightsData, ProcessLights s lights = Ok lightsData.
Proof.
  intros Hfrustum Hsphere.
  induction lights as [|light rest [restData IH]]; simpl; [eauto|].
  assert (exists lightData, CollectLitGeometries s light (LightData.mk []) = Ok lightData)
    as [lightData Hlight].
  { unfold CollectLitGeometries. destruct (GetLightType light).
    - eauto.
    - unfold SpotLightLitGeometriesQuery_TestDrawables.
      rewrite (Octree_GetDrawables_appends (Frustum_IsInsideFast light) (traits_ s)
                 (GetLightMaskEffective light) _ (Hfrustum light)).
      simpl. eauto.
    - unfold PointLightLitGeometriesQuery_TestDrawables.
      rewrite (Octree_GetDrawables_appends (Sphere_IsInsideFast light) (traits_ s)
                 (GetLightMaskEffective light) _ (Hsphere light)).
      simpl. eauto. }
  rewrite Hlight, IH. simpl. eauto.
Qed.

(** *** A whole frame *)


End Collector.

(* ===================================================================== *)
(** ** The properties on concrete scenes *)
(* ===================================================================== *)

Lemma IsValid_classifies_witness :
  PassData.IsValid
    (PassData.with_desc Scene.invalidPass 0 M_MAX_UNSIGNED 4
       (PassData.Clear 2 PassData.empty))
  = PassData.IsValid (PassData.with_desc Scene.invalidPass 0 M_MAX_UNSIGNED 4 PassData.empty).
Proof.
  apply (proj2 (IsValid_classifies
                  (PassData.with_desc Scene.invalidPass 0 M_MAX_UNSIGNED 4 PassData.empty)));
    reflexivity.
Defined.

(** C3, the claim as stated fails: a material whose only entry has no
    technique resolves to none, and its list is not empty. *)
Lemma FindTechnique_none_of_vacant_entry :
  FindTechnique 2 (Scene.geometry 0 0 5) Scene.vacantMaterial = None
  /\ GetTechniques Scene.vacantMaterial <> [].
Proof. split; [reflexivity|discriminate]. Qed.

Lemma FindTechnique_resolves_witness :
  GetTechniques Scene.vacantMaterial = []
  \/ exists entry, last (GetTechniques Scene.vacantMaterial) = Some entry
                   /\ technique_ entry = None.
Proof.
  apply (proj2 (FindTechnique_resolves 2 (Scene.geometry 0 0 5) Scene.vacantMaterial)).
  reflexivity.
Defined.

(** C5, the claim as stated fails: the only visible light is directional,
    no light exceeds its score, and it is not selected, its score being
    zero. *)
Lemma FindMainLight_none_at_zero_score :
  FindMainLight [Scene.sun 0 0] = None
  /\ Spec.directional (Scene.sun 0 0) = true
  /\ forall other, In other [Scene.sun 0 0] ->
       Float.gt (GetIntensityDivisor other) (GetIntensityDivisor (Scene.sun 0 0)) = false.
Proof.
  split; [reflexivity|]. split; [reflexivity|].
  intros other [Heq|[]]. subst other. reflexivity.
Qed.

Lemma FindMainLight_first_greatest_witness :
  FindMainLight Scene.lights = Some (Scene.sun 2 7)
  /\ FindMainLight Scene.lightsReordered = FindMainLight Scene.lights.
Proof.
  pose proof (FindMainLight_first_greatest Scene.lights) as (_ & Hfirst & _ & _ & Hstable).
  split.
  - apply (Hfirst [Scene.light 0 LIGHT_POINT 9; Scene.sun 1 3]
             (Scene.sun 2 7) [Scene.sun 3 7]).
    + reflexivity.
    + reflexivity.
    + intros earlier [Heq|[Heq|[]]]; subst earlier; reflexivity.
  - apply Hstable.
    + unfold Scene.lights, Scene.lightsReordered.
      apply (Permutation_trans (l' := [Scene.sun 1 3; Scene.light 0 LIGHT_POINT 9;
                                       Scene.sun 2 7; Scene.sun 3 7])).
      * apply perm_swap.
      * apply perm_skip. apply perm_swap.
    + reflexivity.
Defined.

Lemma FindMainLight_needs_positive_score_witness :
  FindMainLight Scene.dimLights = None.
Proof.
  apply FindMainLight_needs_positive_score.
  intros light [Heq|[Heq|[Heq|[]]]]; subst light; intros Hdir;
    first [reflexivity | discriminate Hdir].
Defined.

Lemma GetPipelineState_miss_leaves_cache_witness :
  SubPassPipelineStateCache.GetPipelineState (Scene.hashes 3) Scene.nearKey ∅ = Ok (None, ∅)
  /\ exists entry,
       Scene.nearCache !! Scene.nearKey = Some entry
       /\ SubPassPipelineStateEntry.invalidated_ entry = false
       /\ ~ Spec.hashes_match (Scene.hashes 4) Scene.nearKey entry
       /\ (None : option PipelineState) = None
       /\ <[Scene.nearKey := SubPassPipelineStateEntry.mk 3 0 0 (Some 1000%N) true]>
            Scene.nearCache
          = <[Scene.nearKey := SubPassPipelineStateEntry.with_invalidated_ true entry]>
              Scene.nearCache.
Proof.
  split.
  - apply (proj1 (GetPipelineState_miss_leaves_cache (Scene.hashes 3) Scene.nearKey ∅)).
    reflexivity.
  - apply (proj2 (GetPipelineState_miss_leaves_cache (Scene.hashes 4) Scene.nearKey
                    Scene.nearCache)).
    + reflexivity.
    + intros Heq. apply (f_equal (fun c => c !! Scene.nearKey)) in Heq.
      vm_compute in Heq. discriminate.
Defined.

Lemma CollectLitGeometries_selects_witness :
  CollectLitGeometries Scene.octree Scene.octree Scene.contains Scene.contains
    Scene.collected (Scene.sun 3 7) (LightData.mk [])
  = Ok (LightData.mk [Scene.nearGeometry])
  /\ CollectLitGeometries Scene.octree Scene.octree Scene.contains Scene.contains
       Scene.collected (Scene.light 3 LIGHT_SPOT 7) (LightData.mk [])
     = Ok (LightData.mk [Scene.nearGeometry])
  /\ CollectLitGeometries Scene.octree Scene.octree Scene.contains Scene.contains
       Scene.collected (Scene.light 3 LIGHT_POINT 7) (LightData.mk [])
     = Ok (LightData.mk [Scene.nearGeometry])
  /\ Spec.visible_geometry (traits_ Scene.collected) Scene.nearGeometry = true.
Proof.
  assert (forall light, Spec.visits_in_range (traits_ Scene.collected) (Scene.octree light))
    as Hrange.
  { intros light range inside drawable [Heq|[]] Hin. inversion Heq; subst.
    destruct Hin as [Heq'|[Heq'|[Heq'|[]]]]; subst drawable; simpl; lia. }
  split; [|split; [|split]].
  - apply (proj1 (proj1 (CollectLitGeometries_selects Scene.octree Scene.octree
                           Scene.contains Scene.contains Scene.collected (Scene.sun 3 7)
                           (LightData.mk [])) eq_refl)).
  - apply (proj1 (proj2 (CollectLitGeometries_selects Scene.octree Scene.octree
                           Scene.contains Scene.contains Scene.collected
                           (Scene.light 3 LIGHT_SPOT 7) (LightData.mk [])))).
    + reflexivity.
    + apply Hrange.
  - apply (proj2 (proj2 (CollectLitGeometries_selects Scene.octree Scene.octree
                           Scene.contains Scene.contains Scene.collected
                           (Scene.light 3 LIGHT_POINT 7) (LightData.mk [])))).
    + reflexivity.
    + apply Hrange.
  - apply (proj2 (proj2 (proj1 (CollectLitGeometries_selects Scene.octree Scene.octree
                                  Scene.contains Scene.contains Scene.collected
                                  (Scene.sun 3 7) (LightData.mk [])) eq_refl)
                    (LightData.mk [Scene.nearGeometry]) Scene.nearGeometry eq_refl)).
    + split.
      * intros drawable [Heq|[Heq|[]]]; subst drawable; reflexivity.
      * intros [|[|[|j]]] Hj; try discriminate Hj.
        -- exists Scene.maskedGeometry. split; [left; reflexivity|reflexivity].
        -- exists Scene.nearGeometry. split; [right; left; reflexivity|reflexivity].
    + left. reflexivity.
Defined.

(** *** Where the code leaves the specification *)

(** C1.  A drawable beyond its draw distance ends the collection of its
    range.  With the far drawable first, it gets the updated trait and
    nothing else, and the drawable after it is not even updated: no trait,
    no visible geometry, no batch.  With the far drawable last, the other
    one is collected in full. *)
Theorem far_drawable_ends_the_range :
  match CollectFrame Scene.passIndex true id Scene.zRange Scene.frame [Scene.unlitPass]
          [Scene.farGeometry; Scene.nearGeometry] Scene.constructed with
  | Ok s =>
      traits_ s = [TransientDrawableIndex.DrawableUpdated; 0]
      /\ ThreadedVector.elements (visibleGeometries_ s) = []
      /\ intermediate_batch_counts s = [(0%nat, 0%nat)]
  | Fault _ => False
  end
  /\ match CollectFrame Scene.passIndex true id Scene.zRange Scene.frame [Scene.unlitPass]
             [Scene.nearGeometry; Scene.farGeometry] Scene.constructed with
     | Ok s =>
         traits_ s = [TransientDrawableIndex.DrawableUpdated;
                      Z.lor TransientDrawableIndex.DrawableUpdated
                        TransientDrawableIndex.DrawableVisibleGeometry]
         /\ ThreadedVector.elements (visibleGeometries_ s) = [Scene.nearGeometry]
         /\ intermediate_batch_counts s = [(1%nat, 0%nat)]
     | Fault _ => False
     end.
Proof. vm_compute. repeat split; reflexivity. Qed.

(** C2.  An invalid pass is not excluded.  Where assertions are kept,
    [InitializePasses] stops the program.  Where they are dropped, the pass
    stays in [passes_] and its base sub-pass is registered for lookup; the
    collection inserts batches into its lists, which is out of range when
    the lists were never cleared, and adds to what they hold when an earlier
    call had set them up. *)
Theorem invalid_pass_is_kept :
  InitializePasses Scene.passIndex false [Scene.invalidPass]
    (InitializeFrame Scene.frame Scene.constructed)
  = Fault AssertionFailed
  /\ match InitializePasses Scene.passIndex true [Scene.invalidPass]
             (InitializeFrame Scene.frame Scene.constructed) with
     | Ok s =>
         map PassData.IsValid (passes_ s) = [false]
         /\ baseBatchesLookup_ s !! 0 = Some (0%nat, false)
         /\ UpdateAndCollectSourceBatches id Scene.zRange [(0%nat, [Scene.nearGeometry])] s
            = Fault OutOfRange
     | Fault _ => False
     end
  /\ match (do s <- InitializePasses Scene.passIndex true [Scene.unlitPass]
                      (InitializeFrame Scene.frame Scene.constructed);
            CollectFrame Scene.passIndex true id Scene.zRange Scene.frame
              [Scene.invalidPass] [Scene.nearGeometry] s) with
     | Ok s =>
         map PassData.IsValid (passes_ s) = [false]
         /\ baseBatchesLookup_ s !! 0 = Some (0%nat, false)
         /\ intermediate_batch_counts s = [(1%nat, 0%nat)]
     | Fault _ => False
     end.
Proof. vm_compute. repeat split; reflexivity. Qed.

(** C4.  [GetOrCreatePipelineState] does not store the live hashes.  On an
    empty cache, with a geometry of hash 3, it calls the factory and stores
    the state with the three hashes at 0; [GetPipelineState] with the same
    key and the same live hashes is then a miss, and flags the entry. *)
Theorem created_state_is_not_found :
  match SubPassPipelineStateCache.GetOrCreatePipelineState (Some Scene.nearGeometry)
          Scene.nearKey (SubPassPipelineStateContext.mk 1%N None) Scene.freshFactory
          (Scene.hashes 3) [] ∅ with
  | Ok (created, cache1, calls) =>
      created = Some 1000%N
      /\ length calls = 1%nat
      /\ cache1 !! Scene.nearKey
         = Some (SubPassPipelineStateEntry.mk 0 0 0 (Some 1000%N) false)
      /\ match SubPassPipelineStateCache.GetPipelineState (Scene.hashes 3) Scene.nearKey
                 cache1 with
         | Ok (found, cache2) =>
             found = None
             /\ cache2 !! Scene.nearKey
                = Some (SubPassPipelineStateEntry.mk 0 0 0 (Some 1000%N) true)
         | Fault _ => False
         end
  | Fault _ => False
  end.
Proof. vm_compute. repeat split; reflexivity. Qed.

(** C8.  A second [CollectSceneBatches] creates the pipeline states again.
    With one geometry of hash 3 in one Unlit pass, the first call creates
    the state of the batch; the second call, nothing else having changed,
    misses it in the cache, calls the factory a second time and gives the
    batch another state.  With the three live hashes at 0 the second call
    finds the state and the factory is not called. *)
Theorem second_collection_creates_again :
  match (do s <- CollectFrame Scene.passIndex true id Scene.zRange Scene.frame
                   [Scene.unlitPass] [Scene.nearGeometry] Scene.constructed;
         do s1 <- CollectSceneBatches Scene.freshFactory (Scene.hashes 3) s;
         do s2 <- CollectSceneBatches Scene.freshFactory (Scene.hashes 3) s1;
         Ok (s1, s2)) with
  | Ok (s1, s2) =>
      map SceneBatch.pipelineState_ (GetBaseBatches Scene.passIndex "base" s1) = [Some 1000%N]
      /\ map SceneBatch.pipelineState_ (GetBaseBatches Scene.passIndex "base" s2) = [Some 1001%N]
      /\ length (factoryCalls_ s1) = 1%nat
      /\ length (factoryCalls_ s2) = 2%nat
  | Fault _ => False
  end
  /\ match (do s <- CollectFrame Scene.passIndex true id Scene.zRange Scene.frame
                      [Scene.unlitPass] [Scene.nearGeometry] Scene.constructed;
            do s1 <- CollectSceneBatches Scene.freshFactory (Scene.hashes 0) s;
            do s2 <- CollectSceneBatches Scene.freshFactory (Scene.hashes 0) s1;
            Ok (s1, s2)) with
     | Ok (s1, s2) =>
         map SceneBatch.pipelineState_ (GetBaseBatches Scene.passIndex "base" s1) = [Some 1000%N]
         /\ map SceneBatch.pipelineState_ (GetBaseBatches Scene.passIndex "base" s2) = [Some 1000%N]
         /\ length (factoryCalls_ s1) = 1%nat
         /\ length (factoryCalls_ s2) = 1%nat
     | Fault _ => False
     end.
Proof. vm_compute. repeat split; reflexivity. Qed.

(** *** Further properties on concrete scenes *)

Lemma GetPipelineState_hit_witness :
  SubPassPipelineStateCache.GetPipelineState (Scene.hashes 3) Scene.nearKey Scene.nearCache
  = Ok (Some 1000%N, Scene.nearCache).
Proof.
  apply (GetPipelineState_hit (Scene.hashes 3) Scene.nearKey Scene.nearCache Scene.nearEntry).
  - reflexivity.
  - reflexivity.
  - vm_compute. repeat split; reflexivity.
Defined.

Lemma GetPipelineState_flag_stays_witness :
  SubPassPipelineStateCache.GetPipelineState (Scene.hashes 4) Scene.nearKey Scene.nearCache
  = Ok (None, Scene.flaggedCache)
  /\ SubPassPipelineStateCache.GetPipelineState (Scene.hashes 3) Scene.nearKey
       Scene.flaggedCache
     = Ok (None, Scene.flaggedCache).
Proof.
  assert (SubPassPipelineStateCache.GetPipelineState (Scene.hashes 4) Scene.nearKey
            Scene.nearCache = Ok (None, Scene.flaggedCache)) as Hflagged
    by reflexivity.
  split; [exact Hflagged|].
  apply (GetPipelineState_flag_stays (Scene.hashes 4) Scene.nearKey Scene.nearCache
           Scene.flaggedCache None Hflagged).
  intros Heq. apply (f_equal (fun c => c !! Scene.nearKey)) in Heq.
  vm_compute in Heq. discriminate Heq.
Defined.

Lemma GetOrCreatePipelineState_stores_witness :
  exists state cache' calls',
    SubPassPipelineStateCache.GetOrCreatePipelineState (Some Scene.nearGeometry)
      Scene.nearKey Scene.unlitContext Scene.freshFactory (Scene.hashes 3) [] ∅
    = Ok (state, cache', calls')
    /\ state = Some 1000%N
    /\ (exists entry,
          cache' !! Scene.nearKey = Some entry
          /\ SubPassPipelineStateEntry.pipelineState_ entry = state
          /\ SubPassPipelineStateEntry.invalidated_ entry = false)
    /\ (forall other, other <> Scene.nearKey ->
          cache' !! other
          = (∅ : gmap SubPassPipelineStateKey.t SubPassPipelineStateEntry.t) !! other)
    /\ (calls' = []
        \/ calls' = [] ++ [Spec.factory_call Scene.unlitContext (Some Scene.nearGeometry)
                             Scene.nearKey]
           /\ state = Scene.freshFactory []
                        (Spec.factory_call Scene.unlitContext (Some Scene.nearGeometry)
                           Scene.nearKey)).
Proof.
  eexists _, _, _. split; [reflexivity|]. split; [reflexivity|].
  apply (GetOrCreatePipelineState_stores (Some Scene.nearGeometry) Scene.nearKey
           Scene.unlitContext Scene.freshFactory (Scene.hashes 3) [] _ ∅).
  reflexivity.
Defined.

Lemma GetOrCreatePipelineState_hit_witness :
  SubPassPipelineStateCache.GetOrCreatePipelineState (Some Scene.nearGeometry) Scene.nearKey
    Scene.unlitContext Scene.freshFactory (Scene.hashes 3) [] Scene.nearCache
  = Ok (Some 1000%N, Scene.nearCache, []).
Proof.
  apply (GetOrCreatePipelineState_hit (Some Scene.nearGeometry) Scene.nearKey
           Scene.unlitContext Scene.freshFactory (Scene.hashes 3) [] Scene.nearCache
           Scene.nearEntry).
  - reflexivity.
  - reflexivity.
  - reflexivity.
  - vm_compute. repeat split; reflexivity.
Defined.

Lemma GetOrCreatePipelineState_recreates_witness :
  exists cache',
    SubPassPipelineStateCache.GetOrCreatePipelineState (Some Scene.nearGeometry)
      Scene.nearKey Scene.unlitContext Scene.freshFactory (Scene.hashes 4) []
      Scene.flaggedCache
    = Ok (Some 1000%N, cache',
          [Spec.factory_call Scene.unlitContext (Some Scene.nearGeometry) Scene.nearKey])
    /\ exists entry',
         cache' !! Scene.nearKey = Some entry'
         /\ SubPassPipelineStateEntry.pipelineState_ entry' = Some 1000%N
         /\ SubPassPipelineStateEntry.invalidated_ entry' = false
         /\ SubPassPipelineStateEntry.geometryHash_ entry' = 3
         /\ SubPassPipelineStateEntry.materialHash_ entry' = 0
         /\ SubPassPipelineStateEntry.passHash_ entry' = 0.
Proof.
  apply (GetOrCreatePipelineState_recreates (Some Scene.nearGeometry) Scene.nearKey
           Scene.unlitContext Scene.freshFactory (Scene.hashes 4) [] Scene.flaggedCache
           (SubPassPipelineStateEntry.mk 3 0 0 (Some 1000%N) true)).
  - reflexivity.
  - left. reflexivity.
Defined.

Lemma InitializePasses_valid_witness :
  exists s',
    InitializePasses Scene.passIndex false [Scene.unlitPass]
      (InitializeFrame Scene.frame Scene.constructed) = Ok s'
    /\ Forall2 (fun desc passData =>
                  PassData.desc_ passData = desc
                  /\ PassData.unlitBasePassIndex_ passData
                     = Scene.passIndex (unlitBasePassName_ desc)
                  /\ PassData.litBasePassIndex_ passData
                     = Scene.passIndex (litBasePassName_ desc)
                  /\ PassData.additionalLightPassIndex_ passData
                     = Scene.passIndex (additionalLightPassName_ desc)
                  /\ PassData.unlitBatches_ passData = replicate 1 []
                  /\ PassData.litBatches_ passData = replicate 1 [])
         [Scene.unlitPass] (passes_ s').
Proof.
  apply (InitializePasses_valid Scene.passIndex false [Scene.unlitPass]
           (InitializeFrame Scene.frame Scene.constructed)).
  intros desc [<-|[]]. reflexivity.
Defined.

Lemma InitializePasses_keeps_caches_witness :
  exists s',
    InitializePasses Scene.passIndex false [Scene.unlitPass; Scene.unlitPass] Scene.cached
    = Ok s'
    /\ length (passes_ s') = 2%nat
    /\ (forall i before,
          passes_ Scene.cached !! i = Some before -> (i < 2)%nat ->
          exists after,
            passes_ s' !! i = Some after
            /\ PassData.unlitBaseSceneBatches_ after = PassData.unlitBaseSceneBatches_ before
            /\ PassData.litBaseSceneBatches_ after = PassData.litBaseSceneBatches_ before
            /\ PassData.unlitPipelineStateCache_ after
               = PassData.unlitPipelineStateCache_ before
            /\ PassData.litPipelineStateCache_ after
               = PassData.litPipelineStateCache_ before)
    /\ (forall i after,
          passes_ s' !! i = Some after -> (1 <= i)%nat ->
          PassData.unlitPipelineStateCache_ after = ∅
          /\ PassData.litPipelineStateCache_ after = ∅).
Proof.
  eexists. split; [reflexivity|].
  apply (InitializePasses_keeps_caches Scene.passIndex false
           [Scene.unlitPass; Scene.unlitPass] Scene.cached).
  reflexivity.
Defined.

Lemma InitializePasses_lookup_table_witness :
  exists s',
    InitializePasses Scene.passIndex false [Scene.unlitPass] Scene.cached = Ok s'
    /\ (forall passIndex i lit,
          baseBatchesLookup_ s' !! passIndex = Some (i, lit) ->
          exists passData,
            passes_ s' !! i = Some passData /\ Spec.names_base_pass passIndex lit passData)
    /\ (forall passIndex,
          baseBatchesLookup_ s' !! passIndex = None <->
          forall passData lit,
            In passData (passes_ s') -> ~ Spec.names_base_pass passIndex lit passData)
    /\ baseBatchesLookup_ s' !! M_MAX_UNSIGNED = None
    /\ (forall pass,
          (forall passData lit,
             In passData (passes_ s') ->
             ~ Spec.names_base_pass (Scene.passIndex pass) lit passData) ->
          GetBaseBatches Scene.passIndex pass s' = []).
Proof.
  eexists. split; [reflexivity|].
  apply (InitializePasses_lookup_table Scene.passIndex false [Scene.unlitPass] Scene.cached).
  reflexivity.
Defined.

Lemma UpdateAndCollectSourceBatches_in_range_witness :
  exists s',
    UpdateAndCollectSourceBatches id Scene.zRange
      [(0%nat, [Scene.nearGeometry; Scene.sun 0 7])] Scene.cached = Ok s'
    /\ Spec.frame_sized s'.
Proof.
  apply (UpdateAndCollectSourceBatches_in_range id Scene.zRange
           [(0%nat, [Scene.nearGeometry; Scene.sun 0 7])] Scene.cached).
  - unfold Spec.frame_sized. simpl. repeat split; try reflexivity.
    repeat constructor.
  - intros threadIndex range [Heq|[]]. inversion Heq; subst. split; [simpl; lia|].
    intros drawable [<-|[<-|[]]]; simpl; lia.
Defined.

Lemma UpdateAndCollectSourceBatchesForThread_batches_witness :
  exists s',
    UpdateAndCollectSourceBatchesForThread id Scene.zRange 0
      [Scene.nearGeometry; Scene.sun 0 7] Scene.cached = Ok s'
    /\ Spec.collector_kept Scene.cached s'
    /\ Forall2 (Spec.pass_collected
                  (Spec.collected_geometry id [Scene.nearGeometry; Scene.sun 0 7]))
         (passes_ Scene.cached) (passes_ s').
Proof.
  eexists. split; [vm_compute; reflexivity|].
  apply (UpdateAndCollectSourceBatchesForThread_batches id Scene.zRange 0
           [Scene.nearGeometry; Scene.sun 0 7] Scene.cached).
  vm_compute. reflexivity.
Defined.

Lemma UpdateAndCollectSourceBatchesForThread_traits_witness :
  exists s',
    UpdateAndCollectSourceBatchesForThread id Scene.zRange 0 [Scene.nearGeometry]
      Scene.cached = Ok s'
    /\ Spec.traits_grown
         (fun i => exists drawable,
                     In drawable [Scene.nearGeometry] /\ GetDrawableIndex drawable = i)
         (traits_ Scene.cached) (traits_ s').
Proof.
  eexists. split; [vm_compute; reflexivity|].
  apply (UpdateAndCollectSourceBatchesForThread_traits id Scene.zRange 0
           [Scene.nearGeometry] Scene.cached).
  vm_compute. reflexivity.
Defined.








